(** * ai-sdk-provider-gemini-cli: translation and streaming pipeline

    A shallow embedding of the adapter's pure translation layer
    ([tool-mapper.ts], [message-mapper.ts], [gemini-language-model.ts])
    together with the properties its specification states about it.

    Conventions of the embedding.
    - A JavaScript value that the code inspects structurally (a JSON schema,
      a thinking-config object, function-call arguments) is a [json] term.
      Objects are association lists in property order; [JUndefined] stands
      for a property that is present with the value [undefined].
    - A string is the UTF-8 encoding of the program's string, one [ascii]
      per byte.
    - JavaScript numbers that occur in the modelled paths are integral
      (token counts, thinking budgets, schema bounds) and are carried as [Z].
    - Platform services ([randomUUID], [JSON.stringify], [new Date()],
      base64 encoding, the error mapper of [./error]) are parameters of the
      sections that use them.
    - Logging has no effect on results and is left out. *)

From Stdlib Require Import List String Ascii ZArith Bool Arith Lia.
From Stdlib Require Import DecimalString.
From Stdlib Require DecimalNat.
From Stdlib Require QArith.
Import ListNotations.
Open Scope string_scope.

(* ================================================================== *)
(** ** JavaScript values and objects *)
(* ================================================================== *)

Module Json.

Unset Elimination Schemes.
Inductive json : Type :=
| JUndefined
| JNull
| JBool (b : bool)
| JNum (n : Z)
| JStr (s : string)
| JArr (items : list json)
| JObj (fields : list (string * json)).
Set Elimination Schemes.

(** An object: its own enumerable properties, in property order. *)
Definition obj : Type := list (string * json).

(** [if (v)]: JavaScript truthiness. *)
Definition truthy (v : json) : bool :=
  match v with
  | JUndefined | JNull => false
  | JBool b => b
  | JNum n => negb (n =? 0)%Z
  | JStr s => negb (s =? "")
  | JArr _ | JObj _ => true
  end.

(** [typeof v === 'object'] (true of [null], arrays and objects). *)
Definition typeof_object (v : json) : bool :=
  match v with
  | JNull | JArr _ | JObj _ => true
  | _ => false
  end.

Definition is_null (v : json) : bool :=
  match v with JNull => true | _ => false end.

(** [v === undefined]. *)
Definition is_undefined (v : json) : bool :=
  match v with JUndefined => true | _ => false end.

(** Own-property lookup. *)
Fixpoint get (k : string) (o : obj) : option json :=
  match o with
  | [] => None
  | (k', v) :: r => if k =? k' then Some v else get k r
  end.

(** [o.k] / [o[k]]: a missing property reads as [undefined]. *)
Definition prop (k : string) (o : obj) : json :=
  match get k o with Some v => v | None => JUndefined end.

(** [o[k] = v]: overwrite in place, or append a new property. *)
Fixpoint set (k : string) (v : json) (o : obj) : obj :=
  match o with
  | [] => [(k, v)]
  | (k', v') :: r =>
      if k =? k' then (k', v) :: r else (k', v') :: set k v r
  end.

(** [delete o.k]. *)
Definition delete (k : string) (o : obj) : obj :=
  filter (fun kv => negb (k =? fst kv)) o.

Definition keys (o : obj) : list string := map fst o.

(** Decimal rendering of an array index, as used for array property keys. *)
Definition index_key (i : nat) : string :=
  NilEmpty.string_of_uint (Nat.to_uint i).

Fixpoint indexed_from (i : nat) (l : list json) : obj :=
  match l with
  | [] => []
  | v :: r => (index_key i, v) :: indexed_from (S i) r
  end.

(** [Object.entries(v)] for the values the code applies it to
    (also the properties copied by the spread [{...v}]). *)
Definition entries (v : json) : obj :=
  match v with
  | JObj o => o
  | JArr l => indexed_from 0 l
  | _ => []
  end.

(** Nesting depth, the measure along which the cleaner recurses. *)
Fixpoint depth (v : json) : nat :=
  match v with
  | JArr l => S (fold_right (fun x m => Nat.max (depth x) m) 0 l)
  | JObj o => S (fold_right (fun kv m => Nat.max (depth (snd kv)) m) 0 o)
  | _ => 0
  end.

(** Does key [k] occur as a property name anywhere inside [v]? *)
Fixpoint has_key_deep (k : string) (v : json) : bool :=
  match v with
  | JArr l => existsb (has_key_deep k) l
  | JObj o =>
      existsb (fun kv => (k =? fst kv) || has_key_deep k (snd kv)) o
  | _ => false
  end.

End Json.
Import Json.

(* ================================================================== *)
(** ** tool-mapper.ts *)
(* ================================================================== *)

Module ToolMapper.

(** The four metadata keys the cleaner deletes. *)
Definition meta_keys : list string :=
  ["$schema"; "$ref"; "$defs"; "definitions"].

(** One activation of [cleanJsonSchema]; [self] is the recursive call. *)
Definition cleanJsonSchema_body (self : json -> json) (schema : json) : json :=
  if negb (typeof_object schema) || is_null schema then schema
  else
    let cleaned := entries schema in
    let cleaned := delete "$schema" cleaned in
    let cleaned := delete "$ref" cleaned in
    let cleaned := delete "$defs" cleaned in
    let cleaned := delete "definitions" cleaned in
    let cleaned :=
      if truthy (prop "properties" cleaned)
         && typeof_object (prop "properties" cleaned)
      then
        let cleanedProps :=
          fold_left (fun acc kv => set (fst kv) (self (snd kv)) acc)
                    (entries (prop "properties" cleaned)) [] in
        set "properties" (JObj cleanedProps) cleaned
      else cleaned in
    let cleaned :=
      if truthy (prop "items" cleaned)
      then set "items" (self (prop "items" cleaned)) cleaned
      else cleaned in
    let cleaned :=
      if truthy (prop "additionalProperties" cleaned)
         && typeof_object (prop "additionalProperties" cleaned)
      then set "additionalProperties"
               (self (prop "additionalProperties" cleaned)) cleaned
      else cleaned in
    let cleaned :=
      fold_left
        (fun cleaned key =>
           match prop key cleaned with
           | JArr arrayProp => set key (JArr (map self arrayProp)) cleaned
           | _ => cleaned
           end)
        ["allOf"; "anyOf"; "oneOf"] cleaned in
    let cleaned :=
      if truthy (prop "properties" cleaned)
         && is_undefined (prop "type" cleaned)
      then set "type" (JStr "object") cleaned
      else cleaned in
    JObj cleaned.

(** The recursion descends into strictly smaller values, so [n] unfoldings
    suffice for a schema of depth at most [n]; [cleanJsonSchema_unfold]
    below is the recursive equation of the source,
    [cleanJsonSchema s = cleanJsonSchema_body cleanJsonSchema s]. *)
Fixpoint cleanJsonSchema_upto (n : nat) (schema : json) : json :=
  match n with
  | O => schema
  | S n' => cleanJsonSchema_body (cleanJsonSchema_upto n') schema
  end.

Definition cleanJsonSchema (schema : json) : json :=
  cleanJsonSchema_upto (depth schema) schema.

(** [LanguageModelV3ToolChoice]. *)
Inductive ToolChoice : Type :=
| ChoiceAuto
| ChoiceNone
| ChoiceRequired
| ChoiceTool (toolName : string).

Inductive FunctionCallingConfigMode : Type :=
| MODE_UNSPECIFIED
| AUTO
| ANY
| NONE.

Record FunctionCallingConfig : Type := mkFunctionCallingConfig {
  allowedFunctionNames : option (list string);
  mode : FunctionCallingConfigMode
}.

Record ToolConfig : Type := mkToolConfig {
  functionCallingConfig : FunctionCallingConfig
}.

Definition mapToolChoiceToGeminiFormat (toolChoice : ToolChoice)
  : FunctionCallingConfigMode :=
  match toolChoice with
  | ChoiceAuto => AUTO
  | ChoiceNone => NONE
  | ChoiceRequired | ChoiceTool _ => ANY
  end.

(** [mapGeminiToolConfig], on the [toolChoice] field of the call options. *)
Definition mapGeminiToolConfig (toolChoice : option ToolChoice)
  : option ToolConfig :=
  match toolChoice with
  | Some choice =>
      let allowedFunctionNames :=
        match choice with
        | ChoiceTool toolName => Some [toolName]
        | _ => None
        end in
      Some (mkToolConfig
              (mkFunctionCallingConfig allowedFunctionNames
                 (mapToolChoiceToGeminiFormat choice)))
  | None => None
  end.

End ToolMapper.

(* ================================================================== *)
(** ** Thrown errors *)
(* ================================================================== *)

Module Errors.

(** A JavaScript [Error] as far as the adapter distinguishes them. *)
Record JsError : Type := mkError { name : string; message : string }.

(** [new Error(msg)]. *)
Definition newError (msg : string) : JsError := mkError "Error" msg.

(** The [AbortError] raised at every cancellation checkpoint. *)
Definition abortError : JsError := mkError "AbortError" "Request aborted".

(** A computation that returns or throws. *)
Inductive result (A : Type) : Type :=
| Ok (a : A)
| Throw (e : JsError).
Arguments Ok {A} a.
Arguments Throw {A} e.

Definition bind {A B} (r : result A) (k : A -> result B) : result B :=
  match r with
  | Ok a => k a
  | Throw e => Throw e
  end.

(** [try { r } catch (error) { throw h(error) }]. *)
Definition rethrow {A} (h : JsError -> JsError) (r : result A) : result A :=
  match r with
  | Ok a => Ok a
  | Throw e => Throw (h e)
  end.

End Errors.
Import Errors.

Notation "x <- r ;; k" := (bind r (fun x => k))
  (at level 61, r at next level, right associativity).

(** [s] for an optional string in a condition: defined and non-empty. *)
Definition truthyStr (s : option string) : bool :=
  match s with
  | Some x => negb (x =? "")
  | None => false
  end.

(* ================================================================== *)
(** ** The backend's content model ([@google/genai]) *)
(* ================================================================== *)

Module Genai.

Record FunctionCall : Type := mkFunctionCall {
  fc_name : option string;
  fc_args : option json
}.

Record FunctionResponse : Type := mkFunctionResponse {
  fr_name : string;
  fr_response : json
}.

Record Blob : Type := mkBlob { mimeType : string; data : string }.

(** A [Part]: every field is optional in the backend's type. *)
Record Part : Type := mkPart {
  text : option string;
  inlineData : option Blob;
  functionCall : option FunctionCall;
  functionResponse : option FunctionResponse;
  thoughtSignature : option string
}.

Definition textPart (t : string) : Part :=
  mkPart (Some t) None None None None.
Definition inlineDataPart (b : Blob) : Part :=
  mkPart None (Some b) None None None.
Definition functionCallPart (fc : FunctionCall) (sig : option string) : Part :=
  mkPart None None (Some fc) None sig.
Definition functionResponsePart (fr : FunctionResponse) : Part :=
  mkPart None None None (Some fr) None.

Record Content : Type := mkContent {
  role : option string;
  parts : option (list Part)
}.

Record Candidate : Type := mkCandidate {
  content : option Content;
  finishReason : option string
}.

Record UsageMetadata : Type := mkUsageMetadata {
  promptTokenCount : option Z;
  candidatesTokenCount : option Z
}.

(** A response of [generateContent], and one chunk of
    [generateContentStream]. *)
Record GenerateContentResponse : Type := mkResponse {
  candidates : option (list Candidate);
  usageMetadata : option UsageMetadata
}.

End Genai.
Import Genai.

(* ================================================================== *)
(** ** The caller's prompt model ([@ai-sdk/provider], v3) *)
(* ================================================================== *)

Module Prompt.

(** [data] of a file part. *)
Inductive FileData : Type :=
| DataURL (href : string)
| DataString (base64 : string)
| DataBytes (bytes : list Byte.byte)
| DataOther.

Record FilePart : Type := mkFilePart {
  file_data : FileData;
  mediaType : string
}.

Record ToolCallPart : Type := mkToolCallPart {
  toolName : string;
  input : json;
  (** [providerOptions?.['gemini-cli']?.thoughtSignature] *)
  optionsThoughtSignature : option string
}.

(** An element of a [content]-typed tool output. *)
Inductive OutputItem : Type :=
| ItemText (t : string)
| ItemOther.

Inductive ToolResultOutput : Type :=
| OutText (value : string)
| OutErrorText (value : string)
| OutJson (value : json)
| OutErrorJson (value : json)
| OutExecutionDenied (reason : option string)
| OutContent (value : list OutputItem)
| OutUnknown.

Inductive MessagePart : Type :=
| PText (t : string)
| PFile (f : FilePart)
| PReasoning (t : string)
| PToolCall (c : ToolCallPart)
| PToolResult (tool : string) (output : ToolResultOutput)
| PToolApprovalResponse.

Inductive Message : Type :=
| System (content : string)
| User (content : list MessagePart)
| Assistant (content : list MessagePart)
| Tool (content : list MessagePart).

End Prompt.
Import Prompt.

(* ================================================================== *)
(** ** message-mapper.ts *)
(* ================================================================== *)

Module MessageMapper.
Section WithBase64.

(** [Buffer.from(bytes).toString('base64')]. *)
Variable base64 : list Byte.byte -> string.

Record GeminiPromptResult : Type := mkPromptResult {
  contents : list Content;
  systemInstruction : option Content
}.

Definition mapFilePart (part : FilePart) : result Part :=
  match file_data part with
  | DataURL _ =>
      Throw (newError
        "URL files are not supported by Gemini CLI Core. Please provide base64-encoded data.")
  | d =>
      let mimeType :=
        if mediaType part =? "" then "application/octet-stream"
        else mediaType part in
      base64Data <-
        match d with
        | DataString s => Ok s
        | DataBytes b => Ok (base64 b)
        | _ => Throw (newError "Unsupported file format")
        end ;;
      Ok (inlineDataPart (mkBlob mimeType base64Data))
  end.

(** The media-type test guarding [mapFilePart] in user messages. *)
Definition supportedMediaType (mediaType : string) : bool :=
  String.prefix "image/" mediaType
  || String.prefix "audio/" mediaType
  || String.prefix "video/" mediaType
  || (mediaType =? "application/pdf").

(** One iteration of the [for] loop of [mapUserMessage]. *)
Definition mapUserPart (parts : list Part) (part : MessagePart)
  : result (list Part) :=
  match part with
  | PText t => Ok (parts ++ [textPart t])%list
  | PFile f =>
      let mediaType :=
        if mediaType f =? "" then "application/octet-stream"
        else mediaType f in
      if supportedMediaType mediaType then
        p <- mapFilePart f ;; Ok (parts ++ [p])%list
      else Throw (newError ("Unsupported file type: " ++ mediaType))
  | _ => Ok parts
  end.

Fixpoint forParts {A} (step : list Part -> A -> result (list Part))
    (parts : list Part) (l : list A) : result (list Part) :=
  match l with
  | [] => Ok parts
  | x :: r => parts' <- step parts x ;; forParts step parts' r
  end.

Definition mapUserMessage (content : list MessagePart) : result Content :=
  parts <- forParts mapUserPart [] content ;;
  Ok (mkContent (Some "user") (Some parts)).

(** One iteration of the [for] loop of [mapAssistantMessage]. *)
Definition mapAssistantPart (parts : list Part) (part : MessagePart)
  : result (list Part) :=
  match part with
  | PText t => Ok (parts ++ [textPart t])%list
  | PToolCall c =>
      let thoughtSignature := optionsThoughtSignature c in
      let geminiPart :=
        functionCallPart
          (mkFunctionCall (Some (toolName c))
             (Some (if truthy (input c) then input c else JObj [])))
          (if truthyStr thoughtSignature then thoughtSignature else None) in
      Ok (parts ++ [geminiPart])%list
  | _ => Ok parts
  end.

Definition mapAssistantMessage (content : list MessagePart) : result Content :=
  parts <- forParts mapAssistantPart [] content ;;
  Ok (mkContent (Some "model") (Some parts)).

Definition newline : string := String (ascii_of_nat 10) EmptyString.

(** The response object of one tool result. *)
Definition toolResultValue (output : ToolResultOutput) : json :=
  match output with
  | OutText v | OutErrorText v => JObj [("result", JStr v)]
  | OutJson jsonValue | OutErrorJson jsonValue =>
      match jsonValue with
      | JObj _ => jsonValue
      | _ => JObj [("result", jsonValue)]
      end
  | OutExecutionDenied reason =>
      JObj [("result",
             JStr ("[Execution denied"
                   ++ (match reason with
                       | Some r => if r =? "" then "" else ": " ++ r
                       | None => ""
                       end)
                   ++ "]"))]
  | OutContent value =>
      let texts :=
        flat_map (fun p => match p with ItemText t => [t] | ItemOther => [] end)
                 value in
      JObj [("result", JStr (String.concat newline texts))]
  | OutUnknown => JObj [("result", JStr "[Unknown output type]")]
  end.

Definition mapToolPart (parts : list Part) (part : MessagePart)
  : result (list Part) :=
  match part with
  | PToolResult tool output =>
      Ok (parts ++ [functionResponsePart
                      (mkFunctionResponse tool (toolResultValue output))])%list
  | _ => Ok parts
  end.

(** One iteration of the message loop of [mapPromptToGeminiFormat]. *)
Definition mapMessage (acc : GeminiPromptResult) (message : Message)
  : result GeminiPromptResult :=
  match message with
  | System text =>
      Ok (mkPromptResult (contents acc)
            (Some (mkContent (Some "user") (Some [textPart text]))))
  | User c =>
      m <- mapUserMessage c ;;
      Ok (mkPromptResult (contents acc ++ [m])%list (systemInstruction acc))
  | Assistant c =>
      m <- mapAssistantMessage c ;;
      Ok (mkPromptResult (contents acc ++ [m])%list (systemInstruction acc))
  | Tool c =>
      parts <- forParts mapToolPart [] c ;;
      Ok (mkPromptResult
            (contents acc ++ [mkContent (Some "user") (Some parts)])%list
            (systemInstruction acc))
  end.

Fixpoint forMessages (acc : GeminiPromptResult) (l : list Message)
  : result GeminiPromptResult :=
  match l with
  | [] => Ok acc
  | m :: r => acc' <- mapMessage acc m ;; forMessages acc' r
  end.

Definition mapPromptToGeminiFormat (prompt : list Message)
  : result GeminiPromptResult :=
  forMessages (mkPromptResult [] None) prompt.

End WithBase64.
End MessageMapper.

(* ================================================================== *)
(** ** gemini-language-model.ts: configuration assembly *)
(* ================================================================== *)

Module LanguageModel.
Import ToolMapper.

(** A JavaScript number of the sampling parameters. *)
Definition number : Type := QArith_base.Q.

(** The string enum [ThinkingLevel]; a member is its string at run time. *)
Inductive ThinkingLevel : Type := LOW | MEDIUM | HIGH | MINIMAL.

Definition ThinkingLevel_value (l : ThinkingLevel) : string :=
  match l with
  | LOW => "LOW"
  | MEDIUM => "MEDIUM"
  | HIGH => "HIGH"
  | MINIMAL => "MINIMAL"
  end.

(** [String.prototype.toUpperCase].  A string of the model is the UTF-8
    encoding of the program's string.  The letters [a]-[z] are mapped to
    [A]-[Z].  Outside ASCII, the characters whose upper case is written
    in ASCII letters only are mapped as JavaScript maps them: U+0131
    (dotless i) to [I], U+017F (long s) to [S], U+00DF (sharp s) to [SS]
    and the ligatures U+FB00 to U+FB06 to [FF], [FI], [FL], [FFI], [FFL],
    [ST] and [ST].  Every other character outside ASCII is kept, where
    JavaScript gives a string that holds a character outside ASCII too
    (the same one or another); so the result compares with a string of
    ASCII characters as JavaScript's does, which is the only use the code
    makes of it. *)
Definition upperChar (c : ascii) : ascii :=
  let n := nat_of_ascii c in
  if ((97 <=? n) && (n <=? 122))%nat then ascii_of_nat (n - 32) else c.

(** Is [c] the byte [n]? *)
Definition byteIs (c : ascii) (n : nat) : bool := (nat_of_ascii c =? n)%nat.

(** The upper case of a ligature U+FB00 to U+FB06, by the last byte of
    its encoding [EF AC 80] to [EF AC 86]. *)
Definition ligatureUpper (c : ascii) : option string :=
  if byteIs c 128 then Some "FF"
  else if byteIs c 129 then Some "FI"
  else if byteIs c 130 then Some "FL"
  else if byteIs c 131 then Some "FFI"
  else if byteIs c 132 then Some "FFL"
  else if byteIs c 133 then Some "ST"
  else if byteIs c 134 then Some "ST"
  else None.

Fixpoint toUpperCase (s : string) : string :=
  match s with
  | EmptyString => EmptyString
  | String c r =>
      match r with
      | String c2 r2 =>
          if byteIs c 196 && byteIs c2 177            (* U+0131 *)
          then String "I" (toUpperCase r2)
          else if byteIs c 197 && byteIs c2 191       (* U+017F *)
          then String "S" (toUpperCase r2)
          else if byteIs c 195 && byteIs c2 159       (* U+00DF *)
          then String "S" (String "S" (toUpperCase r2))
          else
            match r2 with
            | String c3 r3 =>
                match (if byteIs c 239 && byteIs c2 172
                       then ligatureUpper c3 else None) with
                | Some upper => upper ++ toUpperCase r3
                | None => String (upperChar c) (toUpperCase r)
                end
            | EmptyString => String (upperChar c) (toUpperCase r)
            end
      | EmptyString => String (upperChar c) EmptyString
      end
  end.

Definition normalizeThinkingLevel (level : string) : option ThinkingLevel :=
  let normalized := toUpperCase level in
  if normalized =? "LOW" then Some LOW
  else if normalized =? "MEDIUM" then Some MEDIUM
  else if normalized =? "HIGH" then Some HIGH
  else if normalized =? "MINIMAL" then Some MINIMAL
  else None.

(** [LanguageModelV3FinishReason]. *)
Inductive Unified : Type :=
| stop | length | content_filter | tool_calls | error | other.

Record FinishReason : Type := mkFinishReason {
  unified : Unified;
  raw : option string
}.

Definition mapGeminiFinishReason (geminiReason : option string)
  : FinishReason :=
  match geminiReason with
  | Some r =>
      if r =? "STOP" then mkFinishReason stop geminiReason
      else if r =? "MAX_TOKENS" then mkFinishReason length geminiReason
      else if (r =? "SAFETY") || (r =? "RECITATION")
      then mkFinishReason content_filter geminiReason
      else if r =? "OTHER" then mkFinishReason other geminiReason
      else mkFinishReason other geminiReason
  | None => mkFinishReason other geminiReason
  end.

(** [buildThinkingConfig]: [input] and the result are objects with the
    optional properties [thinkingLevel], [thinkingBudget],
    [includeThoughts]. *)
Definition buildThinkingConfig (input : obj) : obj :=
  let config : obj := [] in
  let config :=
    if negb (is_undefined (prop "thinkingLevel" input)) then
      match prop "thinkingLevel" input with
      | JStr level =>
          match normalizeThinkingLevel level with
          | Some normalized =>
              set "thinkingLevel" (JStr (ThinkingLevel_value normalized)) config
          | None => config
          end
      | other_value => set "thinkingLevel" other_value config
      end
    else config in
  let config :=
    if negb (is_undefined (prop "thinkingBudget" input))
    then set "thinkingBudget" (prop "thinkingBudget" input) config
    else config in
  let config :=
    if negb (is_undefined (prop "includeThoughts" input))
    then set "includeThoughts" (prop "includeThoughts" input) config
    else config in
  config.

(** [options.responseFormat]. *)
Inductive ResponseFormat : Type :=
| FormatText
| FormatJson (schema : option json).

(** [SharedV3Warning], the one kind the adapter produces. *)
Inductive Warning : Type :=
| Unsupported (feature : string) (details : string).

(** The cancellation token: the value of [abortSignal.aborted] at each
    checkpoint of a call, numbered in program order. *)
Definition AbortSignal : Type := nat -> bool.

(** The fields of [LanguageModelV3CallOptions] the adapter consumes
    (tool declarations only reach the request and are left out). *)
Record CallOptions : Type := mkCallOptions {
  prompt : list Message;
  responseFormat : option ResponseFormat;
  thinkingConfig : option obj;
  temperature : option number;
  topP : option number;
  topK : option number;
  maxOutputTokens : option number;
  stopSequences : option (list string);
  toolChoice : option ToolChoice;
  abortSignal : option AbortSignal
}.

(** Model-level [settings]. *)
Record Settings : Type := mkSettings {
  s_thinkingConfig : option obj;
  s_temperature : option number;
  s_topP : option number;
  s_topK : option number;
  s_maxOutputTokens : option number
}.

Record GenerateContentConfig : Type := mkConfig {
  g_temperature : option number;
  g_topP : option number;
  g_topK : option number;
  g_maxOutputTokens : option number;
  g_stopSequences : option (list string);
  responseMimeType : string;
  responseJsonSchema : option json;
  toolConfig : option ToolConfig;
  g_thinkingConfig : option obj
}.

(** [a ?? b]. *)
Definition nullish {A} (a b : option A) : option A :=
  match a with Some _ => a | None => b end.

(** [settings?.field]. *)
Definition setting {A} (f : Settings -> option A) (settings : option Settings)
  : option A :=
  match settings with Some s => f s | None => None end.

(** [{...target, ...source}] for an optional source object. *)
Definition spread (target : obj) (source : option obj) : obj :=
  match source with
  | Some src => fold_left (fun acc kv => set (fst kv) (snd kv) acc) src target
  | None => target
  end.

Definition jsonWithoutSchemaDetails : string :=
  "JSON response format without a schema is not supported. Treating as plain text. Provide a schema for structured output.".

(** The call-time thinking config after validation of its level. *)
Definition effectiveOptionsThinking (optionsThinkingConfig : option obj)
  : option obj :=
  match optionsThinkingConfig with
  | Some o =>
      match prop "thinkingLevel" o with
      | JStr level =>
          match normalizeThinkingLevel level with
          | None =>
              let rest := delete "thinkingLevel" o in
              if (0 <? List.length (keys rest))%nat then Some rest else None
          | Some _ => optionsThinkingConfig
          end
      | _ => optionsThinkingConfig
      end
  | None => None
  end.

Definition prepareGenerationConfig (options : CallOptions)
    (settings : option Settings) : GenerateContentConfig * list Warning :=
  let warnings : list Warning := [] in
  let isJsonMode :=
    match responseFormat options with
    | Some (FormatJson _) => true
    | _ => false
    end in
  let schema :=
    match responseFormat options with
    | Some (FormatJson schema) => schema
    | _ => None
    end in
  let hasSchema :=
    isJsonMode && match schema with Some _ => true | None => false end in
  let warnings :=
    if isJsonMode && negb hasSchema
    then (warnings ++ [Unsupported "responseFormat" jsonWithoutSchemaDetails])%list
    else warnings in
  let settingsThinkingConfig := setting s_thinkingConfig settings in
  let optionsThinkingConfig := thinkingConfig options in
  let effective := effectiveOptionsThinking optionsThinkingConfig in
  let mergedThinkingConfig :=
    match settingsThinkingConfig, effective with
    | None, None => None
    | _, _ => Some (spread (spread [] settingsThinkingConfig) effective)
    end in
  let thinkingConfig :=
    match mergedThinkingConfig with
    | Some merged => Some (buildThinkingConfig merged)
    | None => None
    end in
  (mkConfig
     (nullish (temperature options) (setting s_temperature settings))
     (nullish (topP options) (setting s_topP settings))
     (nullish (topK options) (setting s_topK settings))
     (nullish (maxOutputTokens options) (setting s_maxOutputTokens settings))
     (stopSequences options)
     (if hasSchema then "application/json" else "text/plain")
     (if hasSchema then schema else None)
     (mapGeminiToolConfig (toolChoice options))
     thinkingConfig,
   warnings).

(* ------------------------------------------------------------------ *)
(** *** Results of the two operations *)

(** [LanguageModelV3Usage]: [None] is an unknown ([undefined]) count. *)
Record InputTokens : Type := mkInputTokens {
  in_total : option Z;
  noCache : option Z;
  cacheRead : option Z;
  cacheWrite : option Z
}.

Record OutputTokens : Type := mkOutputTokens {
  out_total : option Z;
  out_text : option Z;
  reasoning : option Z
}.

Record Usage : Type := mkUsage {
  inputTokens : InputTokens;
  outputTokens : OutputTokens
}.

(** The usage object both operations build from their two totals. *)
Definition usageOf (inputTotal outputTotal : Z) : Usage :=
  mkUsage (mkInputTokens (Some inputTotal) None None None)
          (mkOutputTokens (Some outputTotal) None None).

(** [LanguageModelV3Content]. *)
Inductive ContentPart : Type :=
| ContentText (text : string)
| ContentToolCall (toolCallId toolName input : string)
                  (thoughtSignature : option string).

Record ResponseInfo : Type := mkResponseInfo {
  r_id : string;
  r_timestamp : Z;
  r_modelId : string
}.

(** The value [doGenerate] resolves to ([rawCall] and [rawResponse] echo
    the request and the response and are left out). *)
Record GenerateResult : Type := mkGenerateResult {
  gr_content : list ContentPart;
  gr_finishReason : FinishReason;
  gr_usage : Usage;
  gr_response : ResponseInfo;
  gr_warnings : list Warning
}.

(** [LanguageModelV3StreamPart]. *)
Inductive StreamPart : Type :=
| StreamStart (warnings : list Warning)
| TextStart (id : string)
| TextDelta (id delta : string)
| TextEnd (id : string)
| ToolCall (toolCallId toolName input : string)
           (thoughtSignature : option string)
| ResponseMetadata (id : string) (timestamp : Z) (modelId : string)
| Finish (finishReason : FinishReason) (usage : Usage).

(** How a [ReadableStream] ends: [controller.close()] or
    [controller.error(e)]. *)
Inductive Ending : Type :=
| Closed
| Errored (e : JsError).

(** The stream [doStream] resolves to: the parts enqueued, in order, and
    the way the stream ended. *)
Record ReadableStream : Type := mkStream {
  enqueued : list StreamPart;
  ending : Ending
}.

(** The async iterable returned by [generateContentStream]: the chunks it
    yields, and the error it raises after them, if any. *)
Record ChunkStream : Type := mkChunkStream {
  chunks : list GenerateContentResponse;
  failure : option JsError
}.

(** What the backend client does for this call. *)
Record Backend : Type := mkBackend {
  (** [String(error)] when [initializeGeminiClient] rejects *)
  initializeFailure : option string;
  generateContent : result GenerateContentResponse;
  generateContentStream : result ChunkStream
}.

(** The fields of a [GeminiLanguageModel] instance. *)
Record GeminiLanguageModel : Type := mkModel {
  modelId : string;
  settings : option Settings
}.

(* ------------------------------------------------------------------ *)
(** *** The two operations *)

Section Orchestrators.

(** [randomUUID()]: the identifier returned by the [n]-th call made while
    serving one request. *)
Variable randomUUID : nat -> string.
(** [JSON.stringify]. *)
Variable JSON_stringify : json -> string.
(** [new Date()] while the [i]-th chunk is processed (chunk 0 for the
    single response of [doGenerate]). *)
Variable clock : nat -> Z.
(** [mapGeminiError] of [./error]. *)
Variable mapGeminiError : JsError -> JsError.
(** [Buffer.from(bytes).toString('base64')]. *)
Variable base64 : list Byte.byte -> string.

(** [options.abortSignal?.aborted] at checkpoint [cp]. *)
Definition aborted (options : CallOptions) (cp : nat) : bool :=
  match abortSignal options with
  | Some signal => signal cp
  | None => false
  end.

Definition checkAbort (options : CallOptions) (cp : nat) : result unit :=
  if aborted options cp then Throw abortError else Ok tt.

Definition ensureInitialized (backend : Backend) : result unit :=
  match initializeFailure backend with
  | Some e => Throw (newError ("Failed to initialize Gemini model: " ++ e))
  | None => Ok tt
  end.

(** [x || 0] on an optional count. *)
Definition orZero (x : option Z) : Z :=
  match x with Some n => n | None => 0%Z end.

(** [x || ''] on an optional string. *)
Definition orEmpty (x : option string) : string :=
  match x with Some s => s | None => "" end.

(** [args || {}]. *)
Definition argsOrEmpty (args : option json) : json :=
  match args with
  | Some a => if truthy a then a else JObj []
  | None => JObj []
  end.

(** [sig ? { providerMetadata: ... sig } : {}]. *)
Definition signatureOf (part : Part) : option string :=
  if truthyStr (thoughtSignature part) then thoughtSignature part else None.

(** [response.candidates?.[0]]. *)
Definition firstCandidate (response : GenerateContentResponse)
  : option Candidate :=
  match candidates response with
  | Some l => hd_error l
  | None => None
  end.

(** [candidate?.content?.parts], the empty loop when absent. *)
Definition partsOf (candidate : option Candidate) : list Part :=
  match candidate with
  | Some c =>
      match content c with
      | Some ct => match parts ct with Some l => l | None => [] end
      | None => []
      end
  | None => []
  end.

(** [candidate?.finishReason]. *)
Definition finishReasonOf (candidate : option Candidate) : option string :=
  match candidate with
  | Some c => finishReason c
  | None => None
  end.

(** [usageMetadata?.promptTokenCount] and [?.candidatesTokenCount]. *)
Definition promptCount (u : option UsageMetadata) : option Z :=
  match u with Some m => promptTokenCount m | None => None end.
Definition candidatesCount (u : option UsageMetadata) : option Z :=
  match u with Some m => candidatesTokenCount m | None => None end.

(** The finish reason both operations compute. *)
Definition finishReasonFor (hasToolCalls : bool) (reason : option string)
  : FinishReason :=
  if hasToolCalls then mkFinishReason tool_calls reason
  else mapGeminiFinishReason reason.

(** State of the content loop of [doGenerate]. *)
Record ContentState : Type := mkContentState {
  cs_content : list ContentPart;
  cs_hasToolCalls : bool;
  cs_uuids : nat
}.

Definition contentStep (st : ContentState) (part : Part) : ContentState :=
  if truthyStr (text part) then
    mkContentState (cs_content st ++ [ContentText (orEmpty (text part))])%list
                   (cs_hasToolCalls st) (cs_uuids st)
  else
    match functionCall part with
    | Some fc =>
        mkContentState
          (cs_content st
           ++ [ContentToolCall (randomUUID (cs_uuids st))
                 (orEmpty (fc_name fc))
                 (JSON_stringify (argsOrEmpty (fc_args fc)))
                 (signatureOf part)])%list
          true (S (cs_uuids st))
    | None => st
    end.

Definition doGenerate (model : GeminiLanguageModel) (options : CallOptions)
    (backend : Backend) : result GenerateResult :=
  rethrow mapGeminiError
    (_ <- ensureInitialized backend ;;
     _ <- MessageMapper.mapPromptToGeminiFormat base64 (prompt options) ;;
     let '(generationConfig, warnings) :=
       prepareGenerationConfig options (settings model) in
     _ <- checkAbort options 0 ;;
     (* the request identifier is [randomUUID 0] *)
     response <- generateContent backend ;;
     _ <- checkAbort options 1 ;;
     let candidate := firstCandidate response in
     let st :=
       fold_left contentStep (partsOf candidate) (mkContentState [] false 1) in
     let inputTokens := orZero (promptCount (usageMetadata response)) in
     let outputTokens := orZero (candidatesCount (usageMetadata response)) in
     let usage := usageOf inputTokens outputTokens in
     let finishReason :=
       finishReasonFor (cs_hasToolCalls st) (finishReasonOf candidate) in
     Ok (mkGenerateResult (cs_content st) finishReason usage
           (mkResponseInfo (randomUUID (cs_uuids st)) (clock 0) (modelId model))
           warnings)).

(** State of the [start] callback of the stream. *)
Record StreamState : Type := mkStreamState {
  totalInputTokens : Z;
  totalOutputTokens : Z;
  textPartId : option string;
  hasToolCalls : bool;
  uuids : nat;
  queue : list StreamPart
}.

(** [controller.enqueue(part)]. *)
Definition enqueue (part : StreamPart) (st : StreamState) : StreamState :=
  mkStreamState (totalInputTokens st) (totalOutputTokens st) (textPartId st)
                (hasToolCalls st) (uuids st) (queue st ++ [part])%list.

(** Body of the loop over [content.parts]. *)
Definition processPart (st : StreamState) (part : Part) : StreamState :=
  if truthyStr (text part) then
    let st :=
      if negb (truthyStr (textPartId st)) then
        let id := randomUUID (uuids st) in
        enqueue (TextStart id)
          (mkStreamState (totalInputTokens st) (totalOutputTokens st)
                         (Some id) (hasToolCalls st) (S (uuids st)) (queue st))
      else st in
    enqueue (TextDelta (orEmpty (textPartId st)) (orEmpty (text part))) st
  else
    match functionCall part with
    | Some fc =>
        enqueue
          (ToolCall (randomUUID (uuids st)) (orEmpty (fc_name fc))
                    (JSON_stringify (argsOrEmpty (fc_args fc)))
                    (signatureOf part))
          (mkStreamState (totalInputTokens st) (totalOutputTokens st)
                         (textPartId st) true (S (uuids st)) (queue st))
    | None => st
    end.

(** The block run when a chunk carries a finish reason. *)
Definition finishChunk (model : GeminiLanguageModel) (i : nat)
    (reason : option string) (st : StreamState) : StreamState :=
  let st :=
    if truthyStr (textPartId st)
    then enqueue (TextEnd (orEmpty (textPartId st))) st
    else st in
  let finishReason := finishReasonFor (hasToolCalls st) reason in
  let st :=
    enqueue (ResponseMetadata (randomUUID (uuids st)) (clock i) (modelId model))
      (mkStreamState (totalInputTokens st) (totalOutputTokens st)
                     (textPartId st) (hasToolCalls st) (S (uuids st))
                     (queue st)) in
  enqueue
    (Finish finishReason
            (usageOf (totalInputTokens st) (totalOutputTokens st)))
    st.

(** Body of the [for await] loop, after the abort check. *)
Definition processChunk (model : GeminiLanguageModel) (i : nat)
    (st : StreamState) (chunk : GenerateContentResponse) : StreamState :=
  let candidate := firstCandidate chunk in
  let st :=
    match usageMetadata chunk with
    | Some m =>
        mkStreamState (orZero (promptTokenCount m))
                      (orZero (candidatesTokenCount m))
                      (textPartId st) (hasToolCalls st) (uuids st) (queue st)
    | None => st
    end in
  let st := fold_left processPart (partsOf candidate) st in
  if truthyStr (finishReasonOf candidate)
  then finishChunk model i (finishReasonOf candidate) st
  else st.

(** The [for await] loop from the [i]-th chunk on; the abort check of
    chunk [i] is checkpoint [3 + i]. *)
Fixpoint streamLoop (model : GeminiLanguageModel) (options : CallOptions)
    (i : nat) (rest : list GenerateContentResponse) (failure : option JsError)
    (st : StreamState) : ReadableStream :=
  match rest with
  | [] =>
      match failure with
      | Some e => mkStream (queue st) (Errored (mapGeminiError e))
      | None => mkStream (queue st) Closed
      end
  | chunk :: rest' =>
      if aborted options (3 + i) then mkStream (queue st) (Errored abortError)
      else streamLoop model options (S i) rest' failure
                      (processChunk model i st chunk)
  end.

(** The [start] callback of the [ReadableStream]. *)
Definition start (model : GeminiLanguageModel) (options : CallOptions)
    (streamWarnings : list Warning) (streamResponse : ChunkStream)
  : ReadableStream :=
  if aborted options 2 then mkStream [] (Errored abortError)
  else
    let st := mkStreamState 0 0 None false 1 [] in
    let st := enqueue (StreamStart streamWarnings) st in
    streamLoop model options 0 (chunks streamResponse)
               (failure streamResponse) st.

Definition doStream (model : GeminiLanguageModel) (options : CallOptions)
    (backend : Backend) : result ReadableStream :=
  rethrow mapGeminiError
    (_ <- ensureInitialized backend ;;
     _ <- MessageMapper.mapPromptToGeminiFormat base64 (prompt options) ;;
     let '(generationConfig, warnings) :=
       prepareGenerationConfig options (settings model) in
     _ <- checkAbort options 0 ;;
     (* the request identifier is [randomUUID 0] *)
     streamResponse <- generateContentStream backend ;;
     _ <- checkAbort options 1 ;;
     Ok (start model options warnings streamResponse)).

End Orchestrators.

End LanguageModel.

(* ================================================================== *)
(** ** tool-mapper.ts: tool declarations *)
(* ================================================================== *)

(** A tool's input schema is a JavaScript value: a JSON schema object, or
    a zod schema, of which the code reads the [_def] property and which
    it hands to a converter. *)
Module ToolDeclarations.
Import ToolMapper.

(** [LanguageModelV3FunctionTool]. *)
Record FunctionTool : Type := mkFunctionTool {
  ft_name : string;
  ft_description : option string;
  inputSchema : json
}.

(** [FunctionDeclaration] and [Tool] of the backend. *)
Record FunctionDeclaration : Type := mkFunctionDeclaration {
  fd_name : string;
  fd_description : option string;
  parameters : json
}.

Record GeminiTool : Type := mkGeminiTool {
  functionDeclarations : list FunctionDeclaration
}.

(** [k in obj] for an object or an array. *)
Definition hasProp (k : string) (obj : json) : bool :=
  match get k (entries obj) with Some _ => true | None => false end.

Definition isJsonSchema (obj : json) : bool :=
  typeof_object obj && negb (is_null obj)
  && (hasProp "type" obj || hasProp "properties" obj || hasProp "$schema" obj).

Definition isZodSchema (obj : json) : bool :=
  typeof_object obj && negb (is_null obj)
  && hasProp "_def" obj
  && typeof_object (prop "_def" (entries obj)).

Section WithZod.

(** [z.toJSONSchema], when this zod exports it; [None] as a result is a
    throw. *)
Variable toJSONSchema : option (json -> option json).
(** [zodToJsonSchema] of the [zod-to-json-schema] module, when the module
    loads (the load is tried once and its outcome is kept); [None] as a
    result is a throw. *)
Variable zodToJsonSchemaModule : option (json -> option json).

(** [try { return f(x) } catch {}]: the value returned, if any. *)
Definition attempt (f : option (json -> option json)) (x : json)
  : option json :=
  match f with
  | Some g => g x
  | None => None
  end.

Definition convertZodToJsonSchema (zodSchema : json) : json :=
  match attempt toJSONSchema zodSchema with
  | Some r => r
  | None =>
      match attempt zodToJsonSchemaModule zodSchema with
      | Some r => r
      | None => JObj [("type", JStr "object")]
      end
  end.

Definition convertToolParameters (parameters : json) : json :=
  if isJsonSchema parameters then cleanJsonSchema parameters
  else if isZodSchema parameters
       then cleanJsonSchema (convertZodToJsonSchema parameters)
       else parameters.

Definition mapToolsToGeminiFormat (tools : list FunctionTool)
  : list GeminiTool :=
  let functionDeclarations :=
    fold_left
      (fun acc tool =>
         (acc ++ [mkFunctionDeclaration (ft_name tool) (ft_description tool)
                    (convertToolParameters (inputSchema tool))])%list)
      tools [] in
  [mkGeminiTool functionDeclarations].

(** An element of [options.tools]: a function tool, or a tool defined by
    the provider. *)
Inductive CallTool : Type :=
| FunctionToolEntry (tool : FunctionTool)
| ProviderToolEntry (id : string).

(** [options.tools.filter((tool) => tool.type === 'function')]. *)
Definition functionToolsOf (tools : list CallTool) : list FunctionTool :=
  flat_map (fun t => match t with
                     | FunctionToolEntry f => [f]
                     | ProviderToolEntry _ => []
                     end) tools.

(** The [tools] of the request, as [doGenerate] and [doStream] compute
    them. *)
Definition requestTools (tools : option (list CallTool))
  : option (list GeminiTool) :=
  match tools with
  | Some entries =>
      let functionTools := functionToolsOf entries in
      if (0 <? List.length functionTools)%nat
      then Some (mapToolsToGeminiFormat functionTools)
      else None
  | None => None
  end.

End WithZod.
End ToolDeclarations.

(* ================================================================== *)
(** ** Vocabulary of the properties *)
(* ================================================================== *)

(** *** The schema cleaner as a chain of in-place updates

    For the proofs the body of [cleanJsonSchema] is read as: strip the
    metadata keys, update six properties in place, default the type.
    [body_normal_form] below shows that this is the body itself. *)

Module CleanerModel.
Import ToolMapper.

(** Replace the value of the first property named [k] by its image. *)
Fixpoint modify (k : string) (g : json -> json) (c : obj) : obj :=
  match c with
  | [] => []
  | (k', v) :: r =>
      if k =? k' then (k', g v) :: r else (k', v) :: modify k g r
  end.

(** The [cleanedProps] object built from the entries of [properties]. *)
Definition cleanProps (self : json -> json) (es : obj) : obj :=
  fold_left (fun acc kv => set (fst kv) (self (snd kv)) acc) es [].

(** What the cleaner puts in place of the value of [properties], of
    [items], of [additionalProperties] and of [allOf]/[anyOf]/[oneOf]. *)
Definition gProps (self : json -> json) (v : json) : json :=
  if truthy v && typeof_object v then JObj (cleanProps self (entries v)) else v.
Definition gItems (self : json -> json) (v : json) : json :=
  if truthy v then self v else v.
Definition gAddl (self : json -> json) (v : json) : json :=
  if truthy v && typeof_object v then self v else v.
Definition gArr (self : json -> json) (v : json) : json :=
  match v with JArr l => JArr (map self l) | _ => v end.

(** The four [delete]s. *)
Definition strip (c : obj) : obj :=
  delete "definitions" (delete "$defs" (delete "$ref" (delete "$schema" c))).

(** The six recursive updates, in the order of the source. *)
Definition recurse (self : json -> json) (c : obj) : obj :=
  modify "oneOf" (gArr self)
    (modify "anyOf" (gArr self)
      (modify "allOf" (gArr self)
        (modify "additionalProperties" (gAddl self)
          (modify "items" (gItems self)
            (modify "properties" (gProps self) c))))).

(** The final [type: 'object'] default. *)
Definition defaultType (c : obj) : obj :=
  if truthy (prop "properties" c) && is_undefined (prop "type" c)
  then set "type" (JStr "object") c else c.

(** A value in which the metadata keys are gone wherever the cleaner
    looks: at the top level of an object and, through [properties],
    [items], [additionalProperties], [allOf], [anyOf] and [oneOf], at the
    top level of every schema below it. *)
Unset Elimination Schemes.
Inductive Cleaned : json -> Prop :=
| Cleaned_scalar v : typeof_object v = false -> Cleaned v
| Cleaned_null : Cleaned JNull
| Cleaned_obj o :
    (forall k, In k meta_keys -> ~ In k (keys o)) ->
    (forall p, get "properties" o = Some p ->
               truthy p = true -> typeof_object p = true ->
               Forall (fun kv => Cleaned (snd kv)) (entries p)) ->
    (forall v, get "items" o = Some v -> truthy v = true -> Cleaned v) ->
    (forall v, get "additionalProperties" o = Some v ->
               truthy v = true -> typeof_object v = true -> Cleaned v) ->
    (forall k l, In k ["allOf"; "anyOf"; "oneOf"] ->
                 get k o = Some (JArr l) -> Forall Cleaned l) ->
    Cleaned (JObj o).
Set Elimination Schemes.

(** [{type: 'object', not: {$ref: '#/definitions/a'}}]. *)
Definition schema_with_not : json :=
  JObj [("type", JStr "object");
        ("not", JObj [("$ref", JStr "#/definitions/a")])].

End CleanerModel.

(** *** Words of the specification about prompts, configs and streams *)

Module Vocabulary.
Import LanguageModel.
Local Open Scope list_scope.

(** A file part of media type [text/plain] with inline base64 data. *)
Definition plainTextFile : FilePart :=
  mkFilePart (DataString "aGVsbG8=") "text/plain".

(** [part.mediaType || 'application/octet-stream']. *)
Definition effectiveMediaType (f : FilePart) : string :=
  if mediaType f =? "" then "application/octet-stream" else mediaType f.

(** The thinking config [{thinkingLevel: level}]. *)
Definition levelOnly (level : string) : obj := [("thinkingLevel", JStr level)].

(** A part the two part loops treat as a function call: it has a
    [functionCall] and no non-empty [text]. *)
Definition isFunctionCallPart (p : Part) : bool :=
  negb (truthyStr (text p))
  && match functionCall p with Some _ => true | None => false end.

(** The first candidate of [c] holds a function-call part. *)
Definition chunkHasToolCall (c : GenerateContentResponse) : bool :=
  existsb isFunctionCallPart (partsOf (firstCandidate c)).

(** The first candidate of [c] carries a (non-empty) finish reason. *)
Definition finishing (c : GenerateContentResponse) : bool :=
  truthyStr (finishReasonOf (firstCandidate c)).

(** The usage metadata of the last chunk of [cs] that carried one. *)
Definition lastUsageOf (cs : list GenerateContentResponse)
  : option UsageMetadata :=
  fold_left (fun acc c => match usageMetadata c with
                          | Some m => Some m
                          | None => acc
                          end) cs None.

(** The block id of a text-start, text-delta or text-end part. *)
Definition textEventId (e : StreamPart) : option string :=
  match e with
  | TextStart id | TextDelta id _ | TextEnd id => Some id
  | _ => None
  end.

Definition isTextStart (e : StreamPart) : bool :=
  match e with TextStart _ => true | _ => false end.
Definition isTextEnd (e : StreamPart) : bool :=
  match e with TextEnd _ => true | _ => false end.

(** A chunk whose first candidate carries one text part. *)
Definition textChunk (role : option string) (t : string)
    (reason : option string) (u : option UsageMetadata)
  : GenerateContentResponse :=
  mkResponse
    (Some [mkCandidate (Some (mkContent role (Some [textPart t]))) reason]) u.

(** A chunk whose first candidate carries one function-call part. *)
Definition callChunk (name : string) (reason : option string)
  : GenerateContentResponse :=
  mkResponse
    (Some [mkCandidate
             (Some (mkContent (Some "model")
                      (Some [functionCallPart
                               (mkFunctionCall (Some name) None) None])))
             reason])
    None.

(** Concrete platform services, a model, options and backends, for the
    properties stated at concrete requests. *)
Module Sample.
Definition randomUUID (n : nat) : string := "id-" ++ index_key n.
Definition JSON_stringify (v : json) : string :=
  match v with
  | JObj [] => "{}"
  | _ => "<json>"
  end.
Definition clock (i : nat) : Z := Z.of_nat i.
Definition mapGeminiError (e : JsError) : JsError := e.
Definition base64 (b : list Byte.byte) : string := "<base64>".
Definition model : GeminiLanguageModel := mkModel "gemini-2.5-pro" None.
Definition options (signal : option AbortSignal) : CallOptions :=
  mkCallOptions [User [PText "Hello"]] None None None None None None None None
                signal.
Definition streaming (cs : list GenerateContentResponse) : Backend :=
  mkBackend None (Throw (newError "unused")) (Ok (mkChunkStream cs None)).
Definition answering (response : GenerateContentResponse) : Backend :=
  mkBackend None (Ok response) (Throw (newError "unused")).
End Sample.

(** What a finish part of a stream over the chunks [cs] looks like: it
    belongs to a finishing chunk [c], its reason is computed from the
    function calls of the chunks up to [c], its usage from the last usage
    metadata up to [c]. *)
Definition finishFrom (cs : list GenerateContentResponse)
    (fr : FinishReason) (u : Usage) : Prop :=
  exists pre c post,
    cs = (pre ++ c :: post)%list
    /\ finishing c = true
    /\ fr = finishReasonFor (existsb chunkHasToolCall (pre ++ [c]))
                            (finishReasonOf (firstCandidate c))
    /\ u = usageOf (orZero (promptCount (lastUsageOf (pre ++ [c]))))
                   (orZero (candidatesCount (lastUsageOf (pre ++ [c])))).

(** What the state of the chunk loop records about the chunks [pre]
    processed so far. *)
Record Tracks (pre : list GenerateContentResponse) (st : StreamState) : Prop := {
  tr_calls : hasToolCalls st = existsb chunkHasToolCall pre;
  tr_in : totalInputTokens st = orZero (promptCount (lastUsageOf pre));
  tr_out : totalOutputTokens st = orZero (candidatesCount (lastUsageOf pre));
  tr_fin : forall fr u, In (Finish fr u) (queue st) -> finishFrom pre fr u
}.

(** The text block of a stream state: no text event before an id is
    assigned; afterwards one [text-start], and that id on every text
    event. *)
Definition TextInv (st : StreamState) : Prop :=
  match textPartId st with
  | None => forall e, In e (queue st) -> textEventId e = None
  | Some id =>
      id <> ""
      /\ List.length (filter isTextStart (queue st)) = 1
      /\ forall e id', In e (queue st) -> textEventId e = Some id' -> id' = id
  end.

(** [TextInv], and no more text-end parts than finishing chunks. *)
Definition TextOK (pre : list GenerateContentResponse) (st : StreamState)
  : Prop :=
  TextInv st
  /\ List.length (filter isTextEnd (queue st))
     <= List.length (filter finishing pre).

(** A token that is signaled from checkpoint [cp0] on. *)
Definition signaledFrom (cp0 : nat) : AbortSignal := fun cp => (cp0 <=? cp)%nat.

(** Usage metadata of two successive chunks (running totals). *)
Definition usage12 : option UsageMetadata :=
  Some (mkUsageMetadata (Some 12%Z) (Some 3%Z)).
Definition usage12_5 : option UsageMetadata :=
  Some (mkUsageMetadata (Some 12%Z) (Some 5%Z)).

(** Two chunks that both carry a text part and a finish reason. *)
Definition twoFinishes : list GenerateContentResponse :=
  [textChunk (Some "model") "a" (Some "STOP") None;
   textChunk (Some "model") "b" (Some "STOP") None].

End Vocabulary.

(** *** Words of the properties of the schema cleaner and of the
    configuration *)

Module SchemaVocabulary.
Local Open Scope list_scope.

(** The four property names the cleaner deletes. *)
Definition is_meta (k : string) : bool :=
  (k =? "$schema") || (k =? "$ref") || (k =? "$defs") || (k =? "definitions").

(** Array indices are written in digits. *)
Definition starts_with_digit (k : string) : bool :=
  match k with
  | String c _ => (48 <=? nat_of_ascii c)%nat && (nat_of_ascii c <=? 57)%nat
  | EmptyString => true
  end.

(** The properties of a thinking config. *)
Definition thinkingKeys : list string :=
  ["thinkingLevel"; "thinkingBudget"; "includeThoughts"].

(** The level the builder emits for the level it is given. *)
Definition emittedLevel (v : json) : json :=
  match v with
  | JStr level =>
      match LanguageModel.normalizeThinkingLevel level with
      | Some l => JStr (LanguageModel.ThinkingLevel_value l)
      | None => JUndefined
      end
  | _ => v
  end.

End SchemaVocabulary.

(** *** Words of the properties of the message mapper *)

Module PromptVocabulary.
Import MessageMapper.
Local Open Scope list_scope.

Definition isSystem (m : Message) : bool :=
  match m with System _ => true | _ => false end.

(** The backend role of a non-system message. *)
Definition backendRole (m : Message) : option string :=
  match m with
  | Assistant _ => Some "model"
  | _ => Some "user"
  end.

(** The text of the last system message of a prompt. *)
Definition lastSystem (prompt : list Message) : option string :=
  fold_left (fun acc m => match m with System t => Some t | _ => acc end)
            prompt None.

(** The payload of a file part is inline: a string or bytes. *)
Definition inlinePayload (f : FilePart) : bool :=
  match file_data f with
  | DataString _ | DataBytes _ => true
  | _ => false
  end.

(** A part a user message can carry to the backend. *)
Definition userPartAccepted (p : MessagePart) : bool :=
  match p with
  | PFile f =>
      supportedMediaType
        (if mediaType f =? "" then "application/octet-stream"
         else mediaType f)
      && inlinePayload f
  | _ => true
  end.

Definition messageAccepted (m : Message) : bool :=
  match m with
  | User c => forallb userPartAccepted c
  | _ => true
  end.

(** All parts of all entries of a mapped prompt. *)
Definition allParts (contents : list Content) : list Part :=
  flat_map (fun c => match parts c with Some l => l | None => [] end) contents.

(** What a part of an assistant message becomes. *)
Definition assistantPartOf (part : MessagePart) : list Part :=
  match part with
  | PText t => [textPart t]
  | PToolCall c =>
      [functionCallPart
         (mkFunctionCall (Some (toolName c))
            (Some (if truthy (input c) then input c else JObj [])))
         (if truthyStr (optionsThoughtSignature c)
          then optionsThoughtSignature c else None)]
  | _ => []
  end.

(** The function responses of the tool-result parts of a tool message. *)
Definition responsesOf (content : list MessagePart) : list Part :=
  flat_map (fun p => match p with
                     | PToolResult tool output =>
                         [functionResponsePart
                            (mkFunctionResponse tool (toolResultValue output))]
                     | _ => []
                     end) content.

(** The tools named by the tool-result parts of a tool message. *)
Definition resultNames (content : list MessagePart) : list (option string) :=
  flat_map (fun p => match p with
                     | PToolResult tool _ => [Some tool]
                     | _ => []
                     end) content.

Definition isObject (v : json) : bool :=
  match v with JObj _ => true | _ => false end.

(** The error a file part of a user message is rejected with. *)
Definition rejectionOf (f : FilePart) : JsError :=
  if supportedMediaType (Vocabulary.effectiveMediaType f) then
    match file_data f with
    | DataURL _ =>
        newError
          "URL files are not supported by Gemini CLI Core. Please provide base64-encoded data."
    | _ => newError "Unsupported file format"
    end
  else newError ("Unsupported file type: " ++ Vocabulary.effectiveMediaType f).

(** A part the backend can take: no empty thought signature, and inline
    data of a supported media type only. *)
Definition PartFine (q : Part) : Prop :=
  thoughtSignature q <> Some ""
  /\ match inlineData q with
     | Some b => supportedMediaType (mimeType b) = true
     | None => True
     end.

(** What the message loop has established after the messages [seen]. *)
Record Mapped (seen : list Message) (acc : GeminiPromptResult) : Prop := {
  mp_roles : map role (contents acc)
             = map backendRole (filter (fun m => negb (isSystem m)) seen);
  mp_system : systemInstruction acc
              = option_map
                  (fun t => mkContent (Some "user") (Some [textPart t]))
                  (lastSystem seen);
  mp_parts : Forall PartFine (allParts (contents acc))
}.

End PromptVocabulary.

(** *** Words of the properties of the two operations *)

Module RunVocabulary.
Import LanguageModel Vocabulary.
Local Open Scope list_scope.

(** What a content part or a stream part says, its identifier left out. *)
Inductive Shape : Type :=
| ShapeText (t : string)
| ShapeCall (toolName input : string) (thoughtSignature : option string).

Definition shapeOfContent (c : ContentPart) : Shape :=
  match c with
  | ContentText t => ShapeText t
  | ContentToolCall _ n i s => ShapeCall n i s
  end.

Definition shapeOfEvent (e : StreamPart) : list Shape :=
  match e with
  | TextDelta _ t => [ShapeText t]
  | ToolCall _ n i s => [ShapeCall n i s]
  | _ => []
  end.

(** What a backend part contributes: its text when that is non-empty,
    else its function call, else nothing. *)
Definition shapeOfPart (JSON_stringify : json -> string) (p : Part)
  : list Shape :=
  if truthyStr (text p) then [ShapeText (orEmpty (text p))]
  else match functionCall p with
       | Some fc =>
           [ShapeCall (orEmpty (fc_name fc))
                      (JSON_stringify (argsOrEmpty (fc_args fc)))
                      (signatureOf p)]
       | None => []
       end.

Definition shapesOfChunk (JSON_stringify : json -> string)
    (c : GenerateContentResponse) : list Shape :=
  flat_map (shapeOfPart JSON_stringify) (partsOf (firstCandidate c)).

(** The identifier a content part or a stream part was given. *)
Definition callIdOf (c : ContentPart) : list string :=
  match c with
  | ContentToolCall id _ _ _ => [id]
  | _ => []
  end.

Definition drawnId (e : StreamPart) : list string :=
  match e with
  | TextStart id | ToolCall id _ _ _ | ResponseMetadata id _ _ => [id]
  | _ => []
  end.

Definition isStreamStart (e : StreamPart) : bool :=
  match e with StreamStart _ => true | _ => false end.
Definition isResponseMetadata (e : StreamPart) : bool :=
  match e with ResponseMetadata _ _ _ => true | _ => false end.
Definition isFinish (e : StreamPart) : bool :=
  match e with Finish _ _ => true | _ => false end.

(** The parts a step of the stream appends, and the identifiers it
    draws for them. *)
Definition Emits (randomUUID : nat -> string) (st st' : StreamState)
    (evs : list StreamPart) : Prop :=
  queue st' = queue st ++ evs
  /\ exists n, uuids st' = uuids st + n
               /\ flat_map drawnId evs = map randomUUID (seq (uuids st) n).

(** What the chunk loop has established after the chunks [pre]. *)
Record Run (randomUUID : nat -> string) (JSON_stringify : json -> string)
    (w : list Warning) (pre : list GenerateContentResponse)
    (st : StreamState) : Prop := {
  run_start : exists q, queue st = StreamStart w :: q
                        /\ filter isStreamStart q = [];
  run_shapes : flat_map shapeOfEvent (queue st)
               = flat_map (shapesOfChunk JSON_stringify) pre;
  run_finish : List.length (filter isFinish (queue st))
               = List.length (filter finishing pre);
  run_meta : List.length (filter isResponseMetadata (queue st))
             = List.length (filter finishing pre);
  run_ids : 1 <= uuids st
            /\ flat_map drawnId (queue st)
               = map randomUUID (seq 1 (uuids st - 1))
}.

(** What both operations need before they return a result: the client
    initialised, a prompt the mapper accepts, and no cancellation before
    or right after the call of the backend. *)
Definition requestReady (backend : Backend) (options : CallOptions) : Prop :=
  initializeFailure backend = None
  /\ forallb PromptVocabulary.messageAccepted (prompt options) = true
  /\ aborted options 0 = false
  /\ aborted options 1 = false.

(** How a stream over [rest] ends when [k] chunks were processed. *)
Definition endingAfter (mapGeminiError : JsError -> JsError) (k : nat)
    (rest : list GenerateContentResponse) (failure : option JsError)
  : Ending :=
  if (k <? List.length rest)%nat then Errored abortError
  else match failure with
       | Some e => Errored (mapGeminiError e)
       | None => Closed
       end.

End RunVocabulary.

(** *** Concrete inputs of the further properties *)

Module MoreSamples.
Import ToolMapper LanguageModel Vocabulary.
Local Open Scope list_scope.

(** A JSON schema as a schema generator writes it. *)
Definition draftSchema : json :=
  JObj [("$schema", JStr "http://json-schema.org/draft-07/schema#");
        ("properties", JObj [("city", JObj [("type", JStr "string")])])].

(** A value that passes for a zod schema. *)
Definition zodLike : json :=
  JObj [("_def", JObj [("typeName", JStr "ZodObject")])].

(** A conversation with two system messages, a user message with an
    image, an assistant turn that calls a tool, and the tool's result. *)
Definition conversation : list Message :=
  [System "Be brief.";
   System "Answer in French.";
   User [PText "Hello"; PFile (mkFilePart (DataString "aGVsbG8=") "image/png")];
   Assistant [PText "Bonjour";
              PToolCall (mkToolCallPart "lookup" (JObj []) (Some "sig"))];
   Tool [PToolResult "lookup" (OutJson (JArr []))]].

Definition mappedConversation : MessageMapper.GeminiPromptResult :=
  MessageMapper.mkPromptResult
    [mkContent (Some "user")
       (Some [textPart "Hello";
              inlineDataPart (mkBlob "image/png" "aGVsbG8=")]);
     mkContent (Some "model")
       (Some [textPart "Bonjour";
              functionCallPart
                (mkFunctionCall (Some "lookup") (Some (JObj []))) (Some "sig")]);
     mkContent (Some "user")
       (Some [functionResponsePart
                (mkFunctionResponse "lookup"
                   (JObj [("result", JArr [])]))])]
    (Some (mkContent (Some "user") (Some [textPart "Answer in French."]))).

(** Model-level defaults and a call-time override with a misspelt
    level. *)
Definition defaultThinking : obj :=
  [("thinkingLevel", JStr "high"); ("thinkingBudget", JNum 8192)].
Definition overrideThinking : obj :=
  [("thinkingLevel", JStr "hihg"); ("thinkingBudget", JNum 512)].
Definition overridingOptions : CallOptions :=
  mkCallOptions [User [PText "Hello"]] None (Some overrideThinking)
                None None None None None None None.
Definition defaultSettings : option Settings :=
  Some (mkSettings (Some defaultThinking) None None None None).

(** A response with a text part and a function call, and a stream of a
    text chunk and a finishing chunk with a function call. *)
Definition textAndCall : GenerateContentResponse :=
  mkResponse
    (Some [mkCandidate
             (Some (mkContent (Some "model")
                      (Some [textPart "Let me check.";
                             functionCallPart
                               (mkFunctionCall (Some "lookup") None) None])))
             (Some "STOP")])
    None.

Definition textThenCall : list GenerateContentResponse :=
  [textChunk (Some "model") "Let me check." None None;
   callChunk "lookup" (Some "STOP")].

(** A backend that answers both operations with [textAndCall]. *)
Definition answeringBoth : Backend :=
  mkBackend None (Ok textAndCall) (Ok (mkChunkStream [textAndCall] None)).

(** A user message whose second part is a file given by its URL. *)
Definition linkedImage : FilePart :=
  mkFilePart (DataURL "https://example.com/cat.png") "image/png".

End MoreSamples.

(** *** Words of the properties of the level names *)

Module LevelVocabulary.

(** The lower-case form of an upper-case ASCII letter. *)
Definition lowerOf (C : ascii) : ascii := ascii_of_nat (nat_of_ascii C + 32).

(** [level] spells the upper-case word [name] letter by letter: every
    letter in either case, and the letter [I] also as U+0131, the dotless
    i (the bytes 196 and 177 in UTF-8). *)
Fixpoint spells (name level : string) : bool :=
  match name with
  | EmptyString =>
      match level with EmptyString => true | String _ _ => false end
  | String C name' =>
      match level with
      | EmptyString => false
      | String c rest =>
          ((c =? C)%char || (c =? lowerOf C)%char) && spells name' rest
          || (C =? "I")%char
             && match rest with
                | String c2 rest2 =>
                    (c =? ascii_of_nat 196)%char && (c2 =? ascii_of_nat 177)%char
                    && spells name' rest2
                | EmptyString => false
                end
      end
  end.

(** An upper-case ASCII letter other than [F] and [S]. *)
Definition plainLetter (C : ascii) : Prop :=
  65 <= nat_of_ascii C <= 90 /\ nat_of_ascii C <> 70 /\ nat_of_ascii C <> 83.

End LevelVocabulary.

(** *** Words of the properties of finish parts, written without the
    code's helpers *)

Module FinishVocabulary.
Import LanguageModel Vocabulary.
Local Open Scope list_scope.

(** The table of the backend's finish signals. *)
Definition finishTable : list (string * Unified) :=
  [("STOP", stop); ("MAX_TOKENS", length);
   ("SAFETY", content_filter); ("RECITATION", content_filter)].

(** The unified reason of a finish signal: its row of the table, and
    [other] for any other signal and for no signal. *)
Definition unifiedOf (signal : option string) : Unified :=
  match signal with
  | Some r =>
      match find (fun row => r =? fst row) finishTable with
      | Some row => snd row
      | None => other
      end
  | None => other
  end.

(** The finish reason for the backend's [signal], given whether a
    function call was seen. *)
Definition expectedFinishReason (sawCall : bool) (signal : option string)
  : FinishReason :=
  mkFinishReason (if sawCall then tool_calls else unifiedOf signal) signal.

(** The usage for the usage metadata [m]: the backend's counts, the
    number 0 for a count or a metadata it omitted, and no breakdown. *)
Definition expectedUsage (m : option UsageMetadata) : Usage :=
  mkUsage
    (mkInputTokens
       (Some match m with
             | Some u => match promptTokenCount u with
                         | Some n => n
                         | None => 0%Z
                         end
             | None => 0%Z
             end)
       None None None)
    (mkOutputTokens
       (Some match m with
             | Some u => match candidatesTokenCount u with
                         | Some n => n
                         | None => 0%Z
                         end
             | None => 0%Z
             end)
       None None).

(** The finish signal of a response or chunk: that of its first
    candidate. *)
Definition signalOf (c : GenerateContentResponse) : option string :=
  match candidates c with
  | Some (candidate :: _) => finishReason candidate
  | _ => None
  end.

(** The finish parts among stream parts, in order: reason and usage. *)
Definition finishesOf (parts : list StreamPart)
  : list (FinishReason * Usage) :=
  flat_map (fun e => match e with
                     | Finish fr u => [(fr, u)]
                     | _ => []
                     end) parts.

(** The finish parts expected of the chunks [rest] that come after the
    chunks [seen]: one for each chunk that carries a finish signal, in
    order.  Its reason is computed from that signal and from whether a
    function call occurs in the chunks up to and including it, its usage
    from the last usage metadata up to and including it. *)
Fixpoint expectedFinishes (seen rest : list GenerateContentResponse)
  : list (FinishReason * Usage) :=
  match rest with
  | [] => []
  | c :: rest' =>
      (if finishing c
       then [(expectedFinishReason
                (existsb chunkHasToolCall (seen ++ [c])) (signalOf c),
              expectedUsage (lastUsageOf (seen ++ [c])))]
       else [])
      ++ expectedFinishes (seen ++ [c]) rest'
  end.

(** What the chunk loop has established about finish parts after the
    chunks [pre]. *)
Record Finished (pre : list GenerateContentResponse) (st : StreamState)
  : Prop := {
  fd_tracks : Tracks pre st;
  fd_list : finishesOf (queue st) = expectedFinishes [] pre
}.

(** A text chunk with a finish signal, then a chunk with a function call
    and another finish signal. *)
Definition stopThenCall : list GenerateContentResponse :=
  [textChunk (Some "model") "a" (Some "STOP") None;
   callChunk "lookup" (Some "MAX_TOKENS")].

(** A chunk with both counts, then a finishing chunk whose usage
    metadata omits the prompt count. *)
Definition countsThenPartial : list GenerateContentResponse :=
  [textChunk (Some "model") "a" None usage12;
   textChunk (Some "model") "b" (Some "STOP")
             (Some (mkUsageMetadata None (Some 5%Z)))].

End FinishVocabulary.

(** *** Words of the properties of tool declarations and of returned
    content, written without the code's helpers *)

Module ExpectedVocabulary.
Import ToolDeclarations LanguageModel RunVocabulary.
Local Open Scope list_scope.

(** The declarations expected of the tools of a call: one for each
    function tool, in order, the provider-defined tools skipped. *)
Fixpoint expectedDeclarations (convert : json -> json) (tools : list CallTool)
  : list FunctionDeclaration :=
  match tools with
  | [] => []
  | FunctionToolEntry f :: rest =>
      mkFunctionDeclaration (ft_name f) (ft_description f)
                            (convert (inputSchema f))
      :: expectedDeclarations convert rest
  | ProviderToolEntry _ :: rest => expectedDeclarations convert rest
  end.

(** The values JavaScript takes for false. *)
Definition isFalsy (v : json) : bool :=
  match v with
  | JUndefined | JNull | JBool false | JNum 0%Z | JStr EmptyString => true
  | _ => false
  end.

(** What a part of the backend's answer gives: its text when that is not
    empty; else, for a function call, a tool call with the call's name
    (the empty string without one), the JSON text of its arguments (of
    the empty object without arguments, or with falsy ones) and the
    part's thought signature unless that is empty; else nothing. *)
Definition expectedShape (stringify : json -> string) (p : Part)
  : list Shape :=
  match text p with
  | Some (String _ _ as t) => [ShapeText t]
  | _ =>
      match functionCall p with
      | Some call =>
          [ShapeCall
             match fc_name call with Some n => n | None => EmptyString end
             (stringify match fc_args call with
                        | Some a => if isFalsy a then JObj [] else a
                        | None => JObj []
                        end)
             match thoughtSignature p with
             | Some (String _ _ as signature) => Some signature
             | _ => None
             end]
      | None => []
      end
  end.

(** The same for a whole answer: the parts of its first candidate. *)
Definition expectedContent (stringify : json -> string)
    (response : GenerateContentResponse) : list Shape :=
  match candidates response with
  | Some (candidate :: _) =>
      match content candidate with
      | Some ct =>
          match parts ct with
          | Some ps => flat_map (expectedShape stringify) ps
          | None => []
          end
      | None => []
      end
  | _ => []
  end.

(** A call that lists a provider-defined tool between two function
    tools. *)
Definition mixedTools : list CallTool :=
  [FunctionToolEntry
     (mkFunctionTool "get_weather" (Some "Weather of a city")
        MoreSamples.draftSchema);
   ProviderToolEntry "google.search";
   FunctionToolEntry (mkFunctionTool "get_time" None (JStr "any"))].

(** An answer with a text and a function call that has arguments and a
    thought signature. *)
Definition callWithArguments : GenerateContentResponse :=
  mkResponse
    (Some [mkCandidate
             (Some (mkContent (Some "model")
                      (Some [textPart "Let me check.";
                             functionCallPart
                               (mkFunctionCall (Some "lookup")
                                  (Some (JObj [("city", JStr "Paris")])))
                               (Some "sig-1")])))
             (Some "STOP")])
    None.

End ExpectedVocabulary.

(* ================================================================== *)
(** ** Properties *)
(* ================================================================== *)

Open Scope list_scope.

(** *** Objects *)

Module ObjectFacts.
Import CleanerModel.

Lemma get_set_eq k v c : get k (set k v c) = Some v.
Proof.
  induction c as [|[k' v'] r IH]; simpl.
  - now rewrite String.eqb_refl.
  - destruct (k =? k') eqn:E; simpl; rewrite E; auto.
Qed.

Lemma get_set_ne k k' v c : k <> k' -> get k (set k' v c) = get k c.
Proof.
  intros N. apply String.eqb_neq in N.
  induction c as [|[k2 v2] r IH]; simpl.
  - now rewrite N.
  - destruct (k' =? k2) eqn:E; simpl.
    + apply String.eqb_eq in E; subst k2. now rewrite N.
    + destruct (k =? k2); auto.
Qed.

Lemma get_modify_eq k g c : get k (modify k g c) = option_map g (get k c).
Proof.
  induction c as [|[k' v'] r IH]; simpl; auto.
  destruct (k =? k') eqn:E; simpl; rewrite E; auto.
Qed.

Lemma get_modify_ne k k' g c : k <> k' -> get k (modify k' g c) = get k c.
Proof.
  intros N. apply String.eqb_neq in N.
  induction c as [|[k2 v2] r IH]; simpl; auto.
  destruct (k' =? k2) eqn:E; simpl.
  - apply String.eqb_eq in E; subst k2. now rewrite N.
  - destruct (k =? k2); auto.
Qed.

Lemma set_modify k g c v : get k c = Some v -> set k (g v) c = modify k g c.
Proof.
  induction c as [|[k' v'] r IH]; simpl; [discriminate|].
  destruct (k =? k') eqn:E; intros H.
  - now inversion H.
  - now rewrite IH.
Qed.

Lemma modify_ext k g g' c :
  (forall v, get k c = Some v -> g v = g' v) -> modify k g c = modify k g' c.
Proof.
  induction c as [|[k' v'] r IH]; simpl; auto.
  destruct (k =? k') eqn:E; intros H.
  - now rewrite H.
  - now rewrite IH.
Qed.

Lemma modify_id k g c :
  (forall v, get k c = Some v -> g v = v) -> modify k g c = c.
Proof.
  induction c as [|[k' v'] r IH]; simpl; auto.
  destruct (k =? k') eqn:E; intros H.
  - now rewrite H.
  - now rewrite IH.
Qed.

Lemma keys_modify k g c : keys (modify k g c) = keys c.
Proof.
  induction c as [|[k' v'] r IH]; simpl; auto.
  destruct (k =? k'); simpl; auto. now f_equal.
Qed.

Lemma keys_set x k v c : In x (keys (set k v c)) <-> x = k \/ In x (keys c).
Proof.
  induction c as [|[k' v'] r IH]; simpl.
  - intuition.
  - destruct (k =? k') eqn:E; simpl.
    + apply String.eqb_eq in E; subst. intuition.
    + rewrite IH. intuition.
Qed.

Lemma keys_delete x k c : In x (keys (delete k c)) <-> x <> k /\ In x (keys c).
Proof.
  unfold delete, keys. rewrite !in_map_iff. split.
  - intros [[a b] [E H]]. apply filter_In in H as [H1 H2]. simpl in *. subst a.
    apply negb_true_iff, String.eqb_neq in H2. split; [congruence|].
    exists (x, b); auto.
  - intros [N [[a b] [E H]]]. simpl in E; subst a. exists (x, b). split; auto.
    apply filter_In. split; auto. simpl. apply negb_true_iff, String.eqb_neq. congruence.
Qed.

Lemma delete_notin k c : ~ In k (keys c) -> delete k c = c.
Proof.
  induction c as [|[k' v'] r IH]; simpl; auto.
  intros H. destruct (k =? k') eqn:E; simpl.
  - apply String.eqb_eq in E. subst. tauto.
  - f_equal. apply IH. tauto.
Qed.

Lemma get_delete_ne k k' c : k <> k' -> get k (delete k' c) = get k c.
Proof.
  intros N. induction c as [|[k2 v2] r IH]; simpl; auto.
  destruct (k' =? k2) eqn:E; simpl.
  - apply String.eqb_eq in E; subst k2.
    apply String.eqb_neq in N. now rewrite N.
  - now rewrite IH.
Qed.

Lemma get_In k c v : get k c = Some v -> In (k, v) c.
Proof.
  induction c as [|[k' v'] r IH]; simpl; [discriminate|].
  destruct (k =? k') eqn:E.
  - apply String.eqb_eq in E. subst. intros H; inversion H; auto.
  - auto.
Qed.

Lemma get_None_notin k c : get k c = None <-> ~ In k (keys c).
Proof.
  induction c as [|[k' v'] r IH]; simpl; [tauto|].
  destruct (k =? k') eqn:E.
  - apply String.eqb_eq in E. subst. split; [discriminate|tauto].
  - apply String.eqb_neq in E. rewrite IH. intuition congruence.
Qed.

End ObjectFacts.

(** *** tool-mapper.ts: the schema cleaner *)

Module CleanerProofs.
Import ToolMapper CleanerModel ObjectFacts.

Ltac get_through :=
  repeat (rewrite get_modify_eq
          || rewrite get_modify_ne by (intro; discriminate)).

(** Each guarded assignment of the cleaner is a [modify]. *)
Lemma guarded_set_modify (cond : json -> bool) (h : json -> json) k c :
  cond JUndefined = false ->
  (if cond (prop k c) then set k (h (prop k c)) c else c)
  = modify k (fun v => if cond v then h v else v) c.
Proof.
  intros U. unfold prop. destruct (get k c) as [v|] eqn:G.
  - destruct (cond v) eqn:C.
    + rewrite <- (set_modify k (fun v => if cond v then h v else v) c v G).
      cbv beta. now rewrite C.
    + symmetry. apply modify_id. intros v' G'. rewrite G in G'. inversion G'; subst.
      now rewrite C.
  - rewrite U. symmetry. apply modify_id. intros v' G'. congruence.
Qed.

Lemma array_step_modify self k c :
  match prop k c with
  | JArr arrayProp => set k (JArr (map self arrayProp)) c
  | _ => c
  end = modify k (gArr self) c.
Proof.
  unfold prop. destruct (get k c) as [v|] eqn:G.
  - destruct v; try (symmetry; apply modify_id; intros v' G'; rewrite G in G';
                     inversion G'; subst; reflexivity).
    apply (set_modify k (gArr self) c _ G).
  - symmetry. apply modify_id. intros v' G'. congruence.
Qed.


Lemma body_normal_form self s :
  typeof_object s = true -> is_null s = false ->
  cleanJsonSchema_body self s
  = JObj (defaultType (recurse self (strip (entries s)))).
Proof.
  intros T N. unfold cleanJsonSchema_body. rewrite T, N. simpl negb. simpl orb.
  cbv iota. f_equal. fold (strip (entries s)).
  set (c0 := strip (entries s)).
  unfold defaultType, recurse.
  pose proof (guarded_set_modify (fun v => truthy v && typeof_object v)
                (fun v => JObj (cleanProps self (entries v))) "properties" c0 eq_refl) as E1.
  cbv beta in E1. unfold cleanProps in E1 at 1. rewrite E1. clear E1.
  fold (gProps self).
  set (c1 := modify "properties" (gProps self) c0).
  rewrite (guarded_set_modify truthy self "items" c1 eq_refl).
  fold (gItems self).
  set (c2 := modify "items" (gItems self) c1).
  rewrite (guarded_set_modify (fun v => truthy v && typeof_object v) self
             "additionalProperties" c2 eq_refl).
  fold (gAddl self).
  set (c3 := modify "additionalProperties" (gAddl self) c2).
  cbn [fold_left]. rewrite !array_step_modify. reflexivity.
Qed.

Section CleanProps.
Variable self : json -> json.

Let ins (acc : obj) (kv : string * json) : obj :=
  set (fst kv) (self (snd kv)) acc.

Lemma set_NoDup k v c : NoDup (keys c) -> NoDup (keys (set k v c)).
Proof.
  induction c as [|[k' v'] r IH]; simpl; intros H.
  - constructor; [tauto|constructor].
  - inversion H; subst. destruct (k =? k') eqn:E; simpl.
    + constructor; auto.
    + constructor; auto. fold (keys (set k v r)). rewrite keys_set.
      apply String.eqb_neq in E. intros [->|?]; tauto.
Qed.

Lemma set_Forall (P : json -> Prop) k v c :
  Forall (fun kv => P (snd kv)) c -> P v ->
  Forall (fun kv => P (snd kv)) (set k v c).
Proof.
  induction c as [|[k' v'] r IH]; simpl; intros H Pv.
  - constructor; auto.
  - inversion H; subst. destruct (k =? k'); constructor; auto.
Qed.

Lemma set_notin k v c : ~ In k (keys c) -> set k v c = (c ++ [(k, v)])%list.
Proof.
  induction c as [|[k' v'] r IH]; simpl; auto.
  intros H. destruct (k =? k') eqn:E.
  - apply String.eqb_eq in E. subst. tauto.
  - f_equal. apply IH. tauto.
Qed.

Lemma cleanProps_inv (P : json -> Prop) es acc :
  Forall (fun kv => P (self (snd kv))) es ->
  NoDup (keys acc) -> Forall (fun kv => P (snd kv)) acc ->
  NoDup (keys (fold_left ins es acc))
  /\ Forall (fun kv => P (snd kv)) (fold_left ins es acc).
Proof.
  revert acc. induction es as [|[k v] r IH]; simpl; intros acc HP N F; auto.
  inversion HP; subst. apply IH; auto.
  - now apply set_NoDup.
  - apply set_Forall; auto.
Qed.

Lemma cleanProps_fixed_gen l acc :
  NoDup (keys (acc ++ l)%list) ->
  Forall (fun kv => self (snd kv) = snd kv) l ->
  fold_left ins l acc = (acc ++ l)%list.
Proof.
  revert acc. induction l as [|[k v] r IH]; simpl; intros acc N F.
  - now rewrite app_nil_r.
  - inversion F; subst. simpl in *. unfold ins at 2. simpl.
    rewrite H1. rewrite set_notin.
    + rewrite IH; auto.
      * now rewrite <- app_assoc.
      * now rewrite <- app_assoc.
    + unfold keys in N. rewrite map_app in N. simpl in N.
      apply NoDup_remove_2 in N. intros I. apply N. apply in_or_app. now left.
Qed.

Lemma cleanProps_idem :
  (forall v, self (self v) = self v) ->
  forall es, cleanProps self (cleanProps self es) = cleanProps self es.
Proof.
  intros I es. unfold cleanProps. fold ins.
  destruct (cleanProps_inv (fun v => self v = v) es []) as [N F];
    [apply Forall_forall; intros; apply I|constructor|constructor|].
  rewrite (cleanProps_fixed_gen _ []); auto.
Qed.

End CleanProps.

Section BodyIdempotent.
Variable self : json -> json.
Hypothesis self_idem : forall v, self (self v) = self v.

Lemma gProps_idem v : gProps self (gProps self v) = gProps self v.
Proof.
  unfold gProps. destruct (truthy v && typeof_object v) eqn:E.
  - simpl. f_equal. now apply cleanProps_idem.
  - now rewrite E.
Qed.

Lemma gItems_idem v : gItems self (gItems self v) = gItems self v.
Proof.
  unfold gItems. destruct (truthy v) eqn:E.
  - destruct (truthy (self v)); auto.
  - now rewrite E.
Qed.

Lemma gAddl_idem v : gAddl self (gAddl self v) = gAddl self v.
Proof.
  unfold gAddl. destruct (truthy v && typeof_object v) eqn:E.
  - destruct (truthy (self v) && typeof_object (self v)); auto.
  - now rewrite E.
Qed.

Lemma gArr_idem v : gArr self (gArr self v) = gArr self v.
Proof.
  destruct v; simpl; auto. f_equal. rewrite map_map.
  apply map_ext. auto.
Qed.

Lemma recurse_idem c : recurse self (recurse self c) = recurse self c.
Proof.
  set (M := recurse self c).
  assert (G1 : get "properties" M = option_map (gProps self) (get "properties" c))
    by (unfold M, recurse; now get_through).
  assert (G2 : get "items" M = option_map (gItems self) (get "items" c))
    by (unfold M, recurse; now get_through).
  assert (G3 : get "additionalProperties" M
               = option_map (gAddl self) (get "additionalProperties" c))
    by (unfold M, recurse; now get_through).
  assert (G4 : get "allOf" M = option_map (gArr self) (get "allOf" c))
    by (unfold M, recurse; now get_through).
  assert (G5 : get "anyOf" M = option_map (gArr self) (get "anyOf" c))
    by (unfold M, recurse; now get_through).
  assert (G6 : get "oneOf" M = option_map (gArr self) (get "oneOf" c))
    by (unfold M, recurse; now get_through).
  unfold recurse at 1.
  rewrite (modify_id "properties" (gProps self) M).
  2:{ intros v H. rewrite G1 in H. destruct (get "properties" c); inversion H.
      apply gProps_idem. }
  rewrite (modify_id "items" (gItems self) M).
  2:{ intros v H. rewrite G2 in H. destruct (get "items" c); inversion H.
      apply gItems_idem. }
  rewrite (modify_id "additionalProperties" (gAddl self) M).
  2:{ intros v H. rewrite G3 in H. destruct (get "additionalProperties" c); inversion H.
      apply gAddl_idem. }
  rewrite (modify_id "allOf" (gArr self) M).
  2:{ intros v H. rewrite G4 in H. destruct (get "allOf" c); inversion H.
      apply gArr_idem. }
  rewrite (modify_id "anyOf" (gArr self) M).
  2:{ intros v H. rewrite G5 in H. destruct (get "anyOf" c); inversion H.
      apply gArr_idem. }
  apply modify_id.
  intros v H. rewrite G6 in H. destruct (get "oneOf" c); inversion H.
  apply gArr_idem.
Qed.

Lemma modify_set_comm k k' g v c :
  k <> k' -> modify k g (set k' v c) = set k' v (modify k g c).
Proof.
  intros N. induction c as [|[k2 v2] r IH]; simpl.
  - apply String.eqb_neq in N. now rewrite N.
  - destruct (k' =? k2) eqn:E1; destruct (k =? k2) eqn:E2; simpl;
      rewrite ?E1, ?E2; auto.
    + apply String.eqb_eq in E1, E2. congruence.
    + now rewrite IH.
Qed.

Lemma recurse_set_type v c :
  recurse self (set "type" v c) = set "type" v (recurse self c).
Proof.
  unfold recurse. now rewrite !modify_set_comm by (intro; discriminate).
Qed.

Lemma keys_recurse c : keys (recurse self c) = keys c.
Proof. unfold recurse. now rewrite !keys_modify. Qed.

Lemma strip_no_meta c k : In k meta_keys -> ~ In k (keys (strip c)).
Proof.
  unfold strip, meta_keys. simpl. intros H I.
  rewrite !keys_delete in I. intuition congruence.
Qed.

Lemma strip_fixed c :
  (forall k, In k meta_keys -> ~ In k (keys c)) -> strip c = c.
Proof.
  intros H. unfold strip.
  rewrite (delete_notin "$schema") by (apply H; simpl; auto).
  rewrite (delete_notin "$ref") by (apply H; simpl; auto).
  rewrite (delete_notin "$defs") by (apply H; simpl; auto).
  apply delete_notin. apply H; simpl; auto.
Qed.

Lemma keys_defaultType c k :
  In k (keys (defaultType c)) -> k = "type" \/ In k (keys c).
Proof.
  unfold defaultType.
  destruct (truthy (prop "properties" c) && is_undefined (prop "type" c)); auto.
  now rewrite keys_set.
Qed.

Lemma defaultType_set_type c :
  defaultType (set "type" (JStr "object") c) = set "type" (JStr "object") c.
Proof.
  unfold defaultType.
  assert (P : prop "type" (set "type" (JStr "object") c) = JStr "object")
    by (unfold prop; now rewrite get_set_eq).
  rewrite P. simpl. now rewrite andb_false_r.
Qed.

Lemma result_no_meta c k :
  In k meta_keys -> ~ In k (keys (defaultType (recurse self (strip c)))).
Proof.
  intros H I. apply keys_defaultType in I. destruct I as [->|I].
  - simpl in H. intuition discriminate.
  - rewrite keys_recurse in I. revert I. now apply strip_no_meta.
Qed.

Lemma body_idem s :
  cleanJsonSchema_body self (cleanJsonSchema_body self s)
  = cleanJsonSchema_body self s.
Proof.
  destruct (negb (typeof_object s) || is_null s) eqn:E.
  - unfold cleanJsonSchema_body at 2. rewrite E.
    unfold cleanJsonSchema_body. now rewrite E.
  - apply orb_false_iff in E as [T N]. apply negb_false_iff in T.
    rewrite (body_normal_form self s T N).
    rewrite body_normal_form by reflexivity. f_equal.
    set (c := strip (entries s)). simpl entries.
    rewrite strip_fixed by (intros k; apply result_no_meta).
    destruct (truthy (prop "properties" (recurse self c))
              && is_undefined (prop "type" (recurse self c))) eqn:D.
    + assert (E2 : defaultType (recurse self c)
                   = set "type" (JStr "object") (recurse self c))
        by (unfold defaultType; now rewrite D).
      rewrite E2, recurse_set_type, recurse_idem. apply defaultType_set_type.
    + assert (E2 : defaultType (recurse self c) = recurse self c)
        by (unfold defaultType; now rewrite D).
      now rewrite E2, recurse_idem.
Qed.

End BodyIdempotent.

Lemma upto_idem n s :
  cleanJsonSchema_upto n (cleanJsonSchema_upto n s) = cleanJsonSchema_upto n s.
Proof.
  revert s. induction n as [|n IH]; intros s; simpl; auto.
  now apply body_idem.
Qed.

(** *** Depth of the values the cleaner recurses into *)

Lemma depth_field k v o : In (k, v) o -> depth v < depth (JObj o).
Proof.
  simpl. induction o as [|[k' v'] r IH]; simpl; [tauto|].
  intros [E|I].
  - inversion E; subst. lia.
  - specialize (IH I). lia.
Qed.

Lemma depth_item v l : In v l -> depth v < depth (JArr l).
Proof.
  simpl. induction l as [|x r IH]; simpl; [tauto|].
  intros [E|I].
  - subst. lia.
  - specialize (IH I). lia.
Qed.

Lemma indexed_from_In k v i l : In (k, v) (indexed_from i l) -> In v l.
Proof.
  revert i. induction l as [|x r IH]; simpl; intros i; [tauto|].
  intros [E|I]; [inversion E; auto|eauto].
Qed.

Lemma depth_entry k v s : In (k, v) (entries s) -> depth v < depth s.
Proof.
  destruct s; try (simpl; tauto); simpl entries.
  - intros I. apply indexed_from_In in I. now apply depth_item.
  - apply depth_field.
Qed.

Lemma strip_In kv c : In kv (strip c) -> In kv c.
Proof.
  unfold strip, delete. intros I.
  repeat (apply filter_In in I; destruct I as [I _]). exact I.
Qed.

Lemma depth_get_strip k v s :
  get k (strip (entries s)) = Some v -> depth v < depth s.
Proof.
  intros G. apply get_In, strip_In in G. eapply depth_entry; eauto.
Qed.

Lemma cleanProps_ext f g es :
  (forall k v, In (k, v) es -> f v = g v) -> cleanProps f es = cleanProps g es.
Proof.
  unfold cleanProps. generalize (@nil (string * json)).
  induction es as [|[k v] r IH]; simpl; intros acc H; auto.
  rewrite (H k v) by auto. apply IH. eauto.
Qed.

Section BodyExt.
Variables f g : json -> json.
Variable d : nat.
Hypothesis agree : forall v, depth v < d -> f v = g v.

Lemma gProps_ext v : depth v < d -> gProps f v = gProps g v.
Proof.
  intros D. unfold gProps. destruct (truthy v && typeof_object v); auto.
  f_equal. apply cleanProps_ext. intros k x I. apply agree.
  apply depth_entry in I. lia.
Qed.

Lemma gItems_ext v : depth v < d -> gItems f v = gItems g v.
Proof. intros D. unfold gItems. destruct (truthy v); auto. Qed.

Lemma gAddl_ext v : depth v < d -> gAddl f v = gAddl g v.
Proof. intros D. unfold gAddl. destruct (truthy v && typeof_object v); auto. Qed.

Lemma gArr_ext v : depth v < d -> gArr f v = gArr g v.
Proof.
  intros D. destruct v; simpl; auto. f_equal. apply map_ext_in.
  intros x I. apply agree. apply depth_item in I. lia.
Qed.

Lemma recurse_ext c :
  (forall k v, get k c = Some v -> depth v < d) ->
  recurse f c = recurse g c.
Proof.
  intros H. unfold recurse.
  rewrite (modify_ext "properties" (gProps f) (gProps g) c)
    by (intros v G; apply gProps_ext; eauto).
  rewrite (modify_ext "items" (gItems f) (gItems g))
    by (intros v; get_through; intros G; apply gItems_ext; eauto).
  rewrite (modify_ext "additionalProperties" (gAddl f) (gAddl g))
    by (intros v; get_through; intros G; apply gAddl_ext; eauto).
  rewrite (modify_ext "allOf" (gArr f) (gArr g))
    by (intros v; get_through; intros G; apply gArr_ext; eauto).
  rewrite (modify_ext "anyOf" (gArr f) (gArr g))
    by (intros v; get_through; intros G; apply gArr_ext; eauto).
  rewrite (modify_ext "oneOf" (gArr f) (gArr g))
    by (intros v; get_through; intros G; apply gArr_ext; eauto).
  reflexivity.
Qed.

End BodyExt.

Lemma body_ext f g s :
  (forall v, depth v < depth s -> f v = g v) ->
  cleanJsonSchema_body f s = cleanJsonSchema_body g s.
Proof.
  intros A. destruct (negb (typeof_object s) || is_null s) eqn:E.
  - unfold cleanJsonSchema_body. now rewrite E.
  - apply orb_false_iff in E as [T N]. apply negb_false_iff in T.
    rewrite !body_normal_form by assumption. do 2 f_equal.
    apply (recurse_ext f g (depth s) A).
    intros k v. apply depth_get_strip.
Qed.

Lemma body_flat f s : depth s = 0 -> cleanJsonSchema_body f s = s.
Proof. destruct s; simpl; try discriminate; reflexivity. Qed.

Lemma upto_flat n s : depth s = 0 -> cleanJsonSchema_upto n s = s.
Proof. destruct n; simpl; auto. apply body_flat. Qed.

Lemma upto_stable n : forall m s,
  depth s <= n -> depth s <= m ->
  cleanJsonSchema_upto n s = cleanJsonSchema_upto m s.
Proof.
  induction n as [|n IH]; intros m s Hn Hm.
  - rewrite (upto_flat m) by lia. reflexivity.
  - destruct m as [|m].
    + rewrite (upto_flat (S n)) by lia. reflexivity.
    + simpl. apply body_ext. intros v D. apply IH; lia.
Qed.

(** The defining equation of the source function. *)
Lemma cleanJsonSchema_unfold s :
  cleanJsonSchema s = cleanJsonSchema_body cleanJsonSchema s.
Proof.
  unfold cleanJsonSchema at 1. destruct (depth s) as [|n] eqn:D.
  - simpl. now rewrite body_flat.
  - simpl. apply body_ext. intros v L. unfold cleanJsonSchema.
    apply upto_stable; lia.
Qed.

Lemma cleanJsonSchema_idempotent s :
  cleanJsonSchema (cleanJsonSchema s) = cleanJsonSchema s.
Proof.
  set (N := Nat.max (depth s) (depth (cleanJsonSchema s))).
  assert (E1 : cleanJsonSchema s = cleanJsonSchema_upto N s)
    by (apply upto_stable; lia).
  assert (E2 : cleanJsonSchema (cleanJsonSchema s)
               = cleanJsonSchema_upto N (cleanJsonSchema s))
    by (apply upto_stable; lia).
  rewrite E2, E1. apply upto_idem.
Qed.

Lemma get_defaultType_ne k c :
  k <> "type" -> get k (defaultType c) = get k c.
Proof.
  intros N. unfold defaultType.
  destruct (truthy (prop "properties" c) && is_undefined (prop "type" c)); auto.
  now apply get_set_ne.
Qed.

Section CleanedBody.
Variable self : json -> json.
Variable d : nat.
Hypothesis self_cleaned : forall v, depth v < d -> Cleaned (self v).

Lemma body_cleaned s : depth s <= d -> Cleaned (cleanJsonSchema_body self s).
Proof.
  intros D. destruct (negb (typeof_object s) || is_null s) eqn:E.
  - unfold cleanJsonSchema_body. rewrite E.
    destruct s; simpl in E; try discriminate;
      first [apply Cleaned_null | now apply Cleaned_scalar].
  - apply orb_false_iff in E as [T N]. apply negb_false_iff in T.
    rewrite body_normal_form by assumption.
    set (c := strip (entries s)).
    assert (Dc : forall k v, get k c = Some v -> depth v < d).
    { intros k v G. apply depth_get_strip in G. lia. }
    apply Cleaned_obj.
    + intros k. apply result_no_meta.
    + intros p. rewrite get_defaultType_ne by discriminate.
      unfold recurse. get_through.
      destruct (get "properties" c) as [p0|] eqn:G; simpl; [|discriminate].
      intros H; inversion H; subst p; clear H. unfold gProps.
      destruct (truthy p0 && typeof_object p0) eqn:C.
      * intros _ _. simpl entries. unfold cleanProps.
        eapply cleanProps_inv; [|constructor|constructor].
        apply Forall_forall. intros [k v] I. simpl. apply self_cleaned.
        apply depth_entry in I. specialize (Dc _ _ G). lia.
      * intros C1 C2. rewrite C1, C2 in C. discriminate.
    + intros v. rewrite get_defaultType_ne by discriminate.
      unfold recurse. get_through.
      destruct (get "items" c) as [v0|] eqn:G; simpl; [|discriminate].
      intros H; inversion H; subst v; clear H. unfold gItems.
      destruct (truthy v0) eqn:C.
      * intros _. apply self_cleaned. eauto.
      * intros C1. congruence.
    + intros v. rewrite get_defaultType_ne by discriminate.
      unfold recurse. get_through.
      destruct (get "additionalProperties" c) as [v0|] eqn:G; simpl; [|discriminate].
      intros H; inversion H; subst v; clear H. unfold gAddl.
      destruct (truthy v0 && typeof_object v0) eqn:C.
      * intros _ _. apply self_cleaned. eauto.
      * intros C1 C2. rewrite C1, C2 in C. discriminate.
    + intros k l I. rewrite get_defaultType_ne
        by (simpl in I; intuition (subst; discriminate)).
      assert (G : get k (recurse self c) = option_map (gArr self) (get k c)).
      { simpl in I. destruct I as [<-|[<-|[<-|[]]]]; unfold recurse; now get_through. }
      rewrite G. destruct (get k c) as [v0|] eqn:G0; simpl; [|discriminate].
      intros H; inversion H as [H1]; clear H.
      destruct v0; simpl in H1; try discriminate. inversion H1; subst l.
      apply Forall_forall. intros x Hx. apply in_map_iff in Hx as [y [<- Hy]].
      apply self_cleaned. apply depth_item in Hy. specialize (Dc _ _ G0). lia.
Qed.

End CleanedBody.

Lemma upto_cleaned n : forall s, depth s <= n -> Cleaned (cleanJsonSchema_upto n s).
Proof.
  induction n as [|n IH]; intros s D.
  - simpl. destruct s; simpl in D; try lia;
      first [apply Cleaned_null | now apply Cleaned_scalar].
  - simpl. destruct (depth s) as [|m] eqn:E.
    + rewrite body_flat by assumption.
      destruct s; simpl in E; try discriminate;
        first [apply Cleaned_null | now apply Cleaned_scalar].
    + apply (body_cleaned _ (S m)); [|lia].
      intros v L. apply IH. lia.
Qed.

(** C7, as the code has it. Cleaning is idempotent, and a cleaned schema
    is [Cleaned]: the four metadata keys are absent from its top level
    and from the top level of every schema reached through [properties],
    [items], [additionalProperties], [allOf], [anyOf] and [oneOf]. *)
Theorem cleanJsonSchema_idempotent_and_cleaned s :
  cleanJsonSchema (cleanJsonSchema s) = cleanJsonSchema s
  /\ Cleaned (cleanJsonSchema s).
Proof.
  split; [apply cleanJsonSchema_idempotent|].
  apply upto_cleaned. lia.
Qed.

(** C7 fails as stated: a [$ref] below [not] is not reached by the cleaner
    and is still in the output. *)
Lemma cleanJsonSchema_keeps_nested_ref :
  cleanJsonSchema schema_with_not = schema_with_not
  /\ has_key_deep "$ref" (cleanJsonSchema schema_with_not) = true.
Proof. split; reflexivity. Qed.

End CleanerProofs.

(** *** gemini-language-model.ts: configuration assembly *)

Module ConfigProofs.
Import ToolMapper LanguageModel Vocabulary.

Lemma prepare_mime options settings :
  responseMimeType (fst (prepareGenerationConfig options settings))
  = match responseFormat options with
    | Some (FormatJson (Some _)) => "application/json"
    | _ => "text/plain"
    end.
Proof.
  unfold prepareGenerationConfig. simpl.
  destruct (responseFormat options) as [[|[s|]]|]; reflexivity.
Qed.

(** C4. For every call: a [json] response format without a schema gives
    the plain-text content type, never the structured one, and the
    warnings are exactly one [unsupported] warning for feature
    [responseFormat]; a [json] format with a schema gives no warning, the
    structured content type, and the schema itself as the response JSON
    schema; an absent or non-json format gives the plain-text content
    type and no warning. *)
Theorem response_format_policy options settings :
  let config := fst (prepareGenerationConfig options settings) in
  let warnings := snd (prepareGenerationConfig options settings) in
  match responseFormat options with
  | Some (FormatJson None) =>
      responseMimeType config = "text/plain"
      /\ responseMimeType config <> "application/json"
      /\ responseJsonSchema config = None
      /\ warnings = [Unsupported "responseFormat" jsonWithoutSchemaDetails]
  | Some (FormatJson (Some schema)) =>
      warnings = []
      /\ responseMimeType config = "application/json"
      /\ responseJsonSchema config = Some schema
  | Some FormatText | None =>
      responseMimeType config = "text/plain"
      /\ responseJsonSchema config = None
      /\ warnings = []
  end.
Proof.
  unfold prepareGenerationConfig. simpl.
  destruct (responseFormat options) as [[|[s|]]|]; simpl;
    repeat split; try reflexivity; discriminate.
Qed.

(** C5. With model-level defaults [{thinkingLevel: 'high'}] and the
    call-time override [{thinkingLevel: 'hihg'}] the thinking config of
    the request is [{thinkingLevel: HIGH}], whatever the other options and
    settings are.  Only the invalid level is removed from the override:
    an override [{thinkingLevel: 'hihg', thinkingBudget: 512}] is merged
    as [{thinkingBudget: 512}], so its budget still takes precedence over
    the default budget while the default level survives. *)
Theorem invalid_override_level_keeps_default
    p rf t tp tk mo ss tc ab st stp stk smo :
  g_thinkingConfig
    (fst (prepareGenerationConfig
            (mkCallOptions p rf (Some (levelOnly "hihg")) t tp tk mo ss tc ab)
            (Some (mkSettings (Some (levelOnly "high")) st stp stk smo))))
  = Some (levelOnly "HIGH")
  /\ effectiveOptionsThinking
       (Some [("thinkingLevel", JStr "hihg"); ("thinkingBudget", JNum 512)])
     = Some [("thinkingBudget", JNum 512)]
  /\ g_thinkingConfig
       (fst (prepareGenerationConfig
               (mkCallOptions p rf
                  (Some [("thinkingLevel", JStr "hihg");
                         ("thinkingBudget", JNum 512)])
                  t tp tk mo ss tc ab)
               (Some (mkSettings
                        (Some [("thinkingLevel", JStr "high");
                               ("thinkingBudget", JNum 8192)])
                        st stp stk smo))))
     = Some [("thinkingLevel", JStr "HIGH"); ("thinkingBudget", JNum 512)].
Proof. repeat split. Qed.

Lemma thinking_config_of options settings :
  g_thinkingConfig (fst (prepareGenerationConfig options settings))
  = match setting s_thinkingConfig settings,
          effectiveOptionsThinking (thinkingConfig options) with
    | None, None => None
    | d, e => Some (buildThinkingConfig (spread (spread [] d) e))
    end.
Proof.
  unfold prepareGenerationConfig. simpl.
  destruct (setting s_thinkingConfig settings),
           (effectiveOptionsThinking (thinkingConfig options)); reflexivity.
Qed.

(** General form of the stripping. *)
Lemma invalid_level_stripped o level :
  prop "thinkingLevel" o = JStr level ->
  normalizeThinkingLevel level = None ->
  effectiveOptionsThinking (Some o)
  = match delete "thinkingLevel" o with
    | [] => None
    | rest => Some rest
    end.
Proof.
  intros P N. unfold effectiveOptionsThinking. rewrite P, N.
  unfold keys. destruct (delete "thinkingLevel" o); reflexivity.
Qed.

Lemma effective_None_iff o :
  effectiveOptionsThinking o = None
  <-> o = None
      \/ exists x level, o = Some x
           /\ prop "thinkingLevel" x = JStr level
           /\ normalizeThinkingLevel level = None
           /\ delete "thinkingLevel" x = [].
Proof.
  split.
  - destruct o as [x|]; [|now left]. right. unfold effectiveOptionsThinking in H.
    destruct (prop "thinkingLevel" x) eqn:P; try discriminate.
    destruct (normalizeThinkingLevel s) eqn:N; try discriminate.
    exists x, s. repeat split; auto.
    destruct (delete "thinkingLevel" x); auto. discriminate.
  - intros [->|[x [level [-> [P [N D]]]]]]; [reflexivity|].
    rewrite (invalid_level_stripped _ _ P N), D. reflexivity.
Qed.

(** C6, as the code has it. When a thinking config is emitted it is
    [buildThinkingConfig] of the merge of the defaults and the effective
    override.  The request carries no thinking config exactly when the
    model-level defaults are absent and the effective call-time override
    is absent; and the effective override is absent exactly when no
    override was given, or the override is an object whose only property
    is an invalid level string.  A source that is present as an object,
    even an empty one, always yields a thinking config. *)
Theorem thinking_block_omitted_iff options settings :
  g_thinkingConfig (fst (prepareGenerationConfig options settings))
  = match setting s_thinkingConfig settings,
          effectiveOptionsThinking (thinkingConfig options) with
    | None, None => None
    | d, e => Some (buildThinkingConfig (spread (spread [] d) e))
    end
  /\ (g_thinkingConfig (fst (prepareGenerationConfig options settings)) = None
      <-> setting s_thinkingConfig settings = None
          /\ effectiveOptionsThinking (thinkingConfig options) = None)
  /\ (effectiveOptionsThinking (thinkingConfig options) = None
      <-> thinkingConfig options = None
          \/ exists x level, thinkingConfig options = Some x
               /\ prop "thinkingLevel" x = JStr level
               /\ normalizeThinkingLevel level = None
               /\ delete "thinkingLevel" x = []).
Proof.
  split; [apply thinking_config_of|].
  split; [|apply effective_None_iff].
  rewrite thinking_config_of.
  destruct (setting s_thinkingConfig settings),
           (effectiveOptionsThinking (thinkingConfig options));
    split; try discriminate; intuition discriminate.
Qed.

(** C6 fails as stated: with the empty object as model-level defaults and
    no override the merge is empty, and the request carries the empty
    object as its thinking config. *)
Lemma empty_defaults_emit_empty_block :
  spread (spread [] (Some [])) None = []
  /\ g_thinkingConfig
       (fst (prepareGenerationConfig
               (mkCallOptions [] None None None None None None None None None)
               (Some (mkSettings (Some []) None None None None))))
     = Some [].
Proof. split; reflexivity. Qed.

End ConfigProofs.

(** *** message-mapper.ts *)

Module MessageProofs.
Import MessageMapper Vocabulary.
Section WithBase64.
Variable base64 : list Byte.byte -> string.

Lemma forParts_user_throws content : forall acc f,
  In (PFile f) content ->
  supportedMediaType (effectiveMediaType f) = false ->
  exists e, forParts (mapUserPart base64) acc content = Throw e.
Proof.
  induction content as [|p r IH]; intros acc f I U; [destruct I|].
  simpl. destruct (mapUserPart base64 acc p) as [acc'|e] eqn:S; simpl.
  - destruct I as [->|I]; [|eauto].
    unfold mapUserPart in S. fold (effectiveMediaType f) in S.
    rewrite U in S. discriminate.
  - eauto.
Qed.

(** User messages: an unsupported file part makes the mapping throw. *)
Lemma user_message_rejects_unsupported_file content f :
  In (PFile f) content ->
  supportedMediaType (effectiveMediaType f) = false ->
  exists e, mapUserMessage base64 content = Throw e.
Proof.
  intros I U. unfold mapUserMessage.
  destruct (forParts_user_throws content [] f I U) as [e ->]. simpl. eauto.
Qed.

(** The error of a message whose first part is the rejected file names
    the media type. *)
Lemma user_message_error_names_media_type f rest :
  supportedMediaType (effectiveMediaType f) = false ->
  mapUserMessage base64 (PFile f :: rest)
  = Throw (newError ("Unsupported file type: " ++ effectiveMediaType f)).
Proof.
  intros U. unfold mapUserMessage. simpl. fold (effectiveMediaType f).
  now rewrite U.
Qed.

(** C8 at an assistant message. The file part of media type [text/plain]
    is outside the supported families; in a user message the mapping
    throws and names the type, in an assistant message the mapping
    succeeds and the part is missing from the mapped parts. *)
Theorem assistant_file_part_silently_dropped :
  supportedMediaType (effectiveMediaType plainTextFile) = false
  /\ mapUserMessage base64 [PFile plainTextFile]
     = Throw (newError "Unsupported file type: text/plain")
  /\ mapAssistantMessage [PFile plainTextFile]
     = Ok (mkContent (Some "model") (Some []))
  /\ mapPromptToGeminiFormat base64 [Assistant [PFile plainTextFile]]
     = Ok (mkPromptResult [mkContent (Some "model") (Some [])] None).
Proof. repeat split. Qed.

End WithBase64.
End MessageProofs.

(** *** gemini-language-model.ts: the two operations *)

Module StreamProofs.
Import ToolMapper LanguageModel Vocabulary FinishVocabulary.
Section WithServices.
(** The platform services are arbitrary. *)
Variable randomUUID : nat -> string.
Variable JSON_stringify : json -> string.
Variable clock : nat -> Z.
Variable mapGeminiError : JsError -> JsError.
Variable base64 : list Byte.byte -> string.

#[local] Abbreviation processPart := (processPart randomUUID JSON_stringify).
#[local] Abbreviation processChunk := (processChunk randomUUID JSON_stringify clock).
#[local] Abbreviation finishChunk := (finishChunk randomUUID clock).
#[local] Abbreviation streamLoop := (streamLoop randomUUID JSON_stringify clock mapGeminiError).
#[local] Abbreviation start := (start randomUUID JSON_stringify clock mapGeminiError).
#[local] Abbreviation doStream := (doStream randomUUID JSON_stringify clock mapGeminiError base64).
#[local] Abbreviation doGenerate := (doGenerate randomUUID JSON_stringify clock mapGeminiError base64).
#[local] Abbreviation contentStep := (contentStep randomUUID JSON_stringify).

(** *** The part loop *)

Lemma processPart_flags st p :
  hasToolCalls (processPart st p) = hasToolCalls st || isFunctionCallPart p
  /\ totalInputTokens (processPart st p) = totalInputTokens st
  /\ totalOutputTokens (processPart st p) = totalOutputTokens st
  /\ (forall fr u, In (Finish fr u) (queue (processPart st p)) ->
                   In (Finish fr u) (queue st)).
Proof.
  unfold processPart, isFunctionCallPart.
  destruct (truthyStr (text p)) eqn:T; simpl.
  - rewrite orb_false_r.
    destruct (negb (truthyStr (textPartId st))); simpl; repeat split; auto;
      intros fr u I; repeat (apply in_app_or in I; destruct I as [I|I]);
      auto; simpl in I; intuition discriminate.
  - destruct (functionCall p); simpl.
    + rewrite orb_true_r. repeat split; auto.
      intros fr u I. apply in_app_or in I. destruct I as [I|I]; auto.
      simpl in I; intuition discriminate.
    + rewrite orb_false_r. auto.
Qed.

Lemma parts_flags ps : forall st,
  hasToolCalls (fold_left processPart ps st)
  = hasToolCalls st || existsb isFunctionCallPart ps
  /\ totalInputTokens (fold_left processPart ps st) = totalInputTokens st
  /\ totalOutputTokens (fold_left processPart ps st) = totalOutputTokens st
  /\ (forall fr u, In (Finish fr u) (queue (fold_left processPart ps st)) ->
                   In (Finish fr u) (queue st)).
Proof.
  induction ps as [|p r IH]; intros st; simpl.
  - rewrite orb_false_r. auto.
  - destruct (IH (processPart st p)) as (H1 & H2 & H3 & H4).
    destruct (processPart_flags st p) as (P1 & P2 & P3 & P4).
    rewrite H1, H2, H3, P1, P2, P3, orb_assoc. repeat split; auto.
Qed.

Lemma lastUsageOf_snoc pre c :
  lastUsageOf (pre ++ [c])
  = match usageMetadata c with
    | Some m => Some m
    | None => lastUsageOf pre
    end.
Proof. unfold lastUsageOf. now rewrite fold_left_app. Qed.

Lemma finishFrom_app cs rest fr u :
  finishFrom cs fr u -> finishFrom (cs ++ rest) fr u.
Proof.
  intros (pre & c & post & -> & H). exists pre, c, (post ++ rest)%list.
  split; auto. now rewrite <- app_assoc.
Qed.

Lemma processChunk_tracks model i pre st c :
  Tracks pre st -> Tracks (pre ++ [c]) (processChunk model i st c).
Proof.
  intros [Hc Hi Ho Hf]. unfold processChunk.
  set (st1 := match usageMetadata c with
              | Some m => _
              | None => st
              end).
  assert (S1 : hasToolCalls st1 = hasToolCalls st
               /\ queue st1 = queue st
               /\ totalInputTokens st1
                  = orZero (promptCount (lastUsageOf (pre ++ [c])))
               /\ totalOutputTokens st1
                  = orZero (candidatesCount (lastUsageOf (pre ++ [c])))).
  { unfold st1. rewrite lastUsageOf_snoc.
    destruct (usageMetadata c); simpl; auto. }
  destruct S1 as (A1 & A2 & A3 & A4).
  destruct (parts_flags (partsOf (firstCandidate c)) st1) as (B1 & B2 & B3 & B4).
  set (st2 := fold_left processPart (partsOf (firstCandidate c)) st1) in *.
  assert (C2 : hasToolCalls st2 = existsb chunkHasToolCall (pre ++ [c])).
  { rewrite B1, A1, Hc, existsb_app. simpl. now rewrite orb_false_r. }
  assert (F2 : forall fr u, In (Finish fr u) (queue st2) ->
                            finishFrom (pre ++ [c]) fr u).
  { intros fr u I. apply finishFrom_app. apply Hf. rewrite <- A2. auto. }
  fold (finishing c). destruct (finishing c) eqn:Fin.
  - unfold finishChunk.
    set (st3 := if truthyStr (textPartId st2) then _ else st2).
    assert (S3 : hasToolCalls st3 = hasToolCalls st2
                 /\ totalInputTokens st3 = totalInputTokens st2
                 /\ totalOutputTokens st3 = totalOutputTokens st2
                 /\ (forall fr u, In (Finish fr u) (queue st3) ->
                                  In (Finish fr u) (queue st2))).
    { unfold st3. destruct (truthyStr (textPartId st2)); simpl; repeat split; auto.
      intros fr u I. apply in_app_or in I. destruct I as [I|I]; auto.
      simpl in I. intuition discriminate. }
    destruct S3 as (D1 & D2 & D3 & D4).
    constructor; simpl.
    + now rewrite D1.
    + now rewrite D2, B2.
    + now rewrite D3, B3.
    + intros fr u I.
      apply in_app_or in I. destruct I as [I|I].
      * apply in_app_or in I. destruct I as [I|I]; [now apply F2, D4|].
        simpl in I. intuition discriminate.
      * simpl in I. destruct I as [I|[]]. inversion I; subst.
        exists pre, c, []. repeat split; auto.
        -- now rewrite D1, C2.
        -- now rewrite D2, D3, B2, B3, A3, A4.
  - constructor; auto.
    + now rewrite B2.
    + now rewrite B3.
Qed.

Lemma streamLoop_finishes model options failure rest : forall i pre st,
  Tracks pre st ->
  forall fr u,
    In (Finish fr u) (enqueued (streamLoop model options i rest failure st)) ->
    finishFrom (pre ++ rest) fr u.
Proof.
  induction rest as [|c r IH]; intros i pre st T fr u; simpl.
  - rewrite app_nil_r. destruct failure; simpl; apply (tr_fin _ _ T).
  - destruct (aborted options (S (S (S i)))); simpl.
    + intros I. apply finishFrom_app. apply (tr_fin _ _ T). exact I.
    + intros I.
      assert (E : (pre ++ c :: r)%list = ((pre ++ [c]) ++ r)%list)
        by (rewrite <- app_assoc; reflexivity).
      rewrite E. eapply IH; [|exact I]. now apply processChunk_tracks.
Qed.

Lemma start_finishes model options w cs fr u :
  In (Finish fr u) (enqueued (start model options w cs)) ->
  finishFrom (chunks cs) fr u.
Proof.
  unfold start. destruct (aborted options 2); simpl; [tauto|].
  apply (streamLoop_finishes model options (failure cs) (chunks cs) 0 []).
  constructor; simpl; auto.
  intros fr' u' [I|[]]. discriminate.
Qed.

(** Inversion of a successful [doStream]. *)
Lemma doStream_Ok model options backend s :
  doStream model options backend = Ok s ->
  exists cs,
    generateContentStream backend = Ok cs
    /\ s = start model options
                 (snd (prepareGenerationConfig options (settings model))) cs.
Proof.
  unfold doStream, rethrow, bind, checkAbort.
  destruct (ensureInitialized backend); [|discriminate].
  destruct (MessageMapper.mapPromptToGeminiFormat base64 (prompt options));
    [|discriminate].
  destruct (prepareGenerationConfig options (settings model)) as [cfg w].
  destruct (aborted options 0); [discriminate|].
  destruct (generateContentStream backend) as [cs|]; [|discriminate].
  destruct (aborted options 1); [discriminate|].
  intros H; inversion H. eauto.
Qed.

Lemma doStream_finish_events model options backend s cs fr u :
  doStream model options backend = Ok s ->
  generateContentStream backend = Ok cs ->
  In (Finish fr u) (enqueued s) ->
  finishFrom (chunks cs) fr u.
Proof.
  intros H G I. apply doStream_Ok in H as (cs' & G' & ->).
  rewrite G in G'. inversion G'; subst cs'. eapply start_finishes; eauto.
Qed.

(** *** The content loop of [doGenerate] *)

Lemma content_flags ps : forall st,
  cs_hasToolCalls (fold_left contentStep ps st)
  = cs_hasToolCalls st || existsb isFunctionCallPart ps.
Proof.
  induction ps as [|p r IH]; intros st; simpl.
  - now rewrite orb_false_r.
  - rewrite IH, orb_assoc. f_equal.
    unfold contentStep, isFunctionCallPart.
    destruct (truthyStr (text p)); simpl.
    + now rewrite orb_false_r.
    + destruct (functionCall p); simpl; auto.
      * now rewrite orb_true_r.
      * now rewrite orb_false_r.
Qed.

(** Inversion of a successful [doGenerate]. *)
Lemma doGenerate_Ok model options backend r :
  doGenerate model options backend = Ok r ->
  exists response,
    generateContent backend = Ok response
    /\ gr_finishReason r
       = finishReasonFor (chunkHasToolCall response)
                         (finishReasonOf (firstCandidate response))
    /\ gr_usage r
       = usageOf (orZero (promptCount (usageMetadata response)))
                 (orZero (candidatesCount (usageMetadata response)))
    /\ gr_warnings r = snd (prepareGenerationConfig options (settings model)).
Proof.
  unfold doGenerate, rethrow, bind, checkAbort.
  destruct (ensureInitialized backend); [|discriminate].
  destruct (MessageMapper.mapPromptToGeminiFormat base64 (prompt options));
    [|discriminate].
  destruct (prepareGenerationConfig options (settings model)) as [cfg w].
  destruct (aborted options 0); [discriminate|].
  destruct (generateContent backend) as [response|]; [|discriminate].
  destruct (aborted options 1); [discriminate|].
  intros H; inversion H; subst; clear H. simpl.
  exists response. repeat split.
  now rewrite content_flags.
Qed.

(** *** The finish-reason table *)

Lemma finishReasonFor_forced reason :
  unified (finishReasonFor true reason) = tool_calls
  /\ raw (finishReasonFor true reason) = reason.
Proof. split; reflexivity. Qed.

Lemma mapGeminiFinishReason_raw reason :
  raw (mapGeminiFinishReason reason) = reason.
Proof.
  destruct reason as [r|]; simpl; auto.
  repeat match goal with |- context [if ?b then _ else _] => destruct b end;
    reflexivity.
Qed.

Lemma mapGeminiFinishReason_table :
  unified (mapGeminiFinishReason (Some "STOP")) = stop
  /\ unified (mapGeminiFinishReason (Some "MAX_TOKENS")) = length
  /\ unified (mapGeminiFinishReason (Some "SAFETY")) = content_filter
  /\ unified (mapGeminiFinishReason (Some "RECITATION")) = content_filter
  /\ unified (mapGeminiFinishReason None) = other
  /\ (forall r, r <> "STOP" -> r <> "MAX_TOKENS" -> r <> "SAFETY" ->
                r <> "RECITATION" ->
                unified (mapGeminiFinishReason (Some r)) = other).
Proof.
  repeat split. intros r H1 H2 H3 H4.
  apply String.eqb_neq in H1, H2, H3, H4.
  simpl. rewrite H1, H2, H3, H4. simpl. destruct (r =? "OTHER"); reflexivity.
Qed.

(** *** A general invariant rule for the chunk loop *)

Lemma streamLoop_invariant
    (P : list GenerateContentResponse -> StreamState -> Prop)
    model options failure :
  (forall i pre st c, P pre st -> P (pre ++ [c]) (processChunk model i st c)) ->
  forall rest i pre st,
    P pre st ->
    exists pre' post' st',
      (pre ++ rest = pre' ++ post')%list
      /\ P pre' st'
      /\ enqueued (streamLoop model options i rest failure st) = queue st'.
Proof.
  intros Step. induction rest as [|c r IH]; intros i pre st H; simpl.
  - exists pre, [], st. repeat split; auto. destruct failure; reflexivity.
  - destruct (aborted options (S (S (S i)))).
    + exists pre, (c :: r), st. repeat split; auto.
    + destruct (IH (S i) (pre ++ [c])%list (processChunk model i st c))
        as (pre' & post' & st' & E & HP & Q); [now apply Step|].
      exists pre', post', st'. repeat split; auto.
      rewrite <- E, <- app_assoc. reflexivity.
Qed.

(** *** The text block *)

Section TextBlock.
Hypothesis uuid_nonempty : forall n, randomUUID n <> "".

Lemma filter_none_text q :
  (forall e, In e q -> textEventId e = None) -> filter isTextStart q = [].
Proof.
  induction q as [|e r IH]; simpl; intros H; auto.
  destruct e; simpl; try (apply IH; auto).
  specialize (H (TextStart id) (or_introl eq_refl)). discriminate.
Qed.

Lemma TextInv_enqueue_other st e :
  textEventId e = None -> TextInv st -> TextInv (enqueue e st).
Proof.
  intros N. unfold TextInv. simpl. destruct (textPartId st) as [id|].
  - intros (H1 & H2 & H3). repeat split; auto.
    + rewrite filter_app, length_app, H2. destruct e; simpl in *; try discriminate; auto.
    + intros x id' I. apply in_app_or in I. destruct I as [I|[<-|[]]]; eauto.
      congruence.
  - intros H x I. apply in_app_or in I. destruct I as [I|[<-|[]]]; auto.
Qed.

Lemma TextInv_enqueue_same st e id :
  textPartId st = Some id -> textEventId e = Some id -> isTextStart e = false ->
  TextInv st -> TextInv (enqueue e st).
Proof.
  intros T E S. unfold TextInv. simpl. rewrite T.
  intros (H1 & H2 & H3). repeat split; auto.
  - rewrite filter_app, length_app, H2. simpl. rewrite S. reflexivity.
  - intros x id' I. apply in_app_or in I. destruct I as [I|[<-|[]]]; eauto.
    congruence.
Qed.

Lemma truthy_nonempty id : id <> "" -> truthyStr (Some id) = true.
Proof. intros N. simpl. apply String.eqb_neq in N. now rewrite N. Qed.

Lemma processPart_text st p :
  TextInv st ->
  TextInv (processPart st p)
  /\ filter isTextEnd (queue (processPart st p)) = filter isTextEnd (queue st).
Proof.
  intros H. unfold processPart.
  destruct (truthyStr (text p)) eqn:T.
  - destruct (textPartId st) as [id|] eqn:Id.
    + assert (N : id <> "") by (unfold TextInv in H; rewrite Id in H; tauto).
      rewrite (truthy_nonempty id N). simpl negb. cbv iota. rewrite Id. simpl orEmpty.
      split.
      * apply (TextInv_enqueue_same st _ id); auto.
      * simpl. rewrite filter_app. simpl. now rewrite app_nil_r.
    + simpl truthyStr. simpl negb. cbv iota. split.
      * unfold TextInv in *. rewrite Id in H. simpl.
        repeat split; auto.
        -- rewrite !filter_app, !length_app, (filter_none_text _ H). reflexivity.
        -- intros x id' I.
           apply in_app_or in I. destruct I as [I|[<-|[]]].
           ++ apply in_app_or in I. destruct I as [I|[<-|[]]].
              ** intros E. rewrite (H x I) in E. discriminate.
              ** simpl. congruence.
           ++ simpl. congruence.
      * simpl. rewrite !filter_app. simpl. now rewrite !app_nil_r.
  - destruct (functionCall p) as [fc|]; [|auto]. split.
    + assert (H' : TextInv (mkStreamState (totalInputTokens st)
                              (totalOutputTokens st) (textPartId st) true
                              (S (uuids st)) (queue st))) by exact H.
      apply TextInv_enqueue_other; [reflexivity|exact H'].
    + simpl. rewrite filter_app. simpl. now rewrite app_nil_r.
Qed.

Lemma parts_text ps : forall st,
  TextInv st ->
  TextInv (fold_left processPart ps st)
  /\ filter isTextEnd (queue (fold_left processPart ps st))
     = filter isTextEnd (queue st).
Proof.
  induction ps as [|p r IH]; intros st H; simpl; [auto|].
  destruct (processPart_text st p H) as [H1 H2].
  destruct (IH _ H1) as [H3 H4]. split; auto. congruence.
Qed.

Lemma finishChunk_text model i reason st :
  TextInv st ->
  TextInv (finishChunk model i reason st)
  /\ List.length (filter isTextEnd (queue (finishChunk model i reason st)))
     <= S (List.length (filter isTextEnd (queue st))).
Proof.
  intros H. unfold finishChunk.
  set (st1 := if truthyStr (textPartId st) then _ else st).
  assert (H1 : TextInv st1
               /\ List.length (filter isTextEnd (queue st1))
                  <= S (List.length (filter isTextEnd (queue st)))).
  { unfold st1. destruct (textPartId st) as [id|] eqn:Id.
    - assert (N : id <> "") by (unfold TextInv in H; rewrite Id in H; tauto).
      rewrite (truthy_nonempty id N). split.
      + apply (TextInv_enqueue_same st _ id); auto.
      + simpl. rewrite filter_app, length_app. simpl. lia.
    - simpl. split; auto. }
  destruct H1 as [T1 L1]. split.
  - apply TextInv_enqueue_other; [reflexivity|].
    apply TextInv_enqueue_other; [reflexivity|]. exact T1.
  - simpl. rewrite !filter_app, !length_app. simpl. lia.
Qed.

Lemma processChunk_text model i pre st c :
  TextOK pre st -> TextOK (pre ++ [c]) (processChunk model i st c).
Proof.
  intros [T L]. unfold processChunk.
  set (st1 := match usageMetadata c with Some m => _ | None => st end).
  assert (T1 : TextInv st1 /\ queue st1 = queue st).
  { unfold st1. destruct (usageMetadata c); auto. }
  destruct T1 as [T1 Q1].
  destruct (parts_text (partsOf (firstCandidate c)) st1 T1) as [T2 E2].
  rewrite Q1 in E2.
  fold (finishing c). unfold TextOK. rewrite filter_app, length_app.
  assert (LF : List.length (filter finishing [c])
               = if finishing c then 1 else 0)
    by (simpl; destruct (finishing c); reflexivity).
  rewrite LF. destruct (finishing c) eqn:F.
  - destruct (finishChunk_text model i (finishReasonOf (firstCandidate c)) _ T2)
      as [T3 L3].
    split; auto. rewrite E2 in L3. lia.
  - split; auto. rewrite E2. lia.
Qed.

Lemma start_text model options w cs :
  let q := enqueued (start model options w cs) in
  List.length (filter isTextStart q) <= 1
  /\ (forall e1 e2 id1 id2, In e1 q -> In e2 q ->
        textEventId e1 = Some id1 -> textEventId e2 = Some id2 -> id1 = id2)
  /\ List.length (filter isTextEnd q)
     <= List.length (filter finishing (chunks cs)).
Proof.
  unfold start. destruct (aborted options 2).
  - simpl. repeat split; try lia; intros ? ? ? ? [].
  - destruct (streamLoop_invariant TextOK model options (failure cs)
                (processChunk_text model) (chunks cs) 0 []
                (enqueue (StreamStart w) (mkStreamState 0 0 None false 1 [])))
      as (pre' & post' & st' & E & [T L] & Q).
    { split; simpl; [|lia]. unfold TextInv. simpl.
      intros e [<-|[]]. reflexivity. }
    cbv zeta. rewrite Q. simpl in E. rewrite E.
    rewrite filter_app, length_app.
    unfold TextInv in T. destruct (textPartId st') as [id|].
    + destruct T as (N & S1 & Same). repeat split; try lia.
      intros e1 e2 id1 id2 I1 I2 E1 E2.
      rewrite (Same _ _ I1 E1), (Same _ _ I2 E2). reflexivity.
    + rewrite (filter_none_text _ T). simpl. repeat split; try lia.
      intros e1 e2 id1 id2 I1 I2 E1 E2. rewrite (T _ I1) in E1. discriminate.
Qed.

End TextBlock.

(** *** Specified properties of the two operations *)

(** A request that reaches the backend and gets a chunk stream runs
    [start] on it. *)
Lemma doStream_started model options backend pr cs :
  initializeFailure backend = None ->
  MessageMapper.mapPromptToGeminiFormat base64 (prompt options) = Ok pr ->
  generateContentStream backend = Ok cs ->
  aborted options 0 = false ->
  aborted options 1 = false ->
  doStream model options backend
  = Ok (start model options
              (snd (prepareGenerationConfig options (settings model))) cs).
Proof.
  intros Init Pr Gen A0 A1.
  unfold doStream, ensureInitialized, checkAbort, rethrow, bind.
  rewrite Init, Pr.
  destruct (prepareGenerationConfig options (settings model)) as [cfg w].
  now rewrite A0, Gen, A1.
Qed.

(** The steps of the loop on a text part and on a finishing chunk. *)

Lemma processPart_text_new st t :
  t <> "" -> truthyStr (textPartId st) = false ->
  processPart st (textPart t)
  = enqueue (TextDelta (randomUUID (uuids st)) t)
      (enqueue (TextStart (randomUUID (uuids st)))
         (mkStreamState (totalInputTokens st) (totalOutputTokens st)
            (Some (randomUUID (uuids st))) (hasToolCalls st) (S (uuids st))
            (queue st))).
Proof.
  intros T N. unfold LanguageModel.processPart.
  change (text (textPart t)) with (Some t).
  rewrite (truthy_nonempty t T), N. reflexivity.
Qed.

Lemma processPart_text_open st t id :
  t <> "" -> textPartId st = Some id -> id <> "" ->
  processPart st (textPart t) = enqueue (TextDelta id t) st.
Proof.
  intros T I N. unfold LanguageModel.processPart.
  change (text (textPart t)) with (Some t).
  rewrite (truthy_nonempty t T), I, (truthy_nonempty id N).
  cbn [negb]. now rewrite I.
Qed.

Lemma finishChunk_open model i reason st id :
  textPartId st = Some id -> id <> "" ->
  finishChunk model i reason st
  = enqueue
      (Finish (finishReasonFor (hasToolCalls st) reason)
              (usageOf (totalInputTokens st) (totalOutputTokens st)))
      (enqueue
         (ResponseMetadata (randomUUID (uuids st)) (clock i) (modelId model))
         (mkStreamState (totalInputTokens st) (totalOutputTokens st)
            (Some id) (hasToolCalls st) (S (uuids st))
            (queue st ++ [TextEnd id]))).
Proof.
  intros I N. unfold LanguageModel.finishChunk.
  rewrite I, (truthy_nonempty id N). unfold enqueue. simpl. now rewrite I.
Qed.

Lemma processChunk_textChunk model i st r t reason u :
  processChunk model i st (textChunk r t reason u)
  = let st1 :=
      match u with
      | Some m =>
          mkStreamState (orZero (promptTokenCount m))
            (orZero (candidatesTokenCount m))
            (textPartId st) (hasToolCalls st) (uuids st) (queue st)
      | None => st
      end in
    let st2 := processPart st1 (textPart t) in
    if truthyStr reason then finishChunk model i reason st2 else st2.
Proof. reflexivity. Qed.

(** *** The code's finish reason and usage, spelled out *)

Lemma mapGeminiFinishReason_unifiedOf reason :
  mapGeminiFinishReason reason = mkFinishReason (unifiedOf reason) reason.
Proof.
  destruct reason as [r|]; [|reflexivity].
  unfold mapGeminiFinishReason, unifiedOf, finishTable.
  cbn [find fst snd].
  destruct (r =? "STOP"); [reflexivity|].
  destruct (r =? "MAX_TOKENS"); [reflexivity|].
  destruct (r =? "SAFETY"); [reflexivity|].
  destruct (r =? "RECITATION"); [reflexivity|].
  simpl. destruct (r =? "OTHER"); reflexivity.
Qed.

Lemma usageOf_expected m :
  usageOf (orZero (promptCount m)) (orZero (candidatesCount m))
  = expectedUsage m.
Proof. destruct m as [u|]; reflexivity. Qed.

(** C1. A request that reaches the backend and is not cancelled, whose
    chunk sequence is a chunk with the text [Hello] and then a chunk with
    the text [, world!] and a finish reason, yields exactly the parts
    stream-start, text-start, text-delta [Hello], text-delta [, world!],
    text-end, response-metadata, finish, and then closes.  The text parts
    share one id.  The finish reason is the table's value for the signal
    of the second chunk.  The usage of the finish part has the counts of
    the usage metadata of the second chunk if it carried some, else of the
    first chunk if it carried some, and the number 0 for a count that
    metadata omits and for both counts when neither chunk carried any. *)
Theorem two_chunk_text_stream model options backend pr r1 r2 u1 u2 fr :
  initializeFailure backend = None ->
  MessageMapper.mapPromptToGeminiFormat base64 (prompt options) = Ok pr ->
  generateContentStream backend
  = Ok (mkChunkStream [textChunk r1 "Hello" None u1;
                       textChunk r2 ", world!" (Some fr) u2] None) ->
  (forall cp, cp <= 4 -> aborted options cp = false) ->
  fr <> "" ->
  randomUUID 1 <> "" ->
  doStream model options backend
  = Ok (mkStream
          [StreamStart (snd (prepareGenerationConfig options (settings model)));
           TextStart (randomUUID 1);
           TextDelta (randomUUID 1) "Hello";
           TextDelta (randomUUID 1) ", world!";
           TextEnd (randomUUID 1);
           ResponseMetadata (randomUUID 2) (clock 1) (modelId model);
           Finish (mkFinishReason (unifiedOf (Some fr)) (Some fr))
                  (expectedUsage
                     match u2 with Some _ => u2 | None => u1 end)]
          Closed).
Proof.
  intros Init Pr Gen Ab Fr Id.
  rewrite <- mapGeminiFinishReason_unifiedOf, <- usageOf_expected.
  rewrite (doStream_started _ _ _ _ _ Init Pr Gen) by (apply Ab; lia).
  f_equal. generalize (snd (prepareGenerationConfig options (settings model))).
  intros w. unfold start. rewrite (Ab 2) by lia. simpl chunks. simpl failure.
  unfold LanguageModel.streamLoop.
  rewrite (Ab (3 + 0)), (Ab (3 + 1)) by lia.
  rewrite !processChunk_textChunk. cbv zeta.
  change (truthyStr None) with false. cbv iota.
  rewrite (truthy_nonempty fr Fr).
  unfold textChunk.
  destruct u1 as [m1|], u2 as [m2|];
    rewrite (processPart_text_new _ "Hello") by (discriminate || reflexivity);
    cbn [totalInputTokens totalOutputTokens textPartId hasToolCalls uuids
         queue enqueue];
    rewrite (processPart_text_open _ _ (randomUUID 1))
      by (discriminate || reflexivity || assumption);
    rewrite (finishChunk_open _ _ _ _ (randomUUID 1))
      by (reflexivity || assumption);
    reflexivity.
Qed.

(** C9, as the code has it. For a request that initializes, maps its
    prompt and gets a chunk stream: when the token is signaled at the
    check before or after the backend call, [doStream] is rejected with
    the mapped [AbortError] and there is no stream; when it is first seen
    at the start of the stream, the stream fails with [AbortError] and
    holds no part; when it is first seen at the check of the first chunk,
    the stream holds the stream-start part and then fails with
    [AbortError]. *)
Theorem cancellation_before_first_chunk model options backend pr cs :
  initializeFailure backend = None ->
  MessageMapper.mapPromptToGeminiFormat base64 (prompt options) = Ok pr ->
  generateContentStream backend = Ok cs ->
  (aborted options 0 = true ->
     doStream model options backend = Throw (mapGeminiError abortError))
  /\ (aborted options 0 = false -> aborted options 1 = true ->
        doStream model options backend = Throw (mapGeminiError abortError))
  /\ (aborted options 0 = false -> aborted options 1 = false ->
      aborted options 2 = true ->
        doStream model options backend
        = Ok (mkStream [] (Errored abortError)))
  /\ (aborted options 0 = false -> aborted options 1 = false ->
      aborted options 2 = false -> aborted options 3 = true ->
      chunks cs <> [] ->
        doStream model options backend
        = Ok (mkStream
                [StreamStart
                   (snd (prepareGenerationConfig options (settings model)))]
                (Errored abortError))).
Proof.
  intros Init Pr Gen. repeat split.
  - intros A0. unfold doStream, ensureInitialized, checkAbort, rethrow, bind.
    rewrite Init, Pr.
    destruct (prepareGenerationConfig options (settings model)) as [cfg w].
    now rewrite A0.
  - intros A0 A1. unfold doStream, ensureInitialized, checkAbort, rethrow, bind.
    rewrite Init, Pr.
    destruct (prepareGenerationConfig options (settings model)) as [cfg w].
    now rewrite A0, Gen, A1.
  - intros A0 A1 A2. rewrite (doStream_started _ _ _ _ _ Init Pr Gen A0 A1).
    unfold start. now rewrite A2.
  - intros A0 A1 A2 A3 N. rewrite (doStream_started _ _ _ _ _ Init Pr Gen A0 A1).
    unfold start. rewrite A2. destruct (chunks cs) as [|c r]; [congruence|].
    simpl. change (S (S (S 0))) with 3. now rewrite A3.
Qed.

(** C10, as the code has it. Given that [randomUUID] never returns the
    empty string, a stream holds at most one text-start part, all its
    text-start, text-delta and text-end parts carry the same id, and it
    holds at most as many text-end parts as its chunks carry finish
    reasons. *)
Theorem single_text_block model options backend s cs :
  (forall n, randomUUID n <> "") ->
  doStream model options backend = Ok s ->
  generateContentStream backend = Ok cs ->
  List.length (filter isTextStart (enqueued s)) <= 1
  /\ (forall e1 e2 id1 id2,
        In e1 (enqueued s) -> In e2 (enqueued s) ->
        textEventId e1 = Some id1 -> textEventId e2 = Some id2 -> id1 = id2)
  /\ List.length (filter isTextEnd (enqueued s))
     <= List.length (filter finishing (chunks cs)).
Proof.
  intros U H G. apply doStream_Ok in H as (cs' & G' & ->).
  rewrite G in G'. inversion G'; subst cs'. now apply start_text.
Qed.

End WithServices.
End StreamProofs.

(** *** The properties at concrete requests *)

Module Witnesses.
Import ToolMapper LanguageModel Vocabulary StreamProofs.

Abbreviation doStream :=
  (LanguageModel.doStream Sample.randomUUID Sample.JSON_stringify Sample.clock
     Sample.mapGeminiError Sample.base64).
Abbreviation doGenerate :=
  (LanguageModel.doGenerate Sample.randomUUID Sample.JSON_stringify
     Sample.clock Sample.mapGeminiError Sample.base64).

(** C1 at a concrete request. *)
Lemma two_chunk_text_stream_witness :
  doStream Sample.model (Sample.options None)
    (Sample.streaming [textChunk (Some "model") "Hello" None usage12;
                       textChunk (Some "model") ", world!" (Some "STOP")
                                 usage12_5])
  = Ok (mkStream
          [StreamStart [];
           TextStart "id-1";
           TextDelta "id-1" "Hello";
           TextDelta "id-1" ", world!";
           TextEnd "id-1";
           ResponseMetadata "id-2" 1%Z "gemini-2.5-pro";
           Finish (mkFinishReason stop (Some "STOP"))
                  (mkUsage (mkInputTokens (Some 12%Z) None None None)
                           (mkOutputTokens (Some 5%Z) None None))]
          Closed).
Proof.
  apply (two_chunk_text_stream Sample.randomUUID Sample.JSON_stringify
           Sample.clock Sample.mapGeminiError Sample.base64
           Sample.model (Sample.options None)
           (Sample.streaming [textChunk (Some "model") "Hello" None usage12;
                              textChunk (Some "model") ", world!" (Some "STOP")
                                        usage12_5])
           (MessageMapper.mkPromptResult
              [mkContent (Some "user") (Some [textPart "Hello"])] None)
           (Some "model") (Some "model") usage12 usage12_5 "STOP").
  - reflexivity.
  - reflexivity.
  - reflexivity.
  - reflexivity.
  - discriminate.
  - discriminate.
Defined.

(** C2 fails as stated: the second chunk of this stream holds a function
    call, and the only finish part of the stream, emitted with the first
    chunk, says [stop]. *)
Lemma tool_call_after_finish_not_reported :
  existsb chunkHasToolCall
    [textChunk (Some "model") "hi" (Some "STOP") None; callChunk "lookup" None]
  = true
  /\ doStream Sample.model (Sample.options None)
       (Sample.streaming [textChunk (Some "model") "hi" (Some "STOP") None;
                          callChunk "lookup" None])
     = Ok (mkStream
             [StreamStart [];
              TextStart "id-1";
              TextDelta "id-1" "hi";
              TextEnd "id-1";
              ResponseMetadata "id-2" 0%Z "gemini-2.5-pro";
              Finish (mkFinishReason stop (Some "STOP")) (usageOf 0 0);
              ToolCall "id-3" "lookup" "{}" None]
             Closed).
Proof. split; reflexivity. Qed.

(** C3 fails as stated: the response carries no usage metadata and the
    returned totals are the number zero, not unknown. *)
Lemma omitted_usage_reported_as_zero :
  doGenerate Sample.model (Sample.options None)
    (Sample.answering (textChunk (Some "model") "hi" (Some "STOP") None))
  = Ok (mkGenerateResult [ContentText "hi"]
          (mkFinishReason stop (Some "STOP"))
          (mkUsage (mkInputTokens (Some 0%Z) None None None)
                   (mkOutputTokens (Some 0%Z) None None))
          (mkResponseInfo "id-1" 0%Z "gemini-2.5-pro") []).
Proof. reflexivity. Qed.

(** C9 fails as stated: the token is signaled after the stream was set up
    and before its first chunk is processed, and the stream holds the
    stream-start part. *)
Lemma cancellation_after_start_emits_stream_start :
  signaledFrom 3 3 = true
  /\ doStream Sample.model (Sample.options (Some (signaledFrom 3)))
       (Sample.streaming [textChunk (Some "model") "hi" (Some "STOP") None])
     = Ok (mkStream [StreamStart []] (Errored abortError)).
Proof. split; reflexivity. Qed.

(** C9 at a token that is signaled from the start. *)
Lemma cancellation_before_first_chunk_witness :
  doStream Sample.model (Sample.options (Some (signaledFrom 0)))
    (Sample.streaming [textChunk (Some "model") "hi" (Some "STOP") None])
  = Throw abortError.
Proof.
  apply (proj1 (cancellation_before_first_chunk Sample.randomUUID
                  Sample.JSON_stringify Sample.clock Sample.mapGeminiError
                  Sample.base64 Sample.model
                  (Sample.options (Some (signaledFrom 0)))
                  (Sample.streaming
                     [textChunk (Some "model") "hi" (Some "STOP") None])
                  (MessageMapper.mkPromptResult
                     [mkContent (Some "user") (Some [textPart "Hello"])] None)
                  (mkChunkStream
                     [textChunk (Some "model") "hi" (Some "STOP") None] None)
                  eq_refl eq_refl eq_refl)).
  reflexivity.
Defined.

(** C10 fails as stated: both chunks carry text and a finish reason, and
    the stream holds two text-end parts. *)
Lemma two_finishing_chunks_two_text_ends :
  doStream Sample.model (Sample.options None) (Sample.streaming twoFinishes)
  = Ok (mkStream
          [StreamStart [];
           TextStart "id-1";
           TextDelta "id-1" "a";
           TextEnd "id-1";
           ResponseMetadata "id-2" 0%Z "gemini-2.5-pro";
           Finish (mkFinishReason stop (Some "STOP")) (usageOf 0 0);
           TextDelta "id-1" "b";
           TextEnd "id-1";
           ResponseMetadata "id-3" 1%Z "gemini-2.5-pro";
           Finish (mkFinishReason stop (Some "STOP")) (usageOf 0 0)]
          Closed)
  /\ List.length
       (filter isTextEnd
          [StreamStart [];
           TextStart "id-1";
           TextDelta "id-1" "a";
           TextEnd "id-1";
           ResponseMetadata "id-2" 0%Z "gemini-2.5-pro";
           Finish (mkFinishReason stop (Some "STOP")) (usageOf 0 0);
           TextDelta "id-1" "b";
           TextEnd "id-1";
           ResponseMetadata "id-3" 1%Z "gemini-2.5-pro";
           Finish (mkFinishReason stop (Some "STOP")) (usageOf 0 0)])
     = 2.
Proof. split; reflexivity. Qed.

Lemma sample_uuid_nonempty n : Sample.randomUUID n <> "".
Proof. unfold Sample.randomUUID. simpl. discriminate. Qed.

(** C10 at the stream of two finishing chunks. *)
Lemma single_text_block_witness :
  List.length
    (filter isTextStart
       (enqueued
          (LanguageModel.start Sample.randomUUID Sample.JSON_stringify
             Sample.clock Sample.mapGeminiError Sample.model
             (Sample.options None) [] (mkChunkStream twoFinishes None)))) <= 1.
Proof.
  apply (single_text_block Sample.randomUUID Sample.JSON_stringify Sample.clock
           Sample.mapGeminiError Sample.base64 Sample.model
           (Sample.options None) (Sample.streaming twoFinishes) _
           (mkChunkStream twoFinishes None) sample_uuid_nonempty).
  - reflexivity.
  - reflexivity.
Defined.

End Witnesses.

(* ================================================================== *)
(** ** Further properties of the tool mapper *)
(* ================================================================== *)

Module MoreObjectFacts.
Import ObjectFacts.

Lemma keys_delete_filter k c :
  keys (delete k c) = filter (fun x => negb (k =? x)) (keys c).
Proof.
  unfold delete, keys. induction c as [|[k' v] r IH]; simpl; auto.
  destruct (k =? k'); simpl; now rewrite ?IH.
Qed.

Lemma filter_filter {A} (f g : A -> bool) l :
  filter f (filter g l) = filter (fun x => g x && f x) l.
Proof.
  induction l as [|x r IH]; simpl; auto.
  destruct (g x); simpl; [destruct (f x)|]; now rewrite IH.
Qed.

Lemma keys_set_cases k v c :
  keys (set k v c) = keys c \/ keys (set k v c) = keys c ++ [k].
Proof.
  induction c as [|[k' v'] r IH]; simpl.
  - now right.
  - destruct (k =? k') eqn:E; simpl.
    + now left.
    + destruct IH as [E2|E2]; [left|right]; unfold keys in *; simpl;
        rewrite E2; reflexivity.
Qed.

Lemma get_delete_eq k c : get k (delete k c) = None.
Proof.
  apply get_None_notin. intros I. apply keys_delete in I. now destruct I.
Qed.

Lemma NoDup_keys_delete k c : NoDup (keys c) -> NoDup (keys (delete k c)).
Proof. intros H. rewrite keys_delete_filter. now apply NoDup_filter. Qed.

(** Assigning the properties of [src] one after the other: a property of
    [src] wins, any other property is kept. *)
Lemma get_assign k src : forall target,
  NoDup (keys src) ->
  get k (fold_left (fun acc kv => set (fst kv) (snd kv) acc) src target)
  = match get k src with
    | Some v => Some v
    | None => get k target
    end.
Proof.
  induction src as [|[k' v'] r IH]; intros target N; simpl; auto.
  inversion N as [|? ? NI N']; subst. rewrite (IH _ N').
  destruct (k =? k') eqn:E.
  - apply String.eqb_eq in E. subst k'.
    apply get_None_notin in NI. rewrite NI. apply get_set_eq.
  - apply String.eqb_neq in E. now rewrite get_set_ne.
Qed.

End MoreObjectFacts.

Module CleanerFacts.
Import ToolMapper CleanerModel ObjectFacts MoreObjectFacts CleanerProofs.
Import SchemaVocabulary.

(** The cleaner on an object, in closed form. *)
Lemma cleanJsonSchema_object o :
  cleanJsonSchema (JObj o)
  = JObj (defaultType (recurse cleanJsonSchema (strip o))).
Proof.
  rewrite cleanJsonSchema_unfold.
  now rewrite body_normal_form by reflexivity.
Qed.

Lemma keys_strip c :
  keys (strip c) = filter (fun k => negb (is_meta k)) (keys c).
Proof.
  unfold strip. rewrite !keys_delete_filter, !filter_filter.
  apply filter_ext. intros k. unfold is_meta.
  rewrite (String.eqb_sym "$schema"), (String.eqb_sym "$ref"),
          (String.eqb_sym "$defs"), (String.eqb_sym "definitions").
  destruct (k =? "$schema"), (k =? "$ref"), (k =? "$defs"),
           (k =? "definitions"); reflexivity.
Qed.

(** The cleaner keeps the shape of an object schema: the result is an
    object whose property names are those of the input, in the input's
    order, without [$schema], [$ref], [$defs] and [definitions]; the only
    name it can add is [type], at the end. *)
Theorem cleanJsonSchema_keeps_other_keys o :
  exists o' added,
    cleanJsonSchema (JObj o) = JObj o'
    /\ keys o' = filter (fun k => negb (is_meta k)) (keys o) ++ added
    /\ (added = [] \/ added = ["type"]).
Proof.
  rewrite cleanJsonSchema_object.
  set (c := recurse cleanJsonSchema (strip o)).
  assert (K : keys c = filter (fun k => negb (is_meta k)) (keys o))
    by (unfold c; now rewrite keys_recurse, keys_strip).
  unfold defaultType.
  destruct (truthy (prop "properties" c) && is_undefined (prop "type" c)).
  - destruct (keys_set_cases "type" (JStr "object") c) as [E|E].
    + exists (set "type" (JStr "object") c), []. rewrite E, K, app_nil_r. auto.
    + exists (set "type" (JStr "object") c), ["type"]. rewrite E, K. auto.
  - exists c, []. rewrite K, app_nil_r. auto.
Qed.

Lemma get_strip_ne k c :
  is_meta k = false -> get k (strip c) = get k c.
Proof.
  unfold is_meta. intros H.
  apply orb_false_iff in H as [H H4]. apply orb_false_iff in H as [H H3].
  apply orb_false_iff in H as [H1 H2].
  apply String.eqb_neq in H1, H2, H3, H4.
  unfold strip. now rewrite !get_delete_ne by assumption.
Qed.

Lemma truthy_gProps self v : truthy (gProps self v) = truthy v.
Proof.
  unfold gProps. destruct (truthy v && typeof_object v) eqn:E; auto.
  apply andb_true_iff in E as [-> _]. reflexivity.
Qed.

Lemma get_recurse_type self c : get "type" (recurse self c) = get "type" c.
Proof.
  unfold recurse. now rewrite !get_modify_ne by (intro; discriminate).
Qed.

Lemma get_recurse_properties self c :
  get "properties" (recurse self c)
  = option_map (gProps self) (get "properties" c).
Proof.
  unfold recurse.
  rewrite !get_modify_ne by (intro; discriminate). apply get_modify_eq.
Qed.

(** The [type] of a cleaned object schema: [object] when the input has a
    truthy [properties] and its [type] is missing or [undefined], and the
    input's own [type] in every other case (also when that is [null] or
    not a string). *)
Theorem cleanJsonSchema_type_default o :
  exists o',
    cleanJsonSchema (JObj o) = JObj o'
    /\ prop "type" o'
       = if truthy (prop "properties" o) && is_undefined (prop "type" o)
         then JStr "object" else prop "type" o.
Proof.
  rewrite cleanJsonSchema_object.
  set (c := recurse cleanJsonSchema (strip o)).
  assert (T : prop "type" c = prop "type" o).
  { unfold prop, c. now rewrite get_recurse_type, get_strip_ne. }
  assert (P : truthy (prop "properties" c) = truthy (prop "properties" o)).
  { unfold prop, c. rewrite get_recurse_properties, get_strip_ne by reflexivity.
    destruct (get "properties" o); simpl; auto. apply truthy_gProps. }
  exists (defaultType c). split; auto. unfold defaultType.
  rewrite P, T.
  destruct (truthy (prop "properties" o) && is_undefined (prop "type" o)); auto.
  unfold prop. now rewrite get_set_eq.
Qed.

Lemma index_key_digit i : starts_with_digit (index_key i) = true.
Proof.
  unfold index_key. destruct (Nat.to_uint i); reflexivity.
Qed.

Lemma get_indexed_None k l : forall i,
  starts_with_digit k = false -> get k (indexed_from i l) = None.
Proof.
  induction l as [|v r IH]; intros i H; simpl; auto.
  destruct (k =? index_key i) eqn:E; auto.
  apply String.eqb_eq in E. subst k. rewrite index_key_digit in H. discriminate.
Qed.

Lemma modify_absent k g c : get k c = None -> modify k g c = c.
Proof. intros H. apply modify_id. intros v G. congruence. Qed.

(** A schema that is an array (the tuple form of [items], say) is not
    cleaned as a list: the spread turns it into an object keyed by the
    indices, and its elements are kept as they are, uncleaned. *)
Theorem cleanJsonSchema_array l :
  cleanJsonSchema (JArr l) = JObj (indexed_from 0 l).
Proof.
  rewrite cleanJsonSchema_unfold.
  rewrite body_normal_form by reflexivity. simpl entries.
  set (c := indexed_from 0 l).
  assert (G : forall k, starts_with_digit k = false -> get k c = None)
    by (intros k H; now apply get_indexed_None).
  assert (S : strip c = c).
  { apply strip_fixed. intros k I. apply get_None_notin. apply G.
    simpl in I. destruct I as [<-|[<-|[<-|[<-|[]]]]]; reflexivity. }
  rewrite S. unfold recurse.
  rewrite (modify_absent "properties"), (modify_absent "items"),
    (modify_absent "additionalProperties"), (modify_absent "allOf"),
    (modify_absent "anyOf"), (modify_absent "oneOf")
    by (apply G; reflexivity).
  unfold defaultType, prop. rewrite (G "properties") by reflexivity.
  reflexivity.
Qed.

End CleanerFacts.

Module ToolDeclarationProofs.
Import ToolMapper CleanerModel ObjectFacts CleanerProofs ToolDeclarations.
Import ExpectedVocabulary.
Section WithZod.
Variable toJSONSchema : option (json -> option json).
Variable zodToJsonSchemaModule : option (json -> option json).

#[local] Abbreviation convertZodToJsonSchema :=
  (convertZodToJsonSchema toJSONSchema zodToJsonSchemaModule).
#[local] Abbreviation convertToolParameters :=
  (convertToolParameters toJSONSchema zodToJsonSchemaModule).
#[local] Abbreviation mapToolsToGeminiFormat :=
  (mapToolsToGeminiFormat toJSONSchema zodToJsonSchemaModule).
#[local] Abbreviation requestTools :=
  (requestTools toJSONSchema zodToJsonSchemaModule).

Lemma cleanJsonSchema_Cleaned s : Cleaned (cleanJsonSchema s).
Proof. apply upto_cleaned. lia. Qed.

Lemma declarations_fold tools : forall acc,
  fold_left
    (fun acc tool =>
       acc ++ [mkFunctionDeclaration (ft_name tool) (ft_description tool)
                 (convertToolParameters (inputSchema tool))])
    tools acc
  = acc ++ map (fun tool =>
                  mkFunctionDeclaration (ft_name tool) (ft_description tool)
                    (convertToolParameters (inputSchema tool))) tools.
Proof.
  induction tools as [|t r IH]; intros acc; simpl.
  - now rewrite app_nil_r.
  - rewrite IH, <- app_assoc. reflexivity.
Qed.

Lemma mapTools_declarations tools :
  mapToolsToGeminiFormat tools
  = [mkGeminiTool
       (map (fun tool =>
               mkFunctionDeclaration (ft_name tool) (ft_description tool)
                 (convertToolParameters (inputSchema tool))) tools)].
Proof.
  unfold ToolDeclarations.mapToolsToGeminiFormat.
  now rewrite declarations_fold.
Qed.

(** The tools are mapped to a single backend tool that declares one
    function per tool, in the order of the tools, under the tool's name
    and description and with the tool's converted input schema; no tools
    give one backend tool without declarations. *)
Theorem mapToolsToGeminiFormat_declarations tools :
  exists decls,
    mapToolsToGeminiFormat tools = [mkGeminiTool decls]
    /\ map fd_name decls = map ft_name tools
    /\ map fd_description decls = map ft_description tools
    /\ map parameters decls
       = map (fun t => convertToolParameters (inputSchema t)) tools.
Proof.
  rewrite mapTools_declarations.
  eexists. split; [reflexivity|]. rewrite !map_map. simpl. auto.
Qed.

(** The parameters declared for a schema the code recognises, as a JSON
    schema or as a zod schema, are cleaned at every level the cleaner
    descends to, and cleaning them again changes nothing, whatever the
    zod converters return. *)
Theorem convertToolParameters_cleaned parameters :
  isJsonSchema parameters || isZodSchema parameters = true ->
  Cleaned (convertToolParameters parameters)
  /\ cleanJsonSchema (convertToolParameters parameters)
     = convertToolParameters parameters.
Proof.
  unfold ToolDeclarations.convertToolParameters. intros H.
  destruct (isJsonSchema parameters).
  - split; [apply cleanJsonSchema_Cleaned|apply cleanJsonSchema_idempotent].
  - simpl in H. rewrite H.
    split; [apply cleanJsonSchema_Cleaned|apply cleanJsonSchema_idempotent].
Qed.

Lemma expectedDeclarations_filter convert entries :
  expectedDeclarations convert entries
  = map (fun tool =>
           mkFunctionDeclaration (ft_name tool) (ft_description tool)
             (convert (inputSchema tool)))
        (functionToolsOf entries).
Proof.
  unfold functionToolsOf.
  induction entries as [|[f|id] r IH]; simpl; auto. now rewrite IH.
Qed.

(** Only function tools reach the backend.  The tools of the request
    are absent when the call gives no tool list, and when its list holds
    no function tool.  Otherwise they are a single backend tool that
    declares each function tool of the list, in the order of the list,
    under its name and description and with its converted input schema,
    and that declares nothing for the provider-defined tools of the
    list. *)
Theorem requestTools_function_tools_only tools :
  requestTools tools
  = match tools with
    | Some entries =>
        match expectedDeclarations convertToolParameters entries with
        | [] => None
        | decls => Some [mkGeminiTool decls]
        end
    | None => None
    end.
Proof.
  unfold ToolDeclarations.requestTools.
  destruct tools as [entries|]; [|reflexivity].
  rewrite expectedDeclarations_filter, mapTools_declarations.
  destruct (functionToolsOf entries); reflexivity.
Qed.

End WithZod.

(** A zod schema for which neither converter returns a value (it is
    missing or it throws) is declared as the bare object schema
    [{type: 'object'}]. *)
Theorem zod_without_converter_falls_back tj zm parameters :
  isJsonSchema parameters = false -> isZodSchema parameters = true ->
  attempt tj parameters = None -> attempt zm parameters = None ->
  convertToolParameters tj zm parameters = JObj [("type", JStr "object")].
Proof.
  intros J Z A B. unfold convertToolParameters, convertZodToJsonSchema.
  rewrite J, Z, A, B. reflexivity.
Qed.

(** Function names are only ever restricted together with the mode
    [ANY]: a tool config that lists allowed function names comes from the
    choice of one specific tool, lists that tool alone, and has mode
    [ANY]. *)
Theorem allowed_names_only_with_mode_any toolChoice cfg names :
  mapGeminiToolConfig toolChoice = Some cfg ->
  allowedFunctionNames (functionCallingConfig cfg) = Some names ->
  mode (functionCallingConfig cfg) = ANY
  /\ exists toolName,
       names = [toolName] /\ toolChoice = Some (ChoiceTool toolName).
Proof.
  destruct toolChoice as [[| | |n]|]; simpl; intros H; inversion H; subst;
    simpl; intros A; inversion A; subst.
  split; eauto.
Qed.

End ToolDeclarationProofs.

(* ================================================================== *)
(** ** Further properties of the message mapper *)
(* ================================================================== *)

Module PromptProofs.
Import MessageMapper Vocabulary PromptVocabulary.
Section WithBase64.
Variable base64 : list Byte.byte -> string.

#[local] Abbreviation mapFilePart := (mapFilePart base64).
#[local] Abbreviation mapUserPart := (mapUserPart base64).
#[local] Abbreviation mapUserMessage := (mapUserMessage base64).
#[local] Abbreviation mapMessage := (mapMessage base64).
#[local] Abbreviation forMessages := (forMessages base64).
#[local] Abbreviation mapPromptToGeminiFormat := (mapPromptToGeminiFormat base64).

(** *** The three part loops *)

(** A part loop whose step never throws and only appends. *)
Lemma forParts_total {A} (step : list Part -> A -> result (list Part))
    (f : A -> list Part) :
  (forall acc x, step acc x = Ok (acc ++ f x)) ->
  forall l acc, forParts step acc l = Ok (acc ++ flat_map f l).
Proof.
  intros H. induction l as [|x r IH]; intros acc; simpl.
  - now rewrite app_nil_r.
  - rewrite H. simpl. rewrite IH, <- app_assoc. reflexivity.
Qed.

Lemma mapAssistantMessage_total content :
  mapAssistantMessage content
  = Ok (mkContent (Some "model") (Some (flat_map assistantPartOf content))).
Proof.
  unfold mapAssistantMessage.
  rewrite (forParts_total mapAssistantPart assistantPartOf).
  - reflexivity.
  - intros acc [] ; simpl; now rewrite ?app_nil_r.
Qed.

Lemma mapToolParts_total content :
  forParts mapToolPart [] content = Ok (responsesOf content).
Proof.
  unfold responsesOf.
  rewrite (forParts_total mapToolPart
             (fun p => match p with
                       | PToolResult tool output =>
                           [functionResponsePart
                              (mkFunctionResponse tool (toolResultValue output))]
                       | _ => []
                       end)).
  - reflexivity.
  - intros acc []; simpl; now rewrite ?app_nil_r.
Qed.

(** The user loop: it succeeds exactly on accepted parts. *)
Lemma mapUserPart_Ok acc p :
  userPartAccepted p = true ->
  exists ps, mapUserPart acc p = Ok (acc ++ ps)
             /\ Forall (fun q => thoughtSignature q = None
                         /\ match inlineData q with
                            | Some b => supportedMediaType (mimeType b) = true
                            | None => True
                            end) ps.
Proof.
  destruct p; simpl; intros H;
    try (exists []; rewrite app_nil_r; split; [reflexivity|constructor]).
  - exists [textPart t]. split; auto. repeat constructor.
  - apply andb_true_iff in H as [S I]. rewrite S.
    unfold MessageMapper.mapFilePart, inlinePayload in *.
    destruct (file_data f); try discriminate; simpl.
    + eexists. split; [reflexivity|]. repeat constructor. simpl. exact S.
    + eexists. split; [reflexivity|]. repeat constructor. simpl. exact S.
Qed.

Lemma mapUserPart_Throw acc p :
  userPartAccepted p = false -> exists e, mapUserPart acc p = Throw e.
Proof.
  destruct p; simpl; try discriminate. intros H.
  destruct (supportedMediaType _) eqn:S; [|eauto].
  simpl in H. unfold MessageMapper.mapFilePart, inlinePayload in *.
  destruct (file_data f); try discriminate; simpl; eauto.
Qed.

Lemma forParts_user content : forall acc,
  Forall PartFine acc ->
  if forallb userPartAccepted content
  then exists ps, forParts mapUserPart acc content = Ok ps /\ Forall PartFine ps
  else exists e, forParts mapUserPart acc content = Throw e.
Proof.
  induction content as [|p r IH]; intros acc F; simpl.
  - eauto.
  - destruct (userPartAccepted p) eqn:A; simpl.
    + destruct (mapUserPart_Ok acc p A) as (ps & -> & Fp). simpl.
      apply IH. apply Forall_app. split; auto.
      eapply Forall_impl; [|exact Fp]. intros q [T I]. split; auto.
      rewrite T. discriminate.
    + destruct (mapUserPart_Throw acc p A) as [e ->]. simpl. eauto.
Qed.

Lemma assistantPartOf_fine p : Forall PartFine (assistantPartOf p).
Proof.
  destruct p; simpl; repeat constructor; simpl; try discriminate; auto.
  destruct (optionsThoughtSignature c) as [s|] eqn:E; simpl; [|discriminate].
  destruct (s =? "") eqn:S; simpl; [discriminate|].
  apply String.eqb_neq in S. congruence.
Qed.

Lemma responsesOf_fine c : Forall PartFine (responsesOf c).
Proof.
  unfold responsesOf. apply Forall_flat_map. apply Forall_forall.
  intros p _. destruct p; repeat constructor; simpl; auto; discriminate.
Qed.

(** *** The message loop *)

Lemma lastSystem_snoc seen m :
  lastSystem (seen ++ [m])
  = match m with System t => Some t | _ => lastSystem seen end.
Proof. unfold lastSystem. now rewrite fold_left_app. Qed.

Lemma allParts_snoc cs c :
  allParts (cs ++ [c])
  = allParts cs ++ match parts c with Some l => l | None => [] end.
Proof. unfold allParts. rewrite flat_map_app. simpl. now rewrite app_nil_r. Qed.

Lemma mapMessage_step seen acc m :
  Mapped seen acc ->
  if messageAccepted m
  then exists acc', mapMessage acc m = Ok acc' /\ Mapped (seen ++ [m]) acc'
  else exists e, mapMessage acc m = Throw e.
Proof.
  intros [R S P]. destruct m as [t|c|c|c]; simpl.
  - eexists. split; [reflexivity|]. constructor; simpl.
    + rewrite filter_app. simpl. now rewrite app_nil_r.
    + now rewrite lastSystem_snoc.
    + exact P.
  - unfold MessageMapper.mapUserMessage.
    pose proof (forParts_user c [] (Forall_nil _)) as H.
    destruct (forallb userPartAccepted c).
    + destruct H as (ps & -> & F). simpl. eexists. split; [reflexivity|].
      constructor; simpl.
      * rewrite filter_app, !map_app. simpl. now rewrite R.
      * now rewrite lastSystem_snoc.
      * rewrite allParts_snoc. apply Forall_app. auto.
    + destruct H as [e ->]. simpl. eauto.
  - rewrite mapAssistantMessage_total. simpl. eexists. split; [reflexivity|].
    constructor; simpl.
    + rewrite filter_app, !map_app. simpl. now rewrite R.
    + now rewrite lastSystem_snoc.
    + rewrite allParts_snoc. apply Forall_app. split; auto. simpl.
      apply Forall_flat_map. apply Forall_forall. intros p _.
      apply assistantPartOf_fine.
  - rewrite mapToolParts_total. simpl. eexists. split; [reflexivity|].
    constructor; simpl.
    + rewrite filter_app, !map_app. simpl. now rewrite R.
    + now rewrite lastSystem_snoc.
    + rewrite allParts_snoc. apply Forall_app. split; auto. simpl.
      apply responsesOf_fine.
Qed.

Lemma forMessages_run rest : forall seen acc,
  Mapped seen acc ->
  if forallb messageAccepted rest
  then exists r, forMessages acc rest = Ok r /\ Mapped (seen ++ rest) r
  else exists e, forMessages acc rest = Throw e.
Proof.
  induction rest as [|m r IH]; intros seen acc M; simpl.
  - rewrite app_nil_r. eauto.
  - pose proof (mapMessage_step seen acc m M) as H.
    destruct (messageAccepted m); simpl.
    + destruct H as (acc' & -> & M'). simpl.
      specialize (IH (seen ++ [m]) acc' M').
      rewrite <- app_assoc in IH. exact IH.
    + destruct H as [e ->]. simpl. eauto.
Qed.

Lemma mapPrompt_run prompt :
  if forallb messageAccepted prompt
  then exists r, mapPromptToGeminiFormat prompt = Ok r /\ Mapped prompt r
  else exists e, mapPromptToGeminiFormat prompt = Throw e.
Proof.
  apply (forMessages_run prompt [] (mkPromptResult [] None)).
  constructor; simpl; auto.
Qed.


Lemma mapPrompt_Mapped prompt r :
  mapPromptToGeminiFormat prompt = Ok r -> Mapped prompt r.
Proof.
  intros E. pose proof (mapPrompt_run prompt) as H.
  destruct (forallb messageAccepted prompt).
  - destruct H as (r' & E' & M). rewrite E in E'. inversion E'; subst. exact M.
  - destruct H as [e E']. rewrite E in E'. discriminate.
Qed.

(** The mapped prompt has one entry per message that is not a system
    message, in the order of the messages: role [model] for an assistant
    message and role [user] for a user or a tool message. *)
Theorem mapPrompt_entries prompt r :
  mapPromptToGeminiFormat prompt = Ok r ->
  map role (contents r)
  = map backendRole (filter (fun m => negb (isSystem m)) prompt)
  /\ List.length (contents r)
     = List.length (filter (fun m => negb (isSystem m)) prompt).
Proof.
  intros E. destruct (mapPrompt_Mapped _ _ E) as [R _ _]. split; auto.
  rewrite <- (length_map role), R, length_map. reflexivity.
Qed.

(** The system instruction is the text of the last system message of the
    prompt, as a single text part under role [user]; earlier system
    messages are discarded, and without a system message there is no
    system instruction. *)
Theorem mapPrompt_system_instruction prompt r :
  mapPromptToGeminiFormat prompt = Ok r ->
  systemInstruction r
  = option_map (fun t => mkContent (Some "user") (Some [textPart t]))
               (lastSystem prompt).
Proof. intros E. apply (mp_system _ _ (mapPrompt_Mapped _ _ E)). Qed.

(** No part of a mapped prompt carries an empty thought signature, and
    every inline-data part has a supported media type. *)
Theorem mapPrompt_parts_fine prompt r p :
  mapPromptToGeminiFormat prompt = Ok r ->
  In p (allParts (contents r)) ->
  thoughtSignature p <> Some ""
  /\ (forall b, inlineData p = Some b -> supportedMediaType (mimeType b) = true).
Proof.
  intros E I. pose proof (mp_parts _ _ (mapPrompt_Mapped _ _ E)) as F.
  rewrite Forall_forall in F. destruct (F p I) as [T B]. split; auto.
  intros b Hb. now rewrite Hb in B.
Qed.

Lemma forMessages_app l1 l2 acc :
  forMessages acc (l1 ++ l2)
  = (acc' <- forMessages acc l1 ;; forMessages acc' l2).
Proof.
  revert acc. induction l1 as [|m r IH]; intros acc; simpl; auto.
  destruct (mapMessage acc m); simpl; auto.
Qed.

Lemma forParts_app {A} (step : list Part -> A -> result (list Part)) l1 l2 acc :
  forParts step acc (l1 ++ l2)
  = (acc' <- forParts step acc l1 ;; forParts step acc' l2).
Proof.
  revert acc. induction l1 as [|x r IH]; intros acc; simpl; auto.
  destruct (step acc x); simpl; auto.
Qed.

Lemma mapUserPart_rejection acc f :
  userPartAccepted (PFile f) = false ->
  mapUserPart acc (PFile f) = Throw (rejectionOf f).
Proof.
  unfold userPartAccepted, rejectionOf, MessageMapper.mapUserPart,
    effectiveMediaType.
  destruct (supportedMediaType _); simpl; auto.
  unfold inlinePayload, MessageMapper.mapFilePart.
  destruct (file_data f); simpl; auto; discriminate.
Qed.

(** A prompt that is not accepted fails with the error of its first
    offending file part, whatever follows it: [Unsupported file type]
    with the media type when the type is not supported, else the URL
    error when the data is a URL, else [Unsupported file format]. *)
Theorem mapPrompt_first_rejection before content_before f content_after after :
  forallb messageAccepted before = true ->
  forallb userPartAccepted content_before = true ->
  userPartAccepted (PFile f) = false ->
  mapPromptToGeminiFormat
    (before ++ User (content_before ++ PFile f :: content_after) :: after)
  = Throw (rejectionOf f).
Proof.
  intros B C F. unfold MessageMapper.mapPromptToGeminiFormat.
  rewrite forMessages_app.
  pose proof (forMessages_run before [] (mkPromptResult [] None)) as H.
  rewrite B in H. destruct H as (acc & -> & _).
  { constructor; simpl; auto. }
  simpl. unfold MessageMapper.mapUserMessage. rewrite forParts_app.
  pose proof (forParts_user content_before [] (Forall_nil _)) as H.
  rewrite C in H. destruct H as (ps & -> & _).
  cbn [bind MessageMapper.forParts]. now rewrite mapUserPart_rejection.
Qed.

End WithBase64.

Lemma toolResultValue_isObject output :
  isObject (toolResultValue output) = true.
Proof. destruct output; simpl; auto; destruct value; reflexivity. Qed.

(** The response handed to the backend for a tool result is always an
    object: a JSON value that is an object is passed as it is, and any
    other JSON value, an array and [null] included, is wrapped as
    [{result: value}]. *)
Theorem toolResultValue_object output :
  isObject (toolResultValue output) = true
  /\ (forall v, output = OutJson v \/ output = OutErrorJson v ->
        toolResultValue output
        = if isObject v then v else JObj [("result", v)]).
Proof.
  split.
  - apply toolResultValue_isObject.
  - intros v [->| ->]; simpl; destruct v; reflexivity.
Qed.

(** A tool message never fails and always adds exactly one entry of role
    [user], also when it holds no tool result: the entry has one function
    response per tool-result part, in order, under the tool's name and
    with an object as its response; parts of other kinds are skipped. *)
Theorem tool_message_entry base64 acc content :
  mapMessage base64 acc (Tool content)
  = Ok (mkPromptResult
          (contents acc ++ [mkContent (Some "user") (Some (responsesOf content))])
          (systemInstruction acc))
  /\ map (fun p => option_map fr_name (functionResponse p)) (responsesOf content)
     = resultNames content
  /\ Forall (fun p => exists fr, functionResponse p = Some fr
                                 /\ isObject (fr_response fr) = true)
            (responsesOf content).
Proof.
  split; [|split].
  - simpl. now rewrite mapToolParts_total.
  - unfold responsesOf, resultNames.
    induction content as [|p r IH]; simpl; auto.
    rewrite map_app, IH. destruct p; reflexivity.
  - unfold responsesOf. apply Forall_flat_map. apply Forall_forall.
    intros p _. destruct p; repeat constructor. eexists. split; [reflexivity|].
    apply toolResultValue_isObject.
Qed.

End PromptProofs.

(* ================================================================== *)
(** ** Further properties of the thinking configuration *)
(* ================================================================== *)

Module ThinkingProofs.
Import ToolMapper LanguageModel Vocabulary SchemaVocabulary LevelVocabulary.
Import ObjectFacts MoreObjectFacts ConfigProofs.

(** *** The upper case of a string, character by character *)

Lemma toUpperCase_one c : toUpperCase (String c "") = String (upperChar c) "".
Proof. reflexivity. Qed.

Lemma toUpperCase_two c c2 r2 :
  toUpperCase (String c (String c2 r2))
  = if byteIs c 196 && byteIs c2 177
    then String "I" (toUpperCase r2)
    else if byteIs c 197 && byteIs c2 191
    then String "S" (toUpperCase r2)
    else if byteIs c 195 && byteIs c2 159
    then String "S" (String "S" (toUpperCase r2))
    else
      match r2 with
      | String c3 r3 =>
          match (if byteIs c 239 && byteIs c2 172
                 then ligatureUpper c3 else None) with
          | Some upper => (upper ++ toUpperCase r3)%string
          | None => String (upperChar c) (toUpperCase (String c2 r2))
          end
      | EmptyString => String (upperChar c) (toUpperCase (String c2 r2))
      end.
Proof. reflexivity. Qed.

Lemma byteIs_eq c n : byteIs c n = true -> n < 256 -> c = ascii_of_nat n.
Proof.
  unfold byteIs. intros H _. apply Nat.eqb_eq in H. subst n.
  symmetry. apply ascii_nat_embedding.
Qed.

Lemma byteIs_ascii c n : nat_of_ascii c < 128 -> 128 <= n -> byteIs c n = false.
Proof. intros H N. unfold byteIs. apply Nat.eqb_neq. lia. Qed.

Lemma ligatureUpper_head c upper :
  ligatureUpper c = Some upper ->
  exists t, upper = String "F" t \/ upper = String "S" t.
Proof.
  unfold ligatureUpper.
  repeat match goal with
         | |- context [if byteIs c ?n then _ else _] => destruct (byteIs c n)
         end; intros H; inversion H; eauto.
Qed.

(** A character of ASCII is upper-cased on its own. *)
Lemma toUpperCase_ascii c r :
  nat_of_ascii c < 128 ->
  toUpperCase (String c r) = String (upperChar c) (toUpperCase r).
Proof.
  intros H. destruct r as [|c2 r2]; [reflexivity|].
  rewrite toUpperCase_two.
  rewrite !(byteIs_ascii c) by (assumption || lia). simpl andb. cbv iota.
  destruct r2; reflexivity.
Qed.

(** The dotless i is upper-cased to [I]. *)
Lemma toUpperCase_dotless r :
  toUpperCase (String (ascii_of_nat 196) (String (ascii_of_nat 177) r))
  = String "I" (toUpperCase r).
Proof. reflexivity. Qed.

(** How the upper case of a non-empty string starts. *)
Lemma toUpperCase_cases c r :
  toUpperCase (String c r) = String (upperChar c) (toUpperCase r)
  \/ (exists r2, c = ascii_of_nat 196 /\ r = String (ascii_of_nat 177) r2
                 /\ toUpperCase (String c r) = String "I" (toUpperCase r2))
  \/ (exists t, toUpperCase (String c r) = String "F" t)
  \/ (exists t, toUpperCase (String c r) = String "S" t).
Proof.
  destruct r as [|c2 r2]; [now left|].
  rewrite toUpperCase_two.
  destruct (byteIs c 196 && byteIs c2 177) eqn:T1.
  { apply andb_true_iff in T1 as [A B].
    apply byteIs_eq in A, B; try lia. subst. right. left. eauto. }
  destruct (byteIs c 197 && byteIs c2 191); [right; right; right; eauto|].
  destruct (byteIs c 195 && byteIs c2 159); [right; right; right; eauto|].
  destruct r2 as [|c3 r3]; [now left|].
  destruct (byteIs c 239 && byteIs c2 172); [|now left].
  destruct (ligatureUpper c3) as [upper|] eqn:L; [|now left].
  destruct (ligatureUpper_head _ _ L) as (t & [-> | ->]); simpl;
    right; right; [left|right]; eauto.
Qed.

Lemma toUpperCase_empty s : toUpperCase s = "" -> s = "".
Proof.
  destruct s as [|c r]; auto. intros H.
  destruct (toUpperCase_cases c r) as [E|[(r2 & _ & _ & E)|[[t E]|[t E]]]];
    rewrite E in H; discriminate.
Qed.

Lemma upperChar_letter c C :
  65 <= nat_of_ascii C <= 90 ->
  upperChar c = C <-> c = C \/ c = lowerOf C.
Proof.
  intros R. unfold upperChar, lowerOf. split.
  - destruct ((97 <=? nat_of_ascii c) && (nat_of_ascii c <=? 122))%nat eqn:E;
      [|now left].
    apply andb_true_iff in E as [A B]. apply Nat.leb_le in A, B.
    intros H. right. apply (f_equal nat_of_ascii) in H.
    rewrite nat_ascii_embedding in H by lia.
    rewrite <- H. replace (nat_of_ascii c - 32 + 32) with (nat_of_ascii c) by lia.
    symmetry. apply ascii_nat_embedding.
  - intros [-> | ->].
    + replace ((97 <=? nat_of_ascii C) && (nat_of_ascii C <=? 122))%nat
        with false; auto.
      symmetry. apply andb_false_iff. left. apply Nat.leb_gt. lia.
    + rewrite nat_ascii_embedding by lia.
      replace ((97 <=? nat_of_ascii C + 32)
               && (nat_of_ascii C + 32 <=? 122))%nat with true.
      * replace (nat_of_ascii C + 32 - 32) with (nat_of_ascii C) by lia.
        apply ascii_nat_embedding.
      * symmetry. apply andb_true_iff. split; apply Nat.leb_le; lia.
Qed.

Lemma letter_ascii c C :
  65 <= nat_of_ascii C <= 90 -> c = C \/ c = lowerOf C -> nat_of_ascii c < 128.
Proof.
  intros R [-> | ->]; [lia|]. unfold lowerOf.
  rewrite nat_ascii_embedding by lia. lia.
Qed.

(** The strings whose upper case is a word of plain letters are those
    that spell the word. *)
Lemma spells_upper name :
  Forall plainLetter (list_ascii_of_string name) ->
  forall level, toUpperCase level = name <-> spells name level = true.
Proof.
  induction name as [|C name IH]; intros P level.
  - simpl. split.
    + intros H. apply toUpperCase_empty in H. now subst.
    + destruct level; [reflexivity|discriminate].
  - simpl in P. inversion P as [|? ? (R & NF & NS) P']; subst.
    specialize (IH P'). destruct level as [|c rest]; [split; discriminate|].
    cbn [spells]. split.
    + intros H.
      destruct (toUpperCase_cases c rest)
        as [E|[(r2 & -> & -> & E)|[[t E]|[t E]]]]; rewrite E in H.
      * injection H as U T. apply (upperChar_letter c C R) in U.
        apply IH in T. rewrite T, andb_true_r.
        destruct U as [-> | ->]; rewrite Ascii.eqb_refl;
          now rewrite ?orb_true_r.
      * injection H as U T. apply IH in T. rewrite T, <- U.
        rewrite !Ascii.eqb_refl. simpl. now rewrite ?orb_true_r.
      * inversion H; subst. exfalso. apply NF. reflexivity.
      * inversion H; subst. exfalso. apply NS. reflexivity.
    + intros H. apply orb_true_iff in H as [H|H].
      * apply andb_true_iff in H as [L S]. apply IH in S.
        assert (U : c = C \/ c = lowerOf C).
        { apply orb_true_iff in L as [L|L]; apply Ascii.eqb_eq in L; auto. }
        rewrite toUpperCase_ascii by (eapply letter_ascii; eauto).
        rewrite S. f_equal. now apply upperChar_letter.
      * apply andb_true_iff in H as [I H]. apply Ascii.eqb_eq in I. subst C.
        destruct rest as [|c2 rest2]; [discriminate|].
        apply andb_true_iff in H as [H S].
        apply andb_true_iff in H as [A B].
        apply Ascii.eqb_eq in A, B. subst. apply IH in S.
        rewrite toUpperCase_dotless. now rewrite S.
Qed.

Lemma level_names_plain l :
  Forall plainLetter (list_ascii_of_string (ThinkingLevel_value l)).
Proof.
  destruct l; simpl; repeat constructor; vm_compute; (lia || discriminate).
Qed.

(** A level string is accepted exactly when it spells [LOW], [MEDIUM],
    [HIGH] or [MINIMAL] letter by letter, each letter in either case,
    where the letter [I] may also be written as the dotless i (U+0131),
    which JavaScript upper-cases to [I]; it is then normalised to that
    level.  So the names of the enum are accepted as they are, and
    [hıgh], with a dotless i, is accepted as [HIGH]. *)
Theorem normalizeThinkingLevel_spellings level :
  (forall l, normalizeThinkingLevel level = Some l
             <-> spells (ThinkingLevel_value l) level = true)
  /\ (forall l, normalizeThinkingLevel (ThinkingLevel_value l) = Some l)
  /\ normalizeThinkingLevel "hıgh" = Some HIGH
  /\ normalizeThinkingLevel "MİNİMAL" = None.
Proof.
  split; [|split; [|split]].
  - intros l. rewrite <- (spells_upper _ (level_names_plain l)).
    unfold normalizeThinkingLevel. split.
    + destruct (toUpperCase level =? "LOW") eqn:E1;
        [apply String.eqb_eq in E1; intros H; inversion H; subst; exact E1|].
      destruct (toUpperCase level =? "MEDIUM") eqn:E2;
        [apply String.eqb_eq in E2; intros H; inversion H; subst; exact E2|].
      destruct (toUpperCase level =? "HIGH") eqn:E3;
        [apply String.eqb_eq in E3; intros H; inversion H; subst; exact E3|].
      destruct (toUpperCase level =? "MINIMAL") eqn:E4;
        [apply String.eqb_eq in E4; intros H; inversion H; subst; exact E4|].
      discriminate.
    + intros ->. destruct l; reflexivity.
  - intros l. destruct l; reflexivity.
  - reflexivity.
  - reflexivity.
Qed.

(** The thinking config built from any input holds no property besides
    [thinkingLevel], [thinkingBudget] and [includeThoughts], and no
    property whose value is [undefined]; a level that is a string is the
    name of a level; and building from the result gives the result. *)
Theorem buildThinkingConfig_normal input :
  (forall k, In k (keys (buildThinkingConfig input)) -> In k thinkingKeys)
  /\ Forall (fun kv => is_undefined (snd kv) = false)
            (buildThinkingConfig input)
  /\ (forall s, prop "thinkingLevel" (buildThinkingConfig input) = JStr s ->
                exists l, s = ThinkingLevel_value l)
  /\ buildThinkingConfig (buildThinkingConfig input)
     = buildThinkingConfig input.
Proof.
  unfold buildThinkingConfig, thinkingKeys.
  destruct (is_undefined (prop "thinkingBudget" input)) eqn:B;
  destruct (is_undefined (prop "includeThoughts" input)) eqn:I;
  destruct (prop "thinkingLevel" input) as [| |b|n|s|l|o] eqn:L;
  try (destruct (normalizeThinkingLevel s) as [[]|] eqn:N);
  cbn -[normalizeThinkingLevel];
  rewrite ?B, ?I; cbn -[normalizeThinkingLevel]; rewrite ?B, ?I;
  (split; [intros k H; simpl in H; intuition|
   split; [repeat constructor; simpl; auto|
   split; [intros s' H'; try discriminate;
           inversion H'; subst;
           first [now exists LOW | now exists MEDIUM
                 | now exists HIGH | now exists MINIMAL]
          | reflexivity]]]).
Qed.

(** *** The merge of the defaults and the call-time override *)

Lemma buildThinkingConfig_level input :
  prop "thinkingLevel" (buildThinkingConfig input)
  = emittedLevel (prop "thinkingLevel" input).
Proof.
  unfold buildThinkingConfig, emittedLevel.
  destruct (is_undefined (prop "thinkingBudget" input));
  destruct (is_undefined (prop "includeThoughts" input));
  destruct (prop "thinkingLevel" input) as [| |b|n|s|l|o];
  try (destruct (normalizeThinkingLevel s) as [[]|]); reflexivity.
Qed.

Lemma buildThinkingConfig_field input k :
  k = "thinkingBudget" \/ k = "includeThoughts" ->
  prop k (buildThinkingConfig input) = prop k input.
Proof.
  unfold buildThinkingConfig.
  intros [-> | ->];
  destruct (prop "thinkingBudget" input) eqn:B;
  destruct (prop "includeThoughts" input) eqn:I;
  destruct (prop "thinkingLevel" input) as [| |b'|n'|s'|l'|o'];
  try (destruct (normalizeThinkingLevel s') as [[]|]); reflexivity.
Qed.

Lemma prop_spread k target src :
  NoDup (keys src) ->
  prop k (spread target (Some src))
  = match get k src with Some v => v | None => prop k target end.
Proof.
  intros N. unfold prop, spread. rewrite get_assign by assumption.
  destruct (get k src); reflexivity.
Qed.

Lemma prop_spread_None k target : prop k (spread target None) = prop k target.
Proof. reflexivity. Qed.

Lemma prop_defaults k s :
  NoDup (keys s) -> prop k (spread [] (Some s)) = prop k s.
Proof.
  intros N. rewrite prop_spread by assumption. unfold prop.
  destruct (get k s); reflexivity.
Qed.

(** A property of the effective override, for a name other than the
    level's: it is the override's own. *)
Lemma effective_field o k target :
  NoDup (keys o) -> k <> "thinkingLevel" ->
  prop k (spread target (effectiveOptionsThinking (Some o)))
  = match get k o with Some v => v | None => prop k target end.
Proof.
  intros N K. unfold effectiveOptionsThinking.
  assert (D : prop k (spread target
                 (if (0 <? List.length (keys (delete "thinkingLevel" o)))%nat
                  then Some (delete "thinkingLevel" o) else None))
              = match get k o with Some v => v | None => prop k target end).
  { rewrite <- (get_delete_ne k "thinkingLevel" o K).
    destruct (delete "thinkingLevel" o) as [|kv r] eqn:E.
    - reflexivity.
    - simpl Nat.ltb. cbv iota. rewrite <- E. apply prop_spread.
      now apply NoDup_keys_delete. }
  destruct (prop "thinkingLevel" o) as [| |b|n|s|l|o'];
    try (apply prop_spread; assumption).
  destruct (normalizeThinkingLevel s); [apply prop_spread; assumption|exact D].
Qed.

(** With model-level defaults [s] and a call-time override [o], both
    objects and so with distinct property names, the budget and the
    include-thoughts flag of the request are merged field by field: a property the override has wins, also when its value is
    [undefined] (the request then carries no such property), and a
    property it lacks is taken from the defaults.  The level of the
    request is the override's when that is a string naming a level; when
    it is a string that names none, the level is the one the defaults
    alone would give. *)
Theorem thinking_merge_per_field options settings o s :
  thinkingConfig options = Some o ->
  setting s_thinkingConfig settings = Some s ->
  NoDup (keys o) -> NoDup (keys s) ->
  exists cfg,
    g_thinkingConfig (fst (prepareGenerationConfig options settings)) = Some cfg
    /\ (forall k, k = "thinkingBudget" \/ k = "includeThoughts" ->
          prop k cfg = match get k o with Some v => v | None => prop k s end)
    /\ (forall level, prop "thinkingLevel" o = JStr level ->
          prop "thinkingLevel" cfg
          = match normalizeThinkingLevel level with
            | Some l => JStr (ThinkingLevel_value l)
            | None => prop "thinkingLevel" (buildThinkingConfig s)
            end).
Proof.
  intros O S No Ns. rewrite thinking_config_of, O, S.
  eexists. split; [reflexivity|]. split.
  - intros k K. rewrite (buildThinkingConfig_field _ k K).
    rewrite effective_field by (auto; destruct K; subst; discriminate).
    now rewrite prop_defaults.
  - intros level L. rewrite !buildThinkingConfig_level.
    unfold effectiveOptionsThinking. rewrite L.
    destruct (normalizeThinkingLevel level) as [l|] eqn:N.
    + rewrite prop_spread by assumption.
      unfold prop in L. destruct (get "thinkingLevel" o); [|discriminate].
      subst. simpl. now rewrite N.
    + replace (prop "thinkingLevel"
                 (spread (spread [] (Some s))
                    (if (0 <? List.length
                                (keys (delete "thinkingLevel" o)))%nat
                     then Some (delete "thinkingLevel" o) else None)))
        with (prop "thinkingLevel" s); [reflexivity|].
      symmetry. destruct (delete "thinkingLevel" o) as [|kv r] eqn:E.
      * change (prop "thinkingLevel" (spread [] (Some s))
                = prop "thinkingLevel" s).
        now apply prop_defaults.
      * change (prop "thinkingLevel"
                  (spread (spread [] (Some s)) (Some (kv :: r)))
                = prop "thinkingLevel" s).
        rewrite <- E.
        rewrite prop_spread by now apply NoDup_keys_delete.
        rewrite get_delete_eq. now apply prop_defaults.
Qed.

End ThinkingProofs.

(* ================================================================== *)
(** ** Further properties of the two operations *)
(* ================================================================== *)

Module RunProofs.
Import ToolMapper LanguageModel Vocabulary RunVocabulary StreamProofs.
Import ExpectedVocabulary.
Section WithServices.
Variable randomUUID : nat -> string.
Variable JSON_stringify : json -> string.
Variable clock : nat -> Z.
Variable mapGeminiError : JsError -> JsError.
Variable base64 : list Byte.byte -> string.

#[local] Abbreviation processPart := (processPart randomUUID JSON_stringify).
#[local] Abbreviation processChunk := (processChunk randomUUID JSON_stringify clock).
#[local] Abbreviation finishChunk := (finishChunk randomUUID clock).
#[local] Abbreviation streamLoop := (streamLoop randomUUID JSON_stringify clock mapGeminiError).
#[local] Abbreviation start := (start randomUUID JSON_stringify clock mapGeminiError).
#[local] Abbreviation doStream := (doStream randomUUID JSON_stringify clock mapGeminiError base64).
#[local] Abbreviation doGenerate := (doGenerate randomUUID JSON_stringify clock mapGeminiError base64).
#[local] Abbreviation contentStep := (contentStep randomUUID JSON_stringify).
#[local] Abbreviation shapeOfPart := (shapeOfPart JSON_stringify).
#[local] Abbreviation shapesOfChunk := (shapesOfChunk JSON_stringify).
#[local] Abbreviation Emits := (Emits randomUUID).
#[local] Abbreviation Run := (Run randomUUID JSON_stringify).
#[local] Abbreviation endingAfter := (endingAfter mapGeminiError).

(** *** The content loop of [doGenerate] *)

Lemma content_run ps : forall st,
  let st' := fold_left contentStep ps st in
  map shapeOfContent (cs_content st')
  = map shapeOfContent (cs_content st) ++ flat_map shapeOfPart ps
  /\ exists n,
       cs_uuids st' = cs_uuids st + n
       /\ flat_map callIdOf (cs_content st')
          = flat_map callIdOf (cs_content st)
            ++ map randomUUID (seq (cs_uuids st) n).
Proof.
  induction ps as [|p r IH]; intros st; simpl.
  - rewrite app_nil_r. split; auto. exists 0. simpl.
    now rewrite Nat.add_0_r, app_nil_r.
  - destruct (IH (contentStep st p)) as (Sh & n & U & I).
    rewrite Sh, U, I. unfold LanguageModel.contentStep, RunVocabulary.shapeOfPart.
    destruct (truthyStr (text p)); simpl.
    + split.
      * rewrite map_app, <- app_assoc. reflexivity.
      * exists n. split; auto. rewrite flat_map_app. simpl.
        now rewrite app_nil_r.
    + destruct (functionCall p) as [fc|]; simpl.
      * split.
        -- rewrite map_app, <- app_assoc. reflexivity.
        -- exists (S n). split; [lia|]. rewrite flat_map_app. simpl.
           now rewrite <- app_assoc.
      * split; auto. exists n. auto.
Qed.

Lemma NoDup_draws (f : nat -> string) start n :
  (forall a b, f a = f b -> a = b) -> NoDup (map f (seq start n)).
Proof.
  intros Inj. apply NoDup_map_NoDup_ForallPairs; [|apply seq_NoDup].
  intros x y _ _. apply Inj.
Qed.

Lemma doGenerate_run model options backend r :
  doGenerate model options backend = Ok r ->
  exists response n,
    generateContent backend = Ok response
    /\ map shapeOfContent (gr_content r) = shapesOfChunk response
    /\ flat_map callIdOf (gr_content r) = map randomUUID (seq 1 n)
    /\ r_id (gr_response r) = randomUUID (S n).
Proof.
  unfold LanguageModel.doGenerate, rethrow, bind, checkAbort.
  destruct (ensureInitialized backend); [|discriminate].
  destruct (MessageMapper.mapPromptToGeminiFormat base64 (prompt options));
    [|discriminate].
  destruct (prepareGenerationConfig options (settings model)) as [cfg w].
  destruct (aborted options 0); [discriminate|].
  destruct (generateContent backend) as [response|]; [|discriminate].
  destruct (aborted options 1); [discriminate|].
  intros H; inversion H; subst; clear H. simpl.
  destruct (content_run (partsOf (firstCandidate response))
              (mkContentState [] false 1)) as (Sh & n & U & I).
  simpl in Sh, U, I. exists response, n. rewrite I, U. auto.
Qed.

Lemma shapeOfPart_expected p :
  shapeOfPart p = expectedShape JSON_stringify p.
Proof.
  unfold RunVocabulary.shapeOfPart, expectedShape, truthyStr, orEmpty,
    signatureOf, argsOrEmpty, truthyStr.
  destruct (text p) as [[|c t]|]; simpl;
    destruct (functionCall p) as [call|]; try reflexivity;
    destruct (thoughtSignature p) as [[|c' sg]|]; simpl;
    destruct (fc_args call) as [[| |[|]|[|n|n]|[|c'' a]|l|o]|];
    reflexivity.
Qed.

Lemma shapesOfChunk_expected response :
  shapesOfChunk response = expectedContent JSON_stringify response.
Proof.
  unfold RunVocabulary.shapesOfChunk, expectedContent, partsOf, firstCandidate.
  destruct (candidates response) as [[|candidate l]|]; simpl; auto.
  destruct (content candidate) as [ct|]; auto.
  destruct (parts ct) as [ps|]; auto.
  apply flat_map_ext. intros p. apply shapeOfPart_expected.
Qed.

(** The content [doGenerate] returns is read off the parts of the first
    candidate of the response, part by part in their order.  A part with
    a non-empty text gives a text part with that text.  Any other part
    with a function call gives a tool call with the call's name (the
    empty string when it has none), the JSON text of its arguments (of
    the empty object when it has none, or falsy ones) and the thought
    signature of the part, unless that is missing or empty.  Any other
    part gives nothing; in particular a part with both a non-empty text
    and a function call gives the text only. *)
Theorem doGenerate_content model options backend r response :
  doGenerate model options backend = Ok r ->
  generateContent backend = Ok response ->
  map shapeOfContent (gr_content r) = expectedContent JSON_stringify response.
Proof.
  intros H G. destruct (doGenerate_run _ _ _ _ H) as (x & n & G' & Sh & _).
  rewrite G in G'. inversion G'; subst.
  now rewrite Sh, shapesOfChunk_expected.
Qed.

(** The identifiers of a result are fresh draws of the identifier source,
    taken in order: the tool calls have the draws 1 to [n] (draw 0 names
    the request) and the response has draw [n + 1].  So when the source
    never repeats an identifier, the tool-call identifiers and the
    response identifier of a result are pairwise distinct. *)
Theorem doGenerate_ids_fresh model options backend r :
  doGenerate model options backend = Ok r ->
  exists n,
    flat_map callIdOf (gr_content r) ++ [r_id (gr_response r)]
    = map randomUUID (seq 1 (S n))
    /\ ((forall a b, randomUUID a = randomUUID b -> a = b) ->
        NoDup (flat_map callIdOf (gr_content r) ++ [r_id (gr_response r)])).
Proof.
  intros H. destruct (doGenerate_run _ _ _ _ H) as (x & n & _ & _ & I & R).
  exists n.
  assert (E : flat_map callIdOf (gr_content r) ++ [r_id (gr_response r)]
              = map randomUUID (seq 1 (S n))).
  { rewrite I, R, seq_S, map_app. reflexivity. }
  split; [exact E|]. intros Inj. rewrite E. now apply NoDup_draws.
Qed.

Lemma prompt_mapped_iff prompt :
  (exists pr, MessageMapper.mapPromptToGeminiFormat base64 prompt = Ok pr)
  <-> forallb PromptVocabulary.messageAccepted prompt = true.
Proof.
  pose proof (PromptProofs.mapPrompt_run base64 prompt) as H.
  destruct (forallb PromptVocabulary.messageAccepted prompt).
  - destruct H as (r & E & _). split; eauto.
  - destruct H as [e E]. split; [|discriminate].
    intros [r E']. rewrite E in E'. discriminate.
Qed.

(** When the two operations return.  [doGenerate] returns a result
    exactly when the client initialised, the mapper accepts the prompt,
    the request was cancelled neither before nor right after the call of
    the backend, and the backend answered; [doStream] returns a stream
    under the same conditions, with the backend opening a stream.  A
    cancellation that comes later, or a failure while the backend's
    stream is read, does not make [doStream] throw. *)
Theorem operations_return_iff model options backend :
  ((exists r, doGenerate model options backend = Ok r)
   <-> requestReady backend options
       /\ exists response, generateContent backend = Ok response)
  /\ ((exists s, doStream model options backend = Ok s)
      <-> requestReady backend options
          /\ exists cs, generateContentStream backend = Ok cs).
Proof.
  unfold requestReady, LanguageModel.doGenerate, LanguageModel.doStream,
    rethrow, bind, checkAbort, ensureInitialized.
  pose proof (prompt_mapped_iff (prompt options)) as P.
  destruct (initializeFailure backend) as [e0|];
    [split; split; [intros [? ?]|intros [[? ?] ?]|intros [? ?]
                   |intros [[? ?] ?]]; discriminate|].
  destruct (MessageMapper.mapPromptToGeminiFormat base64 (prompt options))
    as [pr|e1].
  - assert (Acc : forallb PromptVocabulary.messageAccepted (prompt options)
                  = true) by (apply P; eauto).
    destruct (prepareGenerationConfig options (settings model)) as [cfg w].
    destruct (aborted options 0);
      [split; split; [intros [? ?]|intros [(_ & _ & ? & _) _]|intros [? ?]
                     |intros [(_ & _ & ? & _) _]]; discriminate|].
    split.
    + destruct (generateContent backend) as [response|e2];
        [|split; [intros [? ?]|intros [_ [? ?]]]; discriminate].
      destruct (aborted options 1);
        [split; [intros [? ?]|intros [(_ & _ & _ & ?) _]]; discriminate|].
      split; [intros _; repeat split; eauto|eauto].
    + destruct (generateContentStream backend) as [cs|e2];
        [|split; [intros [? ?]|intros [_ [? ?]]]; discriminate].
      destruct (aborted options 1);
        [split; [intros [? ?]|intros [(_ & _ & _ & ?) _]]; discriminate|].
      split; [intros _; repeat split; eauto|eauto].
  - assert (Rej : forallb PromptVocabulary.messageAccepted (prompt options)
                  <> true).
    { intros A. apply P in A as [pr A]. discriminate. }
    split; split; [intros [? ?]|intros [(_ & ? & _) _]|intros [? ?]
                  |intros [(_ & ? & _) _]]; try discriminate; contradiction.
Qed.

(** *** What a step of the stream appends *)

Lemma Emits_refl st : Emits st st [].
Proof.
  split; [now rewrite app_nil_r|]. exists 0. now rewrite Nat.add_0_r.
Qed.

Lemma Emits_trans st1 st2 st3 e1 e2 :
  Emits st1 st2 e1 -> Emits st2 st3 e2 -> Emits st1 st3 (e1 ++ e2).
Proof.
  intros (Q1 & n1 & U1 & I1) (Q2 & n2 & U2 & I2). split.
  - now rewrite Q2, Q1, app_assoc.
  - exists (n1 + n2). split; [lia|].
    rewrite flat_map_app, I1, I2, U1, seq_app, map_app. reflexivity.
Qed.

Lemma processPart_emits st p :
  exists evs,
    Emits st (processPart st p) evs
    /\ flat_map shapeOfEvent evs = shapeOfPart p
    /\ filter isStreamStart evs = []
    /\ filter isFinish evs = []
    /\ filter isResponseMetadata evs = [].
Proof.
  unfold LanguageModel.processPart, RunVocabulary.shapeOfPart.
  destruct (truthyStr (text p)).
  - destruct (negb (truthyStr (textPartId st))).
    + eexists [TextStart _; TextDelta _ _]. split; [|repeat split].
      split; simpl.
      * now rewrite <- app_assoc.
      * exists 1. split; [lia|reflexivity].
    + eexists [TextDelta _ _]. split; [|repeat split].
      split; simpl; auto. exists 0. split; [lia|reflexivity].
  - destruct (functionCall p) as [fc|].
    + eexists [ToolCall _ _ _ _]. split; [|repeat split].
      split; simpl; auto. exists 1. split; [lia|reflexivity].
    + exists []. split; [apply Emits_refl|repeat split].
Qed.

Lemma parts_emit ps : forall st,
  exists evs,
    Emits st (fold_left processPart ps st) evs
    /\ flat_map shapeOfEvent evs = flat_map shapeOfPart ps
    /\ filter isStreamStart evs = []
    /\ filter isFinish evs = []
    /\ filter isResponseMetadata evs = [].
Proof.
  induction ps as [|p r IH]; intros st; simpl.
  - exists []. split; [apply Emits_refl|repeat split].
  - destruct (processPart_emits st p) as (e1 & E1 & S1 & A1 & F1 & M1).
    destruct (IH (processPart st p)) as (e2 & E2 & S2 & A2 & F2 & M2).
    exists (e1 ++ e2). split; [eapply Emits_trans; eauto|].
    rewrite flat_map_app, !filter_app, S1, S2, A1, A2, F1, F2, M1, M2. auto.
Qed.

Lemma finishChunk_emits model i reason st :
  exists evs,
    Emits st (finishChunk model i reason st) evs
    /\ flat_map shapeOfEvent evs = []
    /\ filter isStreamStart evs = []
    /\ List.length (filter isFinish evs) = 1
    /\ List.length (filter isResponseMetadata evs) = 1.
Proof.
  unfold LanguageModel.finishChunk.
  destruct (truthyStr (textPartId st)).
  - eexists [TextEnd _; ResponseMetadata _ _ _; Finish _ _].
    split; [|repeat split]. split; simpl.
    + now rewrite <- !app_assoc.
    + exists 1. split; [lia|reflexivity].
  - eexists [ResponseMetadata _ _ _; Finish _ _].
    split; [|repeat split]. split; simpl.
    + now rewrite <- !app_assoc.
    + exists 1. split; [lia|reflexivity].
Qed.

Lemma processChunk_emits model i st c :
  exists evs,
    Emits st (processChunk model i st c) evs
    /\ flat_map shapeOfEvent evs = shapesOfChunk c
    /\ filter isStreamStart evs = []
    /\ List.length (filter isFinish evs)
       = List.length (filter finishing [c])
    /\ List.length (filter isResponseMetadata evs)
       = List.length (filter finishing [c]).
Proof.
  unfold LanguageModel.processChunk.
  set (st1 := match usageMetadata c with Some m => _ | None => st end).
  assert (E0 : Emits st st1 []).
  { unfold st1. destruct (usageMetadata c); [|apply Emits_refl].
    split; simpl; [now rewrite app_nil_r|]. exists 0. now rewrite Nat.add_0_r. }
  destruct (parts_emit (partsOf (firstCandidate c)) st1)
    as (e1 & E1 & S1 & A1 & F1 & M1).
  fold (finishing c).
  assert (LF : List.length (filter finishing [c])
               = if finishing c then 1 else 0)
    by (simpl; destruct (finishing c); reflexivity).
  rewrite LF. destruct (finishing c).
  - destruct (finishChunk_emits model i (finishReasonOf (firstCandidate c))
                (fold_left processPart (partsOf (firstCandidate c)) st1))
      as (e2 & E2 & S2 & A2 & F2 & M2).
    exists (e1 ++ e2). split.
    + apply (Emits_trans _ _ _ [] _ E0). eapply Emits_trans; eauto.
    + rewrite flat_map_app, !filter_app, !length_app, S1, S2, A1, A2, F1, M1,
        F2, M2, app_nil_r. auto.
  - exists e1. split.
    + apply (Emits_trans _ _ _ [] _ E0 E1).
    + rewrite F1, M1. auto.
Qed.

Lemma processChunk_run model w i pre st c :
  Run w pre st -> Run w (pre ++ [c]) (processChunk model i st c).
Proof.
  intros [(q & Q & NS) Sh Fi Me (U1 & Ids)].
  destruct (processChunk_emits model i st c)
    as (evs & (Q' & n & U' & I') & S' & A' & F' & M').
  constructor.
  - exists (q ++ evs). rewrite Q', Q. split; auto.
    now rewrite filter_app, NS, A'.
  - rewrite Q', !flat_map_app, Sh, S'. simpl. now rewrite app_nil_r.
  - rewrite Q', !filter_app, !length_app, Fi, F'. reflexivity.
  - rewrite Q', !filter_app, !length_app, Me, M'. reflexivity.
  - split; [lia|]. rewrite Q', flat_map_app, Ids, I', U'.
    replace (uuids st + n - 1) with ((uuids st - 1) + n) by lia.
    rewrite seq_app, map_app. do 3 f_equal. lia.
Qed.

(** *** The chunk loop, run to its end *)

Lemma streamLoop_run (P : list GenerateContentResponse -> StreamState -> Prop)
    model options failure :
  (forall i pre st c, P pre st -> P (pre ++ [c]) (processChunk model i st c)) ->
  forall rest i pre st,
    P pre st ->
    exists k st',
      k <= List.length rest
      /\ P (pre ++ firstn k rest) st'
      /\ streamLoop model options i rest failure st
         = mkStream (queue st') (endingAfter k rest failure)
      /\ (forall j, j < k -> aborted options (3 + i + j) = false)
      /\ (k < List.length rest -> aborted options (3 + i + k) = true).
Proof.
  intros Step. induction rest as [|c r IH]; intros i pre st H.
  - exists 0, st. simpl. rewrite app_nil_r.
    split; [lia|]. split; [exact H|].
    split; [now destruct failure|].
    split; [intros j Hj; lia|intros Hk; lia].
  - simpl LanguageModel.streamLoop.
    destruct (aborted options (S (S (S i)))) eqn:A.
    + exists 0, st. simpl firstn. rewrite app_nil_r, Nat.add_0_r.
      split; [lia|]. split; [exact H|]. split; [reflexivity|].
      split; [intros j Hj; lia|intros _; exact A].
    + destruct (IH (S i) (pre ++ [c]) (processChunk model i st c))
        as (k & st' & L & HP & E & B1 & B2); [now apply Step|].
      exists (S k), st'. simpl firstn. simpl List.length.
      rewrite <- app_assoc in HP. simpl in HP.
      split; [lia|]. split; [exact HP|]. split; [|split].
      * rewrite E. unfold RunVocabulary.endingAfter. simpl List.length.
        reflexivity.
      * intros j Hj. destruct j as [|j]; [now rewrite Nat.add_0_r|].
        replace (3 + i + S j) with (3 + S i + j) by lia. apply B1. lia.
      * intros Hk. replace (3 + i + S k) with (3 + S i + k) by lia.
        apply B2. lia.
Qed.

(** The stream of a started request, in terms of the chunks processed. *)
Lemma start_run model options w cs :
  aborted options 2 = false ->
  exists k st,
    k <= List.length (chunks cs)
    /\ Run w (firstn k (chunks cs)) st
    /\ start model options w cs
       = mkStream (queue st) (endingAfter k (chunks cs) (failure cs))
    /\ (forall j, j < k -> aborted options (3 + j) = false)
    /\ (k < List.length (chunks cs) -> aborted options (3 + k) = true).
Proof.
  intros A2. unfold LanguageModel.start. rewrite A2.
  destruct (streamLoop_run (Run w) model options (failure cs)
              (processChunk_run model w) (chunks cs) 0 []
              (enqueue (StreamStart w) (mkStreamState 0 0 None false 1 [])))
    as (k & st & L & R & E & B1 & B2).
  - constructor; simpl; auto. exists []. auto.
  - exists k, st. simpl in R.
    split; [exact L|]. split; [exact R|]. split; [exact E|].
    split; [exact B1|exact B2].
Qed.

(** A stream holds the content of a prefix of the backend's chunks:
    the chunks processed before a cancellation was observed, all of them
    if none was.  Its text deltas and tool calls are, in order, the
    non-empty texts and the function calls of the parts of those chunks.
    It ends with the cancellation error when a chunk was left
    unprocessed; otherwise with the mapped failure of the backend's
    stream, if it failed, and else it is closed.  A failure of the
    backend's stream is not reported by a cancelled stream. *)
Theorem doStream_processes_a_prefix model options backend s cs :
  doStream model options backend = Ok s ->
  generateContentStream backend = Ok cs ->
  aborted options 2 = false ->
  exists k,
    k <= List.length (chunks cs)
    /\ (forall j, j < k -> aborted options (3 + j) = false)
    /\ (k < List.length (chunks cs) -> aborted options (3 + k) = true)
    /\ flat_map shapeOfEvent (enqueued s)
       = flat_map shapesOfChunk (firstn k (chunks cs))
    /\ ending s = endingAfter k (chunks cs) (failure cs).
Proof.
  intros H G A2. apply doStream_Ok in H as (cs' & G' & ->).
  rewrite G in G'. inversion G'; subst cs'.
  destruct (start_run model options
              (snd (prepareGenerationConfig options (settings model))) cs A2)
    as (k & st & L & R & E & B1 & B2).
  exists k. rewrite E. simpl. repeat split; auto. apply (run_shapes _ _ _ _ _ R).
Qed.

Lemma never_cancelled_all options n k :
  k <= n ->
  (forall j, j < n -> aborted options (3 + j) = false) ->
  (k < n -> aborted options (3 + k) = true) ->
  k = n.
Proof.
  intros L N B. destruct (Nat.eq_dec k n) as [|D]; auto.
  assert (K : k < n) by lia. rewrite (N k K) in B. specialize (B K). discriminate.
Qed.

(** A stream that is never cancelled holds the content of all chunks,
    and one finish part and one response-metadata part per chunk that
    carries a finish reason: none when no chunk carries one, several when
    several do.  It is closed, or errored with the mapped failure of the
    backend's stream. *)
Theorem doStream_uncancelled model options backend s cs :
  doStream model options backend = Ok s ->
  generateContentStream backend = Ok cs ->
  aborted options 2 = false ->
  (forall j, j < List.length (chunks cs) -> aborted options (3 + j) = false) ->
  flat_map shapeOfEvent (enqueued s) = flat_map shapesOfChunk (chunks cs)
  /\ List.length (filter isFinish (enqueued s))
     = List.length (filter finishing (chunks cs))
  /\ List.length (filter isResponseMetadata (enqueued s))
     = List.length (filter finishing (chunks cs))
  /\ ending s = match failure cs with
                | Some e => Errored (mapGeminiError e)
                | None => Closed
                end.
Proof.
  intros H G A2 N. apply doStream_Ok in H as (cs' & G' & ->).
  rewrite G in G'. inversion G'; subst cs'.
  destruct (start_run model options
              (snd (prepareGenerationConfig options (settings model))) cs A2)
    as (k & st & L & R & E & B1 & B2).
  assert (K : k = List.length (chunks cs))
    by (eapply never_cancelled_all; eauto).
  subst k. rewrite firstn_all in R. rewrite E. simpl.
  destruct R as [_ Sh Fi Me _]. repeat split; auto.
  unfold RunVocabulary.endingAfter. now rewrite Nat.ltb_irrefl.
Qed.

(** A stream that was cancelled before its start callback ran holds no
    part at all.  Every other stream begins with the stream-start part,
    which carries the warnings of the configuration, and holds no second
    stream-start part. *)
Theorem doStream_stream_start_first model options backend s :
  doStream model options backend = Ok s ->
  (aborted options 2 = true /\ s = mkStream [] (Errored abortError))
  \/ (aborted options 2 = false
      /\ exists q,
           enqueued s
           = StreamStart (snd (prepareGenerationConfig options (settings model)))
             :: q
           /\ filter isStreamStart q = []).
Proof.
  intros H. apply doStream_Ok in H as (cs & G & ->).
  destruct (aborted options 2) eqn:A2.
  - left. split; auto. unfold LanguageModel.start. now rewrite A2.
  - right. split; auto.
    destruct (start_run model options
                (snd (prepareGenerationConfig options (settings model))) cs A2)
      as (k & st & L & R & E & _).
    rewrite E. simpl. apply (run_start _ _ _ _ _ R).
Qed.

(** The identifiers of a stream are fresh draws of the identifier
    source, taken in order of appearance (draw 0 names the request): one
    for every text-start part, one for every tool call and one for every
    response-metadata part.  So when the source never repeats an
    identifier, these identifiers are pairwise distinct; text deltas and
    text ends carry the identifier of their text start. *)
Theorem doStream_ids_fresh model options backend s :
  doStream model options backend = Ok s ->
  exists n,
    flat_map drawnId (enqueued s) = map randomUUID (seq 1 n)
    /\ ((forall a b, randomUUID a = randomUUID b -> a = b) ->
        NoDup (flat_map drawnId (enqueued s))).
Proof.
  intros H. apply doStream_Ok in H as (cs & G & ->).
  destruct (aborted options 2) eqn:A2.
  - unfold LanguageModel.start. rewrite A2. simpl. exists 0.
    split; [reflexivity|]. intros _. constructor.
  - destruct (start_run model options
                (snd (prepareGenerationConfig options (settings model))) cs A2)
      as (k & st & L & R & E & _).
    rewrite E. simpl. destruct (run_ids _ _ _ _ _ R) as [U I].
    exists (uuids st - 1). split; [exact I|].
    intros Inj. rewrite I. now apply NoDup_draws.
Qed.

(** Whatever [doGenerate] or [doStream] throws, the cancellation error
    included, has gone through the error mapping.  Inside a returned
    stream it is the other way round: a stream errors either with the
    cancellation error, which is not mapped, or with the mapped failure
    of the backend's stream. *)
Theorem rejections_are_mapped model options backend :
  (forall e, doGenerate model options backend = Throw e ->
     exists e0, e = mapGeminiError e0)
  /\ (forall e, doStream model options backend = Throw e ->
        exists e0, e = mapGeminiError e0)
  /\ (forall s e, doStream model options backend = Ok s ->
        ending s = Errored e ->
        e = abortError
        \/ exists cs e0,
             generateContentStream backend = Ok cs
             /\ failure cs = Some e0
             /\ e = mapGeminiError e0).
Proof.
  split; [|split].
  - unfold LanguageModel.doGenerate, rethrow.
    intros e. destruct (bind _ _); intros H; inversion H. eauto.
  - unfold LanguageModel.doStream, rethrow.
    intros e. destruct (bind _ _); intros H; inversion H. eauto.
  - intros s e H En. apply doStream_Ok in H as (cs & G & ->).
    destruct (aborted options 2) eqn:A2.
    + unfold LanguageModel.start in En. rewrite A2 in En. simpl in En.
      inversion En. auto.
    + destruct (start_run model options
                  (snd (prepareGenerationConfig options (settings model)))
                  cs A2) as (k & st & L & R & E & _).
      rewrite E in En. simpl in En. unfold RunVocabulary.endingAfter in En.
      destruct (k <? List.length (chunks cs))%nat; [inversion En; auto|].
      destruct (failure cs) as [e0|] eqn:F; [|discriminate].
      inversion En. right. exists cs, e0. auto.
Qed.

(** The two operations agree on a backend that answers [doGenerate] with
    the response [c] and streams the single chunk [c]: the stream holds
    the content of the result, part for part, and a finish part of the
    stream carries the finish reason and the usage of the result.  The
    stream holds that finish part when [c] carries a finish reason, and
    no finish part at all when it does not, although the result of
    [doGenerate] still has a finish reason. *)
Theorem single_chunk_stream_matches_generate
    model options backend r s c fail :
  doGenerate model options backend = Ok r ->
  doStream model options backend = Ok s ->
  generateContent backend = Ok c ->
  generateContentStream backend = Ok (mkChunkStream [c] fail) ->
  aborted options 2 = false ->
  aborted options 3 = false ->
  flat_map shapeOfEvent (enqueued s) = map shapeOfContent (gr_content r)
  /\ (forall fr u, In (Finish fr u) (enqueued s) ->
        fr = gr_finishReason r /\ u = gr_usage r)
  /\ (finishing c = true ->
      In (Finish (gr_finishReason r) (gr_usage r)) (enqueued s))
  /\ (finishing c = false -> filter isFinish (enqueued s) = []).
Proof.
  intros HG HS G GS A2 A3.
  destruct (doGenerate_run _ _ _ _ HG) as (c' & n & G' & Sh & _).
  rewrite G in G'. inversion G'; subst c'; clear G'.
  destruct (doGenerate_Ok randomUUID JSON_stringify clock mapGeminiError base64
              _ _ _ _ HG) as (c' & G' & FR & US & _).
  rewrite G in G'. inversion G'; subst c'; clear G'.
  assert (Fin : forall fr u, In (Finish fr u) (enqueued s) ->
                  fr = gr_finishReason r /\ u = gr_usage r).
  { intros fr u I.
    destruct (doStream_finish_events randomUUID JSON_stringify clock
                mapGeminiError base64 _ _ _ _ _ fr u HS GS I)
      as (pre & x & post & E & _ & -> & ->).
    simpl in E. destruct pre as [|y pre]; simpl in E.
    - inversion E; subst. rewrite FR, US. simpl. rewrite orb_false_r.
      unfold lastUsageOf. simpl. destruct (usageMetadata x); auto.
    - inversion E as [[Ey Ep]]. destruct pre; discriminate. }
  apply doStream_Ok in HS as (cs & GS' & ->).
  rewrite GS in GS'. inversion GS'; subst cs; clear GS'.
  destruct (start_run model options
              (snd (prepareGenerationConfig options (settings model)))
              (mkChunkStream [c] fail) A2)
    as (k & st & L & R & E & B1 & B2).
  simpl in L, B2.
  assert (K : k = 1).
  { destruct k as [|[|k]]; [|reflexivity|lia].
    rewrite A3 in B2. specialize (B2 ltac:(lia)). discriminate. }
  subst k. simpl in R. rewrite E in *. simpl.
  destruct R as [_ Sh' Fi _ _]. simpl in Sh', Fi.
  split; [|split; [exact Fin|split]].
  - rewrite Sh', Sh, app_nil_r. reflexivity.
  - intros F. rewrite F in Fi. simpl in Fi.
    destruct (filter isFinish (queue st)) as [|e l] eqn:Q; [discriminate|].
    assert (I : In e (filter isFinish (queue st))) by (rewrite Q; now left).
    apply filter_In in I as [I T]. destruct e; try discriminate.
    destruct (Fin _ _ I) as [<- <-]. exact I.
  - intros F. rewrite F in Fi. simpl in Fi.
    destruct (filter isFinish (queue st)); [reflexivity|discriminate].
Qed.

End WithServices.
End RunProofs.

(* ================================================================== *)
(** ** The finish parts of a stream *)
(* ================================================================== *)

Module FinishProofs.
Import ToolMapper LanguageModel Vocabulary RunVocabulary FinishVocabulary.
Import StreamProofs RunProofs.
Section WithServices.
Variable randomUUID : nat -> string.
Variable JSON_stringify : json -> string.
Variable clock : nat -> Z.
Variable mapGeminiError : JsError -> JsError.
Variable base64 : list Byte.byte -> string.

#[local] Abbreviation processPart := (processPart randomUUID JSON_stringify).
#[local] Abbreviation processChunk := (processChunk randomUUID JSON_stringify clock).
#[local] Abbreviation finishChunk := (finishChunk randomUUID clock).
#[local] Abbreviation streamLoop := (streamLoop randomUUID JSON_stringify clock mapGeminiError).
#[local] Abbreviation start := (start randomUUID JSON_stringify clock mapGeminiError).
#[local] Abbreviation doStream := (doStream randomUUID JSON_stringify clock mapGeminiError base64).
#[local] Abbreviation doGenerate := (doGenerate randomUUID JSON_stringify clock mapGeminiError base64).

Lemma finishReasonFor_expected sawCall signal :
  finishReasonFor sawCall signal = expectedFinishReason sawCall signal.
Proof.
  destruct sawCall; [reflexivity|]. apply mapGeminiFinishReason_unifiedOf.
Qed.

Lemma signalOf_first c : finishReasonOf (firstCandidate c) = signalOf c.
Proof.
  unfold finishReasonOf, firstCandidate, signalOf.
  destruct (candidates c) as [[|x l]|]; reflexivity.
Qed.

Lemma finishesOf_app l1 l2 :
  finishesOf (l1 ++ l2) = finishesOf l1 ++ finishesOf l2.
Proof. apply flat_map_app. Qed.

Lemma finishesOf_none evs : filter isFinish evs = [] -> finishesOf evs = [].
Proof.
  induction evs as [|e r IH]; simpl; auto.
  destruct e; simpl; auto; discriminate.
Qed.

Lemma parts_keep_finishes ps st :
  finishesOf (queue (fold_left processPart ps st)) = finishesOf (queue st).
Proof.
  destruct (parts_emit randomUUID JSON_stringify ps st)
    as (evs & (Q & _) & _ & _ & F & _).
  rewrite Q, finishesOf_app, (finishesOf_none _ F). apply app_nil_r.
Qed.

Lemma finishChunk_finishes model i reason st :
  finishesOf (queue (finishChunk model i reason st))
  = finishesOf (queue st)
    ++ [(finishReasonFor (hasToolCalls st) reason,
         usageOf (totalInputTokens st) (totalOutputTokens st))]
  /\ hasToolCalls (finishChunk model i reason st) = hasToolCalls st
  /\ totalInputTokens (finishChunk model i reason st) = totalInputTokens st
  /\ totalOutputTokens (finishChunk model i reason st) = totalOutputTokens st.
Proof.
  unfold LanguageModel.finishChunk.
  destruct (truthyStr (textPartId st)); simpl;
    rewrite !finishesOf_app; simpl; rewrite ?app_nil_r; auto.
Qed.

Lemma expectedFinishes_snoc rest : forall seen c,
  expectedFinishes seen (rest ++ [c])
  = expectedFinishes seen rest
    ++ (if finishing c
        then [(expectedFinishReason
                 (existsb chunkHasToolCall (seen ++ rest ++ [c])) (signalOf c),
               expectedUsage (lastUsageOf (seen ++ rest ++ [c])))]
        else []).
Proof.
  induction rest as [|x r IH]; intros seen c; simpl.
  - now rewrite app_nil_r.
  - rewrite IH, <- !app_assoc. reflexivity.
Qed.

Lemma processChunk_finished model i pre st c :
  Finished pre st -> Finished (pre ++ [c]) (processChunk model i st c).
Proof.
  intros [T L].
  pose proof (processChunk_tracks randomUUID JSON_stringify clock
                model i pre st c T) as T'.
  constructor; [exact T'|].
  rewrite expectedFinishes_snoc. simpl app.
  destruct T' as [Hc Hi Ho _]. revert Hc Hi Ho.
  unfold LanguageModel.processChunk. fold (finishing c).
  set (st1 := match usageMetadata c with Some m => _ | None => st end).
  assert (Q1 : queue st1 = queue st)
    by (unfold st1; destruct (usageMetadata c); reflexivity).
  destruct (finishing c).
  - destruct (finishChunk_finishes model i (finishReasonOf (firstCandidate c))
                (fold_left processPart (partsOf (firstCandidate c)) st1))
      as (F & -> & -> & ->).
    intros Hc Hi Ho.
    rewrite F, parts_keep_finishes, Q1, L, Hc, Hi, Ho.
    rewrite finishReasonFor_expected, signalOf_first, usageOf_expected.
    reflexivity.
  - intros _ _ _. rewrite parts_keep_finishes, Q1, L. now rewrite app_nil_r.
Qed.

(** The finish parts of a started stream, in terms of the chunks
    processed. *)
Lemma start_finished model options w cs :
  aborted options 2 = false ->
  exists k,
    k <= List.length (chunks cs)
    /\ (forall j, j < k -> aborted options (3 + j) = false)
    /\ (k < List.length (chunks cs) -> aborted options (3 + k) = true)
    /\ finishesOf (enqueued (start model options w cs))
       = expectedFinishes [] (firstn k (chunks cs)).
Proof.
  intros A2. unfold LanguageModel.start. rewrite A2.
  destruct (streamLoop_run randomUUID JSON_stringify clock mapGeminiError
              Finished model options (failure cs)
              (processChunk_finished model) (chunks cs) 0 []
              (enqueue (StreamStart w) (mkStreamState 0 0 None false 1 [])))
    as (k & st & L & R & E & B1 & B2).
  - constructor; [|reflexivity]. constructor; simpl; auto.
    intros fr u [I|[]]. discriminate.
  - exists k. rewrite E. simpl in R. simpl.
    split; [exact L|]. split; [exact B1|]. split; [exact B2|].
    apply (fd_list _ _ R).
Qed.

Lemma doStream_finishes model options backend s cs :
  doStream model options backend = Ok s ->
  generateContentStream backend = Ok cs ->
  aborted options 2 = false ->
  exists k,
    k <= List.length (chunks cs)
    /\ (forall j, j < k -> aborted options (3 + j) = false)
    /\ (k < List.length (chunks cs) -> aborted options (3 + k) = true)
    /\ finishesOf (enqueued s) = expectedFinishes [] (firstn k (chunks cs)).
Proof.
  intros H G A2.
  apply (doStream_Ok randomUUID JSON_stringify clock mapGeminiError base64)
    in H as (cs' & G' & ->).
  rewrite G in G'. inversion G'; subst cs'. now apply start_finished.
Qed.

Lemma doStream_all_finishes model options backend s cs :
  doStream model options backend = Ok s ->
  generateContentStream backend = Ok cs ->
  aborted options 2 = false ->
  (forall j, j < List.length (chunks cs) -> aborted options (3 + j) = false) ->
  finishesOf (enqueued s) = expectedFinishes [] (chunks cs).
Proof.
  intros H G A2 N.
  destruct (doStream_finishes _ _ _ _ _ H G A2) as (k & L & B1 & B2 & E).
  assert (K : k = List.length (chunks cs))
    by (eapply never_cancelled_all; eauto).
  subst k. now rewrite firstn_all in E.
Qed.

(** C2, as the code has it. [doGenerate] returns the finish reason
    computed from the first candidate of the response: [tool-calls] when
    one of its parts is a function-call part, otherwise the table's value
    for the backend's signal, and in both cases the signal as the raw
    value.  A stream that is not cancelled at its start holds one finish
    part for each chunk that carries a finish signal and is processed
    (all chunks, unless a cancellation is seen at a chunk), in the order
    of the chunks; the reason of each is computed in the same way from
    the signal of its chunk and the function-call parts of the chunks up
    to and including it.  The table maps STOP to stop, MAX_TOKENS to
    length, SAFETY and RECITATION to content-filter and everything else,
    or no signal, to other. *)
Theorem finish_reason_rule :
  (forall model options backend r response,
      doGenerate model options backend = Ok r ->
      generateContent backend = Ok response ->
      gr_finishReason r
      = expectedFinishReason (chunkHasToolCall response) (signalOf response))
  /\ (forall model options backend s cs,
        doStream model options backend = Ok s ->
        generateContentStream backend = Ok cs ->
        aborted options 2 = false ->
        exists k,
          k <= List.length (chunks cs)
          /\ (forall j, j < k -> aborted options (3 + j) = false)
          /\ (k < List.length (chunks cs) -> aborted options (3 + k) = true)
          /\ map fst (finishesOf (enqueued s))
             = map fst (expectedFinishes [] (firstn k (chunks cs))))
  /\ (forall model options backend s cs,
        doStream model options backend = Ok s ->
        generateContentStream backend = Ok cs ->
        aborted options 2 = false ->
        (forall j, j < List.length (chunks cs) ->
                   aborted options (3 + j) = false) ->
        map fst (finishesOf (enqueued s))
        = map fst (expectedFinishes [] (chunks cs)))
  /\ (forall signal,
        mapGeminiFinishReason signal = expectedFinishReason false signal).
Proof.
  split; [|split; [|split]].
  - intros model options backend r response H G.
    apply (doGenerate_Ok randomUUID JSON_stringify clock mapGeminiError base64)
      in H as (response' & G' & F & _).
    rewrite G in G'. inversion G'; subst.
    now rewrite F, finishReasonFor_expected, signalOf_first.
  - intros model options backend s cs H G A2.
    destruct (doStream_finishes _ _ _ _ _ H G A2) as (k & L & B1 & B2 & E).
    exists k. rewrite E. auto.
  - intros model options backend s cs H G A2 N.
    now rewrite (doStream_all_finishes _ _ _ _ _ H G A2 N).
  - apply mapGeminiFinishReason_unifiedOf.
Qed.

(** C3, as the code has it. The input and output totals of a returned
    usage are always numbers: the backend's counts, and the number 0 for
    a count, or a usage metadata, that the backend omitted; the breakdown
    fields are always unknown.  [doGenerate] computes its usage in this
    way from the usage metadata of the response.  A stream that is not
    cancelled at its start holds one finish part for each chunk that
    carries a finish signal and is processed, in the order of the chunks,
    and the usage of each is computed in this way from the last usage
    metadata among the chunks up to and including its own: a count that
    this metadata omits is 0 also when an earlier chunk gave it. *)
Theorem usage_totals_default_to_zero :
  (forall model options backend r response,
      doGenerate model options backend = Ok r ->
      generateContent backend = Ok response ->
      gr_usage r = expectedUsage (usageMetadata response)
      /\ (usageMetadata response = None ->
          gr_usage r
          = mkUsage (mkInputTokens (Some 0%Z) None None None)
                    (mkOutputTokens (Some 0%Z) None None)))
  /\ (forall model options backend s cs,
        doStream model options backend = Ok s ->
        generateContentStream backend = Ok cs ->
        aborted options 2 = false ->
        exists k,
          k <= List.length (chunks cs)
          /\ (forall j, j < k -> aborted options (3 + j) = false)
          /\ (k < List.length (chunks cs) -> aborted options (3 + k) = true)
          /\ map snd (finishesOf (enqueued s))
             = map snd (expectedFinishes [] (firstn k (chunks cs))))
  /\ (forall model options backend s cs,
        doStream model options backend = Ok s ->
        generateContentStream backend = Ok cs ->
        aborted options 2 = false ->
        (forall j, j < List.length (chunks cs) ->
                   aborted options (3 + j) = false) ->
        map snd (finishesOf (enqueued s))
        = map snd (expectedFinishes [] (chunks cs))).
Proof.
  split; [|split].
  - intros model options backend r response H G.
    apply (doGenerate_Ok randomUUID JSON_stringify clock mapGeminiError base64)
      in H as (response' & G' & _ & U & _).
    rewrite G in G'. inversion G'; subst.
    rewrite U, usageOf_expected. split; [reflexivity|].
    now intros ->.
  - intros model options backend s cs H G A2.
    destruct (doStream_finishes _ _ _ _ _ H G A2) as (k & L & B1 & B2 & E).
    exists k. rewrite E. auto.
  - intros model options backend s cs H G A2 N.
    now rewrite (doStream_all_finishes _ _ _ _ _ H G A2 N).
Qed.

End WithServices.
End FinishProofs.

(* ================================================================== *)
(** ** The further properties at concrete inputs *)
(* ================================================================== *)

Module Examples.
Import ToolMapper ToolDeclarations LanguageModel Vocabulary.
Import MessageMapper CleanerModel PromptVocabulary RunVocabulary MoreSamples.
Import FinishVocabulary ExpectedVocabulary.

#[local] Abbreviation doStream :=
  (LanguageModel.doStream Sample.randomUUID Sample.JSON_stringify Sample.clock
     Sample.mapGeminiError Sample.base64).
#[local] Abbreviation doGenerate :=
  (LanguageModel.doGenerate Sample.randomUUID Sample.JSON_stringify
     Sample.clock Sample.mapGeminiError Sample.base64).
#[local] Abbreviation start :=
  (LanguageModel.start Sample.randomUUID Sample.JSON_stringify Sample.clock
     Sample.mapGeminiError).
#[local] Abbreviation shapesOfChunk :=
  (RunVocabulary.shapesOfChunk Sample.JSON_stringify).

(** The sample identifier source never repeats an identifier. *)
Lemma sample_uuid_injective a b :
  Sample.randomUUID a = Sample.randomUUID b -> a = b.
Proof.
  unfold Sample.randomUUID, index_key. simpl. intros H. inversion H as [E].
  apply DecimalNat.Unsigned.to_uint_inj.
  apply (f_equal NilEmpty.uint_of_string) in E.
  rewrite !NilEmpty.usu in E. now inversion E.
Qed.

(** The parameters declared for a schema written by a schema generator. *)
Lemma convertToolParameters_cleaned_witness :
  Cleaned (convertToolParameters None None draftSchema)
  /\ cleanJsonSchema (convertToolParameters None None draftSchema)
     = convertToolParameters None None draftSchema.
Proof.
  apply (ToolDeclarationProofs.convertToolParameters_cleaned
           None None draftSchema).
  reflexivity.
Defined.

(** A zod schema when no converter is installed. *)
Lemma zod_without_converter_falls_back_witness :
  convertToolParameters None None zodLike = JObj [("type", JStr "object")].
Proof.
  apply (ToolDeclarationProofs.zod_without_converter_falls_back
           None None zodLike); reflexivity.
Defined.

(** The tools of a call that lists a provider-defined tool between two
    function tools. *)
Lemma requestTools_function_tools_only_witness :
  requestTools None None (Some mixedTools)
  = Some [mkGeminiTool
            [mkFunctionDeclaration "get_weather" (Some "Weather of a city")
               (JObj [("properties",
                       JObj [("city", JObj [("type", JStr "string")])]);
                      ("type", JStr "object")]);
             mkFunctionDeclaration "get_time" None (JStr "any")]].
Proof.
  apply (ToolDeclarationProofs.requestTools_function_tools_only
           None None (Some mixedTools)).
Defined.

(** The tool config of the choice of the tool [lookup]. *)
Lemma allowed_names_only_with_mode_any_witness :
  mode (mkFunctionCallingConfig (Some ["lookup"]) ANY) = ANY
  /\ exists toolName,
       ["lookup"] = [toolName]
       /\ Some (ChoiceTool "lookup") = Some (ChoiceTool toolName).
Proof.
  apply (ToolDeclarationProofs.allowed_names_only_with_mode_any
           (Some (ChoiceTool "lookup"))
           (mkToolConfig (mkFunctionCallingConfig (Some ["lookup"]) ANY))
           ["lookup"]); reflexivity.
Defined.

(** The entries of the mapped conversation. *)
Lemma mapPrompt_entries_witness :
  map role (contents mappedConversation)
  = [Some "user"; Some "model"; Some "user"]
  /\ List.length (contents mappedConversation) = 3.
Proof.
  apply (PromptProofs.mapPrompt_entries Sample.base64 conversation
           mappedConversation).
  reflexivity.
Defined.

(** The second system message of the conversation wins. *)
Lemma mapPrompt_system_instruction_witness :
  systemInstruction mappedConversation
  = Some (mkContent (Some "user") (Some [textPart "Answer in French."])).
Proof.
  apply (PromptProofs.mapPrompt_system_instruction Sample.base64 conversation
           mappedConversation).
  reflexivity.
Defined.

(** The image part of the mapped conversation. *)
Lemma mapPrompt_parts_fine_witness :
  thoughtSignature (inlineDataPart (mkBlob "image/png" "aGVsbG8=")) <> Some ""
  /\ (forall b,
        inlineData (inlineDataPart (mkBlob "image/png" "aGVsbG8=")) = Some b ->
        MessageMapper.supportedMediaType (mimeType b) = true).
Proof.
  apply (PromptProofs.mapPrompt_parts_fine Sample.base64 conversation
           mappedConversation).
  - reflexivity.
  - simpl. auto.
Defined.

(** A user message with an image given by its URL. *)
Lemma mapPrompt_first_rejection_witness :
  mapPromptToGeminiFormat Sample.base64
    ([System "Be brief."]
     ++ User ([PText "Look:"] ++ PFile linkedImage :: [PText "What is it?"])
        :: [Assistant [PText "A cat."]])
  = Throw
      (newError
         "URL files are not supported by Gemini CLI Core. Please provide base64-encoded data.").
Proof.
  apply (PromptProofs.mapPrompt_first_rejection Sample.base64
           [System "Be brief."] [PText "Look:"] linkedImage
           [PText "What is it?"] [Assistant [PText "A cat."]]);
    reflexivity.
Defined.

(** Defaults and an override with a misspelt level and a budget. *)
Lemma thinking_merge_per_field_witness :
  exists cfg,
    g_thinkingConfig
      (fst (prepareGenerationConfig overridingOptions defaultSettings))
    = Some cfg
    /\ (forall k, k = "thinkingBudget" \/ k = "includeThoughts" ->
          prop k cfg
          = match get k overrideThinking with
            | Some v => v
            | None => prop k defaultThinking
            end)
    /\ (forall level, prop "thinkingLevel" overrideThinking = JStr level ->
          prop "thinkingLevel" cfg
          = match normalizeThinkingLevel level with
            | Some l => JStr (ThinkingLevel_value l)
            | None => prop "thinkingLevel" (buildThinkingConfig defaultThinking)
            end).
Proof.
  apply (ThinkingProofs.thinking_merge_per_field overridingOptions
           defaultSettings overrideThinking defaultThinking).
  - reflexivity.
  - reflexivity.
  - repeat constructor; simpl; intuition discriminate.
  - repeat constructor; simpl; intuition discriminate.
Defined.

(** The content of an answer with a text and a function call that has
    arguments and a thought signature. *)
Lemma doGenerate_content_witness :
  doGenerate Sample.model (Sample.options None)
    (Sample.answering callWithArguments)
  = Ok (mkGenerateResult
          [ContentText "Let me check.";
           ContentToolCall "id-1" "lookup" "<json>" (Some "sig-1")]
          (mkFinishReason tool_calls (Some "STOP")) (usageOf 0 0)
          (mkResponseInfo "id-2" 0%Z "gemini-2.5-pro") [])
  /\ map shapeOfContent
       [ContentText "Let me check.";
        ContentToolCall "id-1" "lookup" "<json>" (Some "sig-1")]
     = [ShapeText "Let me check."; ShapeCall "lookup" "<json>" (Some "sig-1")].
Proof.
  split; [reflexivity|].
  apply (RunProofs.doGenerate_content Sample.randomUUID Sample.JSON_stringify
           Sample.clock Sample.mapGeminiError Sample.base64
           Sample.model (Sample.options None)
           (Sample.answering callWithArguments)
           (mkGenerateResult
              [ContentText "Let me check.";
               ContentToolCall "id-1" "lookup" "<json>" (Some "sig-1")]
              (mkFinishReason tool_calls (Some "STOP")) (usageOf 0 0)
              (mkResponseInfo "id-2" 0%Z "gemini-2.5-pro") [])
           callWithArguments); reflexivity.
Defined.

(** The identifiers of the same result. *)
Lemma doGenerate_ids_fresh_witness : NoDup (["id-1"] ++ ["id-2"]).
Proof.
  destruct (RunProofs.doGenerate_ids_fresh Sample.randomUUID
              Sample.JSON_stringify Sample.clock Sample.mapGeminiError
              Sample.base64
              Sample.model (Sample.options None) (Sample.answering textAndCall)
              (mkGenerateResult
                 [ContentText "Let me check.";
                  ContentToolCall "id-1" "lookup" "{}" None]
                 (mkFinishReason tool_calls (Some "STOP")) (usageOf 0 0)
                 (mkResponseInfo "id-2" 0%Z "gemini-2.5-pro") [])
              eq_refl) as (n & _ & D).
  apply D. exact sample_uuid_injective.
Defined.

(** A stream that is cancelled when its second chunk arrives. *)
Lemma doStream_processes_a_prefix_witness :
  exists k,
    k <= 2
    /\ (forall j, j < k ->
          aborted (Sample.options (Some (signaledFrom 4))) (3 + j) = false)
    /\ (k < 2 ->
        aborted (Sample.options (Some (signaledFrom 4))) (3 + k) = true)
    /\ flat_map shapeOfEvent
         (enqueued
            (start Sample.model (Sample.options (Some (signaledFrom 4))) []
               (mkChunkStream textThenCall None)))
       = flat_map shapesOfChunk (firstn k textThenCall)
    /\ ending
         (start Sample.model (Sample.options (Some (signaledFrom 4))) []
            (mkChunkStream textThenCall None))
       = endingAfter Sample.mapGeminiError k textThenCall None.
Proof.
  apply (RunProofs.doStream_processes_a_prefix Sample.randomUUID
           Sample.JSON_stringify Sample.clock Sample.mapGeminiError
           Sample.base64
           Sample.model (Sample.options (Some (signaledFrom 4)))
           (Sample.streaming textThenCall) _
           (mkChunkStream textThenCall None)); reflexivity.
Defined.

(** The stream of a text chunk and a finishing function-call chunk. *)
Lemma doStream_uncancelled_witness :
  flat_map shapeOfEvent
    (enqueued
       (start Sample.model (Sample.options None) []
          (mkChunkStream textThenCall None)))
  = [ShapeText "Let me check."; ShapeCall "lookup" "{}" None]
  /\ List.length
       (filter isFinish
          (enqueued
             (start Sample.model (Sample.options None) []
                (mkChunkStream textThenCall None)))) = 1
  /\ List.length
       (filter isResponseMetadata
          (enqueued
             (start Sample.model (Sample.options None) []
                (mkChunkStream textThenCall None)))) = 1
  /\ ending
       (start Sample.model (Sample.options None) []
          (mkChunkStream textThenCall None))
     = Closed.
Proof.
  apply (RunProofs.doStream_uncancelled Sample.randomUUID
           Sample.JSON_stringify Sample.clock Sample.mapGeminiError
           Sample.base64
           Sample.model (Sample.options None)
           (Sample.streaming textThenCall) _
           (mkChunkStream textThenCall None)); reflexivity.
Defined.

(** The same stream begins with its stream-start part. *)
Lemma doStream_stream_start_first_witness :
  (aborted (Sample.options None) 2 = true
   /\ start Sample.model (Sample.options None) []
        (mkChunkStream textThenCall None)
      = mkStream [] (Errored abortError))
  \/ (aborted (Sample.options None) 2 = false
      /\ exists q,
           enqueued
             (start Sample.model (Sample.options None) []
                (mkChunkStream textThenCall None))
           = StreamStart [] :: q
           /\ filter isStreamStart q = []).
Proof.
  apply (RunProofs.doStream_stream_start_first Sample.randomUUID
           Sample.JSON_stringify Sample.clock Sample.mapGeminiError
           Sample.base64
           Sample.model (Sample.options None)
           (Sample.streaming textThenCall)).
  reflexivity.
Defined.

(** The identifiers of the same stream. *)
Lemma doStream_ids_fresh_witness :
  NoDup
    (flat_map drawnId
       (enqueued
          (start Sample.model (Sample.options None) []
             (mkChunkStream textThenCall None)))).
Proof.
  destruct (RunProofs.doStream_ids_fresh Sample.randomUUID
              Sample.JSON_stringify Sample.clock Sample.mapGeminiError
              Sample.base64
              Sample.model (Sample.options None)
              (Sample.streaming textThenCall) _ eq_refl) as (n & _ & D).
  apply D. exact sample_uuid_injective.
Defined.

(** Both operations on a backend that answers with one and the same
    response. *)
Lemma single_chunk_stream_matches_generate_witness :
  flat_map shapeOfEvent
    (enqueued
       (start Sample.model (Sample.options None) []
          (mkChunkStream [textAndCall] None)))
  = map shapeOfContent
      [ContentText "Let me check."; ContentToolCall "id-1" "lookup" "{}" None]
  /\ (forall fr u,
        In (Finish fr u)
           (enqueued
              (start Sample.model (Sample.options None) []
                 (mkChunkStream [textAndCall] None))) ->
        fr = mkFinishReason tool_calls (Some "STOP") /\ u = usageOf 0 0)
  /\ (finishing textAndCall = true ->
      In (Finish (mkFinishReason tool_calls (Some "STOP")) (usageOf 0 0))
         (enqueued
            (start Sample.model (Sample.options None) []
               (mkChunkStream [textAndCall] None))))
  /\ (finishing textAndCall = false ->
      filter isFinish
        (enqueued
           (start Sample.model (Sample.options None) []
              (mkChunkStream [textAndCall] None))) = []).
Proof.
  apply (RunProofs.single_chunk_stream_matches_generate Sample.randomUUID
           Sample.JSON_stringify Sample.clock Sample.mapGeminiError
           Sample.base64
           Sample.model (Sample.options None) answeringBoth
           (mkGenerateResult
              [ContentText "Let me check.";
               ContentToolCall "id-1" "lookup" "{}" None]
              (mkFinishReason tool_calls (Some "STOP")) (usageOf 0 0)
              (mkResponseInfo "id-2" 0%Z "gemini-2.5-pro") [])
           _ textAndCall None); reflexivity.
Defined.

(** C2 at a stream whose first chunk finishes with text and whose second
    chunk finishes with a function call. *)
Lemma finish_reason_rule_witness :
  map fst
    (finishesOf
       (enqueued
          (start Sample.model (Sample.options None) []
             (mkChunkStream stopThenCall None))))
  = [mkFinishReason stop (Some "STOP");
     mkFinishReason tool_calls (Some "MAX_TOKENS")].
Proof.
  apply (proj1 (proj2 (proj2
           (FinishProofs.finish_reason_rule Sample.randomUUID
              Sample.JSON_stringify Sample.clock Sample.mapGeminiError
              Sample.base64)))
           Sample.model (Sample.options None) (Sample.streaming stopThenCall)
           _ (mkChunkStream stopThenCall None)).
  - reflexivity.
  - reflexivity.
  - reflexivity.
  - intros j _. reflexivity.
Defined.

(** C3 at a stream whose finishing chunk omits the prompt count that an
    earlier chunk gave. *)
Lemma usage_totals_default_to_zero_witness :
  map snd
    (finishesOf
       (enqueued
          (start Sample.model (Sample.options None) []
             (mkChunkStream countsThenPartial None))))
  = [mkUsage (mkInputTokens (Some 0%Z) None None None)
             (mkOutputTokens (Some 5%Z) None None)].
Proof.
  apply (proj2 (proj2
           (FinishProofs.usage_totals_default_to_zero Sample.randomUUID
              Sample.JSON_stringify Sample.clock Sample.mapGeminiError
              Sample.base64))
           Sample.model (Sample.options None)
           (Sample.streaming countsThenPartial)
           _ (mkChunkStream countsThenPartial None)).
  - reflexivity.
  - reflexivity.
  - reflexivity.
  - intros j _. reflexivity.
Defined.

End Examples.
